(** * CSRF token issuance and verification, start-up secret handling and
      the client rate limiter

    Shallow embedding of

    - [src/server/index.js]: the start-up handling of [CSRF_SECRET]
      (lines 11-21), [verifyCsrfToken] (lines 42-69) and [issueCsrfToken]
      (lines 71-77);
    - [src/assets/js/email-config.js]: the [rateLimit] object and its
      [check] method (lines 113-130).

    Conventions of the embedding.

    - A JavaScript string is a [string]: a sequence of code units below
      256 (every HTTP header value Node hands to the server is such a
      string).  [String.length] is the JavaScript [length].  A string
      of the request body can hold any 16-bit code unit: module
      [UTF16] has the verifier and the issuer on such strings, and
      they agree with those on [string] where both apply.
    - A [Buffer] is a [list byte].
    - [Date.now()] is an integer number of milliseconds, passed in as an
      argument [now : Z]; the generator behind [crypto.randomBytes] is
      passed in as the sequence of bytes it yields.
    - [crypto.createHmac], [Buffer.from(s, 'hex')], [toString('hex')],
      [crypto.timingSafeEqual] and [Number] are Node's and the
      language's, not the repository's: they are modelled executably
      (SHA-256 and HMAC in full, [Number] with its grammar and rounding)
      so that the verifier can be run on concrete tokens.
    - The process environment and the process secret are explicit
      arguments.
    - A function that can throw returns a [Completion]. *)

From Stdlib Require Import ZArith List String Ascii Bool Lia.
From Stdlib Require Import Strings.Byte QArith.
From Stdlib Require Import DecimalString DecimalZ DecimalPos DecimalNat.
Import ListNotations.

Local Open Scope Z_scope.

(* ================================================================== *)
(** * Part I: definitions *)
(* ================================================================== *)

(** ** Bytes and buffers *)

Definition Buffer := list byte.

Definition byte_to_Z (b : byte) : Z := Z.of_N (Byte.to_N b).

Definition byte_of_Z (z : Z) : byte :=
  match Byte.of_N (Z.to_N (z mod 256)) with
  | Some b => b
  | None => x00
  end.

Definition code_unit (c : ascii) : Z := Z.of_N (N_of_ascii c).

Definition ascii_of_Z (z : Z) : ascii := ascii_of_N (Z.to_N z).

(** [Buffer.from(s, 'utf8')], the encoding [Hmac.update(s)] and
    [createHmac(alg, s)] apply to a string argument: a code unit below
    128 is one byte, a code unit in 128..255 is two. *)
Definition utf8_unit (c : ascii) : Buffer :=
  let n := code_unit c in
  if n <? 128 then [byte_of_Z n]
  else [byte_of_Z (192 + n / 64); byte_of_Z (128 + n mod 64)].

Fixpoint utf8_encode (s : string) : Buffer :=
  match s with
  | EmptyString => []
  | String c rest => utf8_unit c ++ utf8_encode rest
  end.

(** ** Hexadecimal: [buf.toString('hex')] and [Buffer.from(s, 'hex')] *)

Module Hex.

Definition digit (n : Z) : ascii :=
  if n <? 10 then ascii_of_Z (48 + n) else ascii_of_Z (87 + n).

(** Value of a hexadecimal digit of either case; [None] for any other
    code unit. *)
Definition unhex (c : ascii) : option Z :=
  let n := code_unit c in
  if (48 <=? n) && (n <=? 57) then Some (n - 48)
  else if (97 <=? n) && (n <=? 102) then Some (n - 87)
  else if (65 <=? n) && (n <=? 70) then Some (n - 55)
  else None.

Definition encode_byte (b : byte) (rest : string) : string :=
  let n := byte_to_Z b in
  String (digit (n / 16)) (String (digit (n mod 16)) rest).

(** [buf.toString('hex')] and [digest('hex')]: two lowercase digits
    per byte. *)
Fixpoint encode (bs : Buffer) : string :=
  match bs with
  | [] => EmptyString
  | b :: rest => encode_byte b (encode rest)
  end.

(** [Buffer.from(s, 'hex')]: Node decodes pairs of digits from the
    left and stops, keeping what it has, at the first pair that is
    incomplete or holds a character that is not a hexadecimal digit. *)
Fixpoint decode (s : string) : Buffer :=
  match s with
  | String a (String b rest) =>
      match unhex a, unhex b with
      | Some hi, Some lo => byte_of_Z (16 * hi + lo) :: decode rest
      | _, _ => []
      end
  | _ => []
  end.

(** ASCII lower-casing of one code unit and of a string. *)
Definition lower_unit (c : ascii) : ascii :=
  let n := code_unit c in
  if (65 <=? n) && (n <=? 90) then ascii_of_Z (n + 32) else c.

Fixpoint lower (s : string) : string :=
  match s with
  | EmptyString => EmptyString
  | String c rest => String (lower_unit c) (lower rest)
  end.

(** Every code unit is a hexadecimal digit of either case. *)
Fixpoint all_hex (s : string) : bool :=
  match s with
  | EmptyString => true
  | String c rest =>
      match unhex c with
      | Some _ => all_hex rest
      | None => false
      end
  end.

Definition is_lower_hex_unit (c : ascii) : bool :=
  let n := code_unit c in
  ((48 <=? n) && (n <=? 57)) || ((97 <=? n) && (n <=? 102)).

(** The test [/^[0-9a-f]+$/] restricted to the character class: every
    code unit is a lowercase hexadecimal digit. *)
Fixpoint all_lower_hex (s : string) : bool :=
  match s with
  | EmptyString => true
  | String c rest => is_lower_hex_unit c && all_lower_hex rest
  end.

End Hex.

(** ** SHA-256 (FIPS 180-4) and HMAC (RFC 2104), as [crypto.createHmac]
       computes them *)

Module SHA256.

Definition wrap (x : Z) : Z := x mod 2 ^ 32.
Definition add (x y : Z) : Z := wrap (x + y).
Definition rotr (n x : Z) : Z :=
  Z.lor (Z.shiftr x n) (wrap (Z.shiftl x (32 - n))).
Definition shr (n x : Z) : Z := Z.shiftr x n.
Definition not32 (x : Z) : Z := Z.lxor x (2 ^ 32 - 1).

Definition Ch (x y z : Z) : Z := Z.lxor (Z.land x y) (Z.land (not32 x) z).
Definition Maj (x y z : Z) : Z :=
  Z.lxor (Z.lxor (Z.land x y) (Z.land x z)) (Z.land y z).
Definition bsig0 (x : Z) : Z := Z.lxor (Z.lxor (rotr 2 x) (rotr 13 x)) (rotr 22 x).
Definition bsig1 (x : Z) : Z := Z.lxor (Z.lxor (rotr 6 x) (rotr 11 x)) (rotr 25 x).
Definition ssig0 (x : Z) : Z := Z.lxor (Z.lxor (rotr 7 x) (rotr 18 x)) (shr 3 x).
Definition ssig1 (x : Z) : Z := Z.lxor (Z.lxor (rotr 17 x) (rotr 19 x)) (shr 10 x).

(** The round constants are the first 32 bits of the fractional parts
    of the cube roots of the first 64 primes, the initial hash value
    those of the square roots of the first 8. *)
Definition primes : list Z :=
  [2; 3; 5; 7; 11; 13; 17; 19; 23; 29; 31; 37; 41; 43; 47; 53;
   59; 61; 67; 71; 73; 79; 83; 89; 97; 101; 103; 107; 109; 113; 127; 131;
   137; 139; 149; 151; 157; 163; 167; 173; 179; 181; 191; 193; 197; 199;
   211; 223; 227; 229; 233; 239; 241; 251; 257; 263; 269; 271; 277; 281;
   283; 293; 307; 311].

Fixpoint cube_root_bits (bits : nat) (n r : Z) : Z :=
  match bits with
  | O => r
  | S b =>
      let c := r + 2 ^ Z.of_nat b in
      if c * c * c <=? n then cube_root_bits b n c else cube_root_bits b n r
  end.

Definition K : list Z :=
  Eval vm_compute in
    map (fun p => wrap (cube_root_bits 40 (p * 2 ^ 96) 0)) primes.

Definition H0 : list Z :=
  Eval vm_compute in
    map (fun p => wrap (Z.sqrt (p * 2 ^ 64))) (firstn 8 primes).

(** Padding: the byte 0x80, zero bytes up to 56 modulo 64, then the
    bit length as a 64-bit big-endian integer. *)
Definition be_bytes (n : nat) (x : Z) : list Z :=
  map (fun i => (x / 2 ^ (8 * Z.of_nat i)) mod 256) (rev (seq 0 n)).

Definition pad (msg : list Z) : list Z :=
  let len := Z.of_nat (List.length msg) in
  msg ++ [128] ++ repeat 0 (Z.to_nat ((55 - len) mod 64))
      ++ be_bytes 8 (8 * len).

Fixpoint words (bs : list Z) : list Z :=
  match bs with
  | a :: b :: c :: d :: rest =>
      (a * 2 ^ 24 + b * 2 ^ 16 + c * 2 ^ 8 + d) :: words rest
  | _ => []
  end.

Fixpoint blocks (fuel : nat) (ws : list Z) : list (list Z) :=
  match fuel with
  | O => []
  | S f =>
      match ws with
      | [] => []
      | _ => firstn 16 ws :: blocks f (skipn 16 ws)
      end
  end.

(** Message schedule: [window] holds the last sixteen words. *)
Fixpoint schedule (n : nat) (window : list Z) : list Z :=
  match n with
  | O => []
  | S n' =>
      let wt := add (add (ssig1 (nth 14 window 0)) (nth 9 window 0))
                    (add (ssig0 (nth 1 window 0)) (nth 0 window 0)) in
      wt :: schedule n' (tl window ++ [wt])
  end.

Record state := mkState {
  sa : Z; sb : Z; sc : Z; sd : Z; se : Z; sf : Z; sg : Z; sh : Z }.

Definition round (s : state) (kw : Z * Z) : state :=
  let t1 := add (add (add (sh s) (bsig1 (se s)))
                     (add (Ch (se s) (sf s) (sg s)) (fst kw))) (snd kw) in
  let t2 := add (bsig0 (sa s)) (Maj (sa s) (sb s) (sc s)) in
  mkState (add t1 t2) (sa s) (sb s) (sc s) (add (sd s) t1) (se s) (sf s) (sg s).

Definition compress (h : state) (block : list Z) : state :=
  let w := block ++ schedule 48 block in
  let s := fold_left round (combine K w) h in
  mkState (add (sa h) (sa s)) (add (sb h) (sb s)) (add (sc h) (sc s))
          (add (sd h) (sd s)) (add (se h) (se s)) (add (sf h) (sf s))
          (add (sg h) (sg s)) (add (sh h) (sh s)).

Definition init : state :=
  mkState (nth 0 H0 0) (nth 1 H0 0) (nth 2 H0 0) (nth 3 H0 0)
          (nth 4 H0 0) (nth 5 H0 0) (nth 6 H0 0) (nth 7 H0 0).

Definition word_bytes (x : Z) : Buffer :=
  [byte_of_Z (x / 2 ^ 24); byte_of_Z (x / 2 ^ 16);
   byte_of_Z (x / 2 ^ 8); byte_of_Z x].

Definition output (s : state) : Buffer :=
  word_bytes (sa s) ++ word_bytes (sb s) ++ word_bytes (sc s)
    ++ word_bytes (sd s) ++ word_bytes (se s) ++ word_bytes (sf s)
    ++ word_bytes (sg s) ++ word_bytes (sh s).

Definition digest (msg : Buffer) : Buffer :=
  let ws := words (pad (map byte_to_Z msg)) in
  output (fold_left compress (blocks (List.length ws) ws) init).

Definition xor_byte (p : Z) (b : byte) : byte :=
  byte_of_Z (Z.lxor p (byte_to_Z b)).

(** HMAC with a 64-byte block: a key longer than the block is hashed
    first, a shorter one is padded with zero bytes. *)
Definition hmac (key msg : Buffer) : Buffer :=
  let k0 := if (64 <? List.length key)%nat then digest key else key in
  let k := k0 ++ repeat x00 (64 - List.length k0) in
  digest (map (xor_byte 92) k ++ digest (map (xor_byte 54) k ++ msg)).

End SHA256.

(** [crypto.createHmac('sha256', key).update(payload).digest('hex')]
    with string arguments. *)
Definition hmac_sha256_hex (key payload : string) : string :=
  Hex.encode (SHA256.hmac (utf8_encode key) (utf8_encode payload)).

(** ** JavaScript numbers: [Number(s)], [Number.isNaN], [>] and the
       string form of an integer *)

Module JSNumber.

(** A number value.  A finite double is represented by the rational it
    denotes (the two zeros are not told apart: nothing here does). *)
Inductive t :=
| NaN
| PosInfinity
| NegInfinity
| Finite (q : Q).

Definition of_Z (n : Z) : t := Finite (n # 1).

Definition isNaN (x : t) : bool :=
  match x with NaN => true | _ => false end.

(** [now > x] for an integer [now]: false when [x] is [NaN]. *)
Definition int_gt (now : Z) (x : t) : bool :=
  match x with
  | NaN => false
  | PosInfinity => false
  | NegInfinity => true
  | Finite q => negb (Qle_bool (now # 1) q)
  end.

(** *** Rounding a positive rational to the nearest double, ties to
        even *)

(** [(num / den) / 2 ^ e] as a fraction. *)
Definition scale2 (num den e : Z) : Z * Z :=
  if 0 <=? e then (num, den * 2 ^ e) else (num * 2 ^ (- e), den).

Definition floor_log2 (num den : Z) : Z :=
  let e0 := Z.log2 num - Z.log2 den in
  let (n, d) := scale2 num den e0 in
  if d <=? n then e0 else e0 - 1.

Definition round_half_even (n d : Z) : Z :=
  let q := n / d in
  let r := n mod d in
  if 2 * r <? d then q
  else if d <? 2 * r then q + 1
  else if Z.even q then q else q + 1.

Definition of_pow2 (m e : Z) : Q :=
  if 0 <=? e then (m * 2 ^ e) # 1 else Qred (m # Z.to_pos (2 ^ (- e))).

(** 53 bits of precision, least exponent -1074, overflow to infinity
    from 2^1024. *)
Definition round_pos (neg : bool) (num den : Z) : t :=
  let e := Z.max (floor_log2 num den - 52) (- 1074) in
  let (n, d) := scale2 num den e in
  let m := round_half_even n d in
  if (971 <? e) || ((e =? 971) && (m =? 2 ^ 53)) then
    if neg then NegInfinity else PosInfinity
  else Finite (of_pow2 (if neg then - m else m) e).

(** The double nearest to [m * 10 ^ e10], for [0 <= m]. *)
Definition round_decimal (neg : bool) (m e10 : Z) : t :=
  if m =? 0 then Finite (0 # 1)
  else if 0 <=? e10 then round_pos neg (m * 10 ^ e10) 1
  else round_pos neg m (10 ^ (- e10)).

(** *** [Number(s)]: the grammar of StringNumericLiteral *)

Definition is_white_space (c : ascii) : bool :=
  let n := code_unit c in
  ((9 <=? n) && (n <=? 13)) || (n =? 32) || (n =? 160).

Fixpoint trim_left (s : string) : string :=
  match s with
  | String c rest => if is_white_space c then trim_left rest else s
  | EmptyString => EmptyString
  end.

Fixpoint trim_right (s : string) : string :=
  match s with
  | EmptyString => EmptyString
  | String c rest =>
      match trim_right rest with
      | EmptyString => if is_white_space c then EmptyString
                       else String c EmptyString
      | rest' => String c rest'
      end
  end.

Definition digit_value (radix : Z) (c : ascii) : option Z :=
  match Hex.unhex c with
  | Some v => if v <? radix then Some v else None
  | None => None
  end.

(** Reads the longest run of digits: the value accumulated onto
    [acc], the number of digits added to [count], and what follows. *)
Fixpoint scan (radix : Z) (s : string) (acc count : Z) : Z * Z * string :=
  match s with
  | EmptyString => (acc, count, s)
  | String c rest =>
      match digit_value radix c with
      | Some v => scan radix rest (acc * radix + v) (count + 1)
      | None => (acc, count, s)
      end
  end.

Definition is_char (c : ascii) (accepted : string) : bool :=
  existsb (Ascii.eqb c) (list_ascii_of_string accepted).

(** An optional sign: whether it is a minus, and what follows. *)
Definition sign (s : string) : bool * string :=
  match s with
  | String c rest =>
      if is_char c "-" then (true, rest)
      else if is_char c "+" then (false, rest)
      else (false, s)
  | EmptyString => (false, s)
  end.

(** The digits of [0x], [0o] and [0b] literals: at least one, and
    nothing after them. *)
Definition non_decimal (radix : Z) (s : string) : t :=
  match scan radix s 0 0 with
  | (v, count, EmptyString) =>
      if count =? 0 then NaN else round_decimal false v 0
  | _ => NaN
  end.

(** What follows [e] or [E]: an optional sign and at least one digit. *)
Definition exponent (neg : bool) (m frac : Z) (s : string) : t :=
  let (eneg, s1) := sign s in
  match scan 10 s1 0 0 with
  | (ev, ec, EmptyString) =>
      if ec =? 0 then NaN
      else round_decimal neg m ((if eneg then - ev else ev) - frac)
  | _ => NaN
  end.

(** A signed decimal literal: [Infinity], or digits with an optional
    fraction and an optional exponent, with a digit on at least one
    side of the point. *)
Definition decimal (s : string) : t :=
  let (neg, s1) := sign s in
  if String.eqb s1 "Infinity" then
    if neg then NegInfinity else PosInfinity
  else
    let '(iv, ic, s2) := scan 10 s1 0 0 in
    let '(fv, fc, s3) :=
      match s2 with
      | String c rest => if is_char c "." then scan 10 rest iv 0
                         else (iv, 0, s2)
      | EmptyString => (iv, 0, s2)
      end in
    if ic + fc =? 0 then NaN
    else
      match s3 with
      | EmptyString => round_decimal neg fv (- fc)
      | String c rest => if is_char c "eE" then exponent neg fv fc rest
                         else NaN
      end.

(** [Number(s)] for a string [s]: white space is trimmed, the empty
    string is 0, and whatever is not a numeric literal is [NaN]. *)
Definition Number (s : string) : t :=
  match trim_right (trim_left s) with
  | EmptyString => Finite (0 # 1)
  | String c0 (String c1 rest) as s' =>
      if is_char c0 "0" && is_char c1 "xX" then non_decimal 16 rest
      else if is_char c0 "0" && is_char c1 "oO" then non_decimal 8 rest
      else if is_char c0 "0" && is_char c1 "bB" then non_decimal 2 rest
      else decimal s'
  | s' => decimal s'
  end.

Definition is_finite (x : t) : bool :=
  match x with Finite _ => true | _ => false end.

Definition is_decimal_digit (c : ascii) : bool :=
  let n := code_unit c in (48 <=? n) && (n <=? 57).

(** The test [/^[0-9]*$/]. *)
Fixpoint all_decimal_digits (s : string) : bool :=
  match s with
  | EmptyString => true
  | String c rest => is_decimal_digit c && all_decimal_digits rest
  end.

(** The string form of an integer-valued number below 10^21 in
    magnitude, as a template literal renders it: decimal digits, with
    a minus sign when negative. *)
Definition toString (n : Z) : string :=
  NilZero.string_of_int (Z.to_int n).

End JSNumber.

(** ** Completions: a call returns normally or throws *)

Inductive Exception :=
| Error (message : string)
| RangeError (code : string).

Inductive Completion (A : Type) :=
| Normal (a : A)
| Throw (e : Exception).

Arguments Normal {A} a.
Arguments Throw {A} e.

Definition bind {A B : Type} (c : Completion A) (k : A -> Completion B)
  : Completion B :=
  match c with
  | Normal a => k a
  | Throw e => Throw e
  end.

Notation "x <- c ;; k" := (bind c (fun x => k))
  (at level 61, c at next level, right associativity).

(** ** [crypto.randomBytes] and [crypto.timingSafeEqual] *)

(** The entropy source handed to a call is the sequence of bytes the
    generator of the process yields from that call on;
    [crypto.randomBytes n] hands out the first [n] of them. *)
Definition randomBytes (entropy : nat -> byte) (n : nat) : Buffer :=
  map entropy (seq 0 n).

(** A sample entropy source for the worked examples: the bytes 0, 1,
    2, ... *)
Definition counting_entropy (n : nat) : byte := byte_of_Z (Z.of_nat n).

Definition buffer_eqb (a b : Buffer) : bool :=
  if list_eq_dec Byte.byte_eq_dec a b then true else false.

(** [crypto.timingSafeEqual a b] throws a [RangeError] when the two
    buffers differ in byte length. *)
Definition timingSafeEqual (a b : Buffer) : Completion bool :=
  if (List.length a =? List.length b)%nat then Normal (buffer_eqb a b)
  else Throw (RangeError "ERR_CRYPTO_TIMING_SAFE_EQUAL_LENGTH").

(** ** JavaScript values, truthiness, [||] and [split] *)

Inductive Value :=
| Undefined
| Null
| Boolean (b : bool)
| Num (x : JSNumber.t)
| Str (s : string)
| Object.   (* any object or array *)

Definition truthy (v : Value) : bool :=
  match v with
  | Undefined | Null => false
  | Boolean b => b
  | Num JSNumber.NaN => false
  | Num (JSNumber.Finite q) => negb (Qeq_bool q (0 # 1))
  | Num _ => true
  | Str s => negb (String.eqb s "")
  | Object => true
  end.

(** [a || b] *)
Definition or_else (a b : Value) : Value := if truthy a then a else b.

Definition typeof_string (v : Value) : bool :=
  match v with Str _ => true | _ => false end.

(** [s.split(sep)] for a one-character separator. *)
Fixpoint split (sep : ascii) (s : string) : list string :=
  match s with
  | EmptyString => [EmptyString]
  | String c rest =>
      if Ascii.eqb c sep then EmptyString :: split sep rest
      else match split sep rest with
           | field :: fields => String c field :: fields
           | [] => [String c EmptyString]
           end
  end.

(** Whether the code unit [c] occurs in [s]. *)
Fixpoint occurs (c : ascii) (s : string) : bool :=
  match s with
  | EmptyString => false
  | String d rest => Ascii.eqb d c || occurs c rest
  end.

(** An element bound by array destructuring is [undefined] ([None]) when
    the array is too short; [!x] holds of [undefined] and of the empty
    string. *)
Definition falsy (x : option string) : bool :=
  match x with
  | None => true
  | Some s => String.eqb s ""
  end.

(** ** [src/server/index.js] *)

Definition CSRF_TOKEN_EXPIRY_MS : Z := 30 * 60 * 1000.

(** [Date.now()] is a time value: an integer of magnitude at most
    8.64e15, below 2^53, so that adding the expiry to it is exact. *)
Definition MAX_TIME : Z := 8640000000000000.

(** *** Start-up (lines 12-21) *)

Record Env := mkEnv {
  env_NODE_ENV : option string;       (* process.env.NODE_ENV *)
  env_CSRF_SECRET : option string     (* process.env.CSRF_SECRET *)
}.

Definition env_value (x : option string) : Value :=
  match x with
  | Some s => Str s
  | None => Undefined
  end.

Record Process := mkProcess {
  isProduction : bool;
  CSRF_SECRET : string;
  warnings : list string              (* what console.warn received *)
}.

Definition secret_message : string :=
  "CSRF_SECRET is not set; using ephemeral secret (development only).".

Definition startup (env : Env) (entropy : nat -> byte) : Completion Process :=
  let isProduction :=
    match env_NODE_ENV env with
    | Some s => String.eqb s "production"
    | None => false
    end in
  let CSRF_SECRET :=
    match env_CSRF_SECRET env with
    | Some s => if truthy (Str s) then s
                else Hex.encode (randomBytes entropy 32)
    | None => Hex.encode (randomBytes entropy 32)
    end in
  if negb (truthy (env_value (env_CSRF_SECRET env))) then
    let msg := secret_message in
    if isProduction then Throw (Error msg)
    else Normal (mkProcess isProduction CSRF_SECRET [msg])
  else Normal (mkProcess isProduction CSRF_SECRET []).

(** *** Requests and responses *)

Record Body := mkBody {
  _token : Value;                     (* Undefined when the field is missing *)
  csrfToken : Value
}.

Record Request := mkRequest {
  x_csrf_token : option string;       (* req.headers['x-csrf-token'] *)
  body : option Body                  (* req.body; None is undefined *)
}.

(** [req.body?.field] *)
Definition body_field (field : Body -> Value) (req : Request) : Value :=
  match body req with
  | Some b => field b
  | None => Undefined
  end.

(** [res.status(code).json({ error })] *)
Record Response := mkResponse {
  status : Z;
  error : string
}.

Inductive Handled :=
| Next                                (* next() was called *)
| Sent (r : Response).

Definition forbidden : Completion Handled :=
  Normal (Sent (mkResponse 403 "Invalid or missing CSRF token")).

(** *** [verifyCsrfToken] (lines 42-69) *)

(** Lines 43-46: the candidate token. *)
Definition candidate (req : Request) : Value :=
  or_else (or_else (env_value (x_csrf_token req)) (body_field _token req))
          (body_field csrfToken req).

(** Lines 59-61: [signaturesMatch].  The right operand of [&&] runs
    only when the two strings have the same length. *)
Definition signatures_match (signature expectedSignature : string)
  : Completion bool :=
  if (String.length signature =? String.length expectedSignature)%nat
  then timingSafeEqual (Hex.decode signature) (Hex.decode expectedSignature)
  else Normal false.

(** Lines 52-68, for a candidate that is a non-empty string. *)
Definition verify_string (secret : string) (now : Z) (token : string)
  : Completion Handled :=
  let parts := split ":" token in
  let nonce := nth_error parts 0 in
  let expiryStr := nth_error parts 1 in
  let signature := nth_error parts 2 in
  if falsy nonce || falsy expiryStr || falsy signature then forbidden
  else
    match nonce, expiryStr, signature with
    | Some nonce, Some expiryStr, Some signature =>
        let payload := (nonce ++ ":" ++ expiryStr)%string in
        let expectedSignature := hmac_sha256_hex secret payload in
        signaturesMatch <- signatures_match signature expectedSignature ;;
        let expiry := JSNumber.Number expiryStr in
        if negb signaturesMatch || JSNumber.isNaN expiry
           || JSNumber.int_gt now expiry
        then forbidden
        else Normal Next
    | _, _, _ => forbidden            (* excluded by the test above *)
    end.

Definition verifyCsrfToken (secret : string) (now : Z) (req : Request)
  : Completion Handled :=
  let token := candidate req in
  if negb (truthy token) || negb (typeof_string token) then forbidden
  else
    match token with
    | Str token => verify_string secret now token
    | _ => forbidden                  (* excluded by the test above *)
    end.

(** *** [issueCsrfToken] (lines 71-77) *)

Definition issueCsrfToken (secret : string) (now : Z) (entropy : nat -> byte)
  : string :=
  let nonce := Hex.encode (randomBytes entropy 16) in
  let expiresAt := now + CSRF_TOKEN_EXPIRY_MS in
  let payload := (nonce ++ ":" ++ JSNumber.toString expiresAt)%string in
  let signature := hmac_sha256_hex secret payload in
  (payload ++ ":" ++ signature)%string.

(** The three fields of the token [issueCsrfToken] returns. *)
Definition issued_nonce (entropy : nat -> byte) : string :=
  Hex.encode (randomBytes entropy 16).

Definition issued_expiry (now : Z) : string :=
  JSNumber.toString (now + CSRF_TOKEN_EXPIRY_MS).

Definition issued_signature (secret : string) (now : Z)
           (entropy : nat -> byte) : string :=
  hmac_sha256_hex secret (issued_nonce entropy ++ ":" ++ issued_expiry now).

(** ** Strings of any code unit: what a request body can hold

    [express.json()] and [express.urlencoded()] put any JavaScript
    string in [req.body]: the verifier is modelled a second time on
    strings of 16-bit code units, the process secret being one of
    them.  The functions below follow the same lines of
    [src/server/index.js] as their 8-bit namesakes, with which they
    agree on the strings of code units below 256. *)

Module UTF16.

(** A code unit, by its two bytes: U+0165 is [mkUnit "001" "e"]. *)
Record CodeUnit := mkUnit {
  high : ascii;
  low : ascii
}.

Definition code (u : CodeUnit) : Z :=
  256 * code_unit (high u) + code_unit (low u).

Definition unit_eqb (a b : CodeUnit) : bool :=
  Ascii.eqb (high a) (high b) && Ascii.eqb (low a) (low b).

(** A string is the list of its code units, and its [length] the
    length of the list. *)
Definition t := list CodeUnit.

Definition of_ascii (c : ascii) : CodeUnit := mkUnit Ascii.zero c.

Fixpoint of_string (s : string) : t :=
  match s with
  | EmptyString => []
  | String c rest => of_ascii c :: of_string rest
  end.

Definition colon : CodeUnit := of_ascii ":".

(** *** [Hmac.update(s)]: the UTF-8 form of a string.  A surrogate pair
        is one code point; a surrogate without its partner is written
        as U+FFFD. *)

Definition is_high_surrogate (u : CodeUnit) : bool :=
  (55296 <=? code u) && (code u <=? 56319).

Definition is_low_surrogate (u : CodeUnit) : bool :=
  (56320 <=? code u) && (code u <=? 57343).

Definition utf8_code_point (n : Z) : Buffer :=
  if n <? 128 then [byte_of_Z n]
  else if n <? 2048 then
    [byte_of_Z (192 + n / 64); byte_of_Z (128 + n mod 64)]
  else if n <? 65536 then
    [byte_of_Z (224 + n / 4096); byte_of_Z (128 + n / 64 mod 64);
     byte_of_Z (128 + n mod 64)]
  else
    [byte_of_Z (240 + n / 262144); byte_of_Z (128 + n / 4096 mod 64);
     byte_of_Z (128 + n / 64 mod 64); byte_of_Z (128 + n mod 64)].

Definition replacement : Buffer := utf8_code_point 65533.

Fixpoint utf8 (s : t) : Buffer :=
  match s with
  | [] => []
  | u :: rest =>
      if is_high_surrogate u then
        match rest with
        | v :: rest' =>
            if is_low_surrogate v
            then utf8_code_point
                   (65536 + (code u - 55296) * 1024 + (code v - 56320))
                 ++ utf8 rest'
            else replacement ++ utf8 rest
        | [] => replacement
        end
      else if is_low_surrogate u then replacement ++ utf8 rest
      else utf8_code_point (code u) ++ utf8 rest
  end.

(** [crypto.createHmac('sha256', key).update(payload).digest('hex')]:
    the key and the payload go through the same encoding. *)
Definition hmac_sha256_hex (key payload : t) : string :=
  Hex.encode (SHA256.hmac (utf8 key) (utf8 payload)).

(** *** [Buffer.from(s, 'hex')]: Node's decoder looks a code unit up
        through [unhex(uint8_t)], which keeps its low byte. *)

Fixpoint low_bytes (s : t) : string :=
  match s with
  | [] => EmptyString
  | u :: rest => String (low u) (low_bytes rest)
  end.

Definition hex_decode (s : t) : Buffer := Hex.decode (low_bytes s).

(** *** [Number(s)]: above 255 a code unit is white space, trimmed
        like a space, or a code unit that no numeric literal holds. *)

Definition is_white_space (u : CodeUnit) : bool :=
  let n := code u in
  (n =? 5760) || ((8192 <=? n) && (n <=? 8202)) || (n =? 8232)
  || (n =? 8233) || (n =? 8239) || (n =? 8287) || (n =? 12288)
  || (n =? 65279).

Definition numeric_unit (u : CodeUnit) : ascii :=
  if code u <? 256 then low u
  else if is_white_space u then " "%char
  else "255"%char.

Fixpoint numeric_units (s : t) : string :=
  match s with
  | [] => EmptyString
  | u :: rest => String (numeric_unit u) (numeric_units rest)
  end.

Definition Number (s : t) : JSNumber.t := JSNumber.Number (numeric_units s).

(** *** Values, [||] and [split] *)

Inductive Value :=
| Undefined
| Null
| Boolean (b : bool)
| Num (x : JSNumber.t)
| Str (s : t)
| Object.

Definition truthy (v : Value) : bool :=
  match v with
  | Undefined | Null => false
  | Boolean b => b
  | Num JSNumber.NaN => false
  | Num (JSNumber.Finite q) => negb (Qeq_bool q (0 # 1))
  | Num _ => true
  | Str s => negb (List.length s =? 0)%nat
  | Object => true
  end.

Definition or_else (a b : Value) : Value := if truthy a then a else b.

Definition typeof_string (v : Value) : bool :=
  match v with Str _ => true | _ => false end.

Fixpoint split (sep : CodeUnit) (s : t) : list t :=
  match s with
  | [] => [[]]
  | u :: rest =>
      if unit_eqb u sep then [] :: split sep rest
      else match split sep rest with
           | field :: fields => (u :: field) :: fields
           | [] => [[u]]
           end
  end.

Fixpoint occurs (c : CodeUnit) (s : t) : bool :=
  match s with
  | [] => false
  | u :: rest => unit_eqb u c || occurs c rest
  end.

Definition falsy (x : option t) : bool :=
  match x with
  | None => true
  | Some s => (List.length s =? 0)%nat
  end.

(** *** Requests *)

Record Body := mkBody {
  _token : Value;
  csrfToken : Value
}.

(** A header value is a string of code units below 256. *)
Record Request := mkRequest {
  x_csrf_token : option string;
  body : option Body
}.

Definition header_value (x : option string) : Value :=
  match x with
  | Some s => Str (of_string s)
  | None => Undefined
  end.

Definition body_field (field : Body -> Value) (req : Request) : Value :=
  match body req with
  | Some b => field b
  | None => Undefined
  end.

(** *** [verifyCsrfToken] (lines 42-69) *)

Definition candidate (req : Request) : Value :=
  or_else (or_else (header_value (x_csrf_token req)) (body_field _token req))
          (body_field csrfToken req).

Definition signatures_match (signature : t) (expectedSignature : string)
  : Completion bool :=
  if (List.length signature =? String.length expectedSignature)%nat
  then timingSafeEqual (hex_decode signature) (Hex.decode expectedSignature)
  else Normal false.

Definition verify_string (secret : t) (now : Z) (token : t)
  : Completion Handled :=
  let parts := split colon token in
  let nonce := nth_error parts 0 in
  let expiryStr := nth_error parts 1 in
  let signature := nth_error parts 2 in
  if falsy nonce || falsy expiryStr || falsy signature then forbidden
  else
    match nonce, expiryStr, signature with
    | Some nonce, Some expiryStr, Some signature =>
        let payload := (nonce ++ colon :: expiryStr)%list in
        let expectedSignature := hmac_sha256_hex secret payload in
        signaturesMatch <- signatures_match signature expectedSignature ;;
        let expiry := Number expiryStr in
        if negb signaturesMatch || JSNumber.isNaN expiry
           || JSNumber.int_gt now expiry
        then forbidden
        else Normal Next
    | _, _, _ => forbidden            (* excluded by the test above *)
    end.

Definition verifyCsrfToken (secret : t) (now : Z) (req : Request)
  : Completion Handled :=
  let token := candidate req in
  if negb (truthy token) || negb (typeof_string token) then forbidden
  else
    match token with
    | Str token => verify_string secret now token
    | _ => forbidden                  (* excluded by the test above *)
    end.

(** *** [issueCsrfToken] (lines 71-77) *)

Definition issueCsrfToken (secret : t) (now : Z) (entropy : nat -> byte)
  : t :=
  let nonce := Hex.encode (randomBytes entropy 16) in
  let expiresAt := now + CSRF_TOKEN_EXPIRY_MS in
  let payload :=
    of_string (nonce ++ ":" ++ JSNumber.toString expiresAt)%string in
  let signature := hmac_sha256_hex secret payload in
  (payload ++ colon :: of_string signature)%list.

End UTF16.

(** A value, a body and a request of the 8-bit model, as they are in
    the 16-bit one. *)
Definition widen_value (v : Value) : UTF16.Value :=
  match v with
  | Undefined => UTF16.Undefined
  | Null => UTF16.Null
  | Boolean b => UTF16.Boolean b
  | Num x => UTF16.Num x
  | Str s => UTF16.Str (UTF16.of_string s)
  | Object => UTF16.Object
  end.

Definition widen_request (req : Request) : UTF16.Request :=
  UTF16.mkRequest (x_csrf_token req)
    (match body req with
     | Some b => Some (UTF16.mkBody (widen_value (_token b))
                                    (widen_value (csrfToken b)))
     | None => None
     end).

(** ** [src/assets/js/email-config.js]: the client rate limiter *)

Module rateLimit.

Record State := mkState {
  attempts : Z;
  lastAttempt : Z
}.

(** The object literal: [attempts: 0, lastAttempt: 0]. *)
Definition initial : State := mkState 0 0.

(** Lines 118-121: the window reset. *)
Definition reset_fires (now : Z) (this : State) : bool :=
  60000 <? now - lastAttempt this.

Definition window_reset (now : Z) (this : State) : State :=
  if reset_fires now this then mkState 0 now else this.

Record Outcome := mkOutcome {
  returned : bool;
  alerted : option string;          (* the argument of alert(), if called *)
  after : State
}.

(** The message, kept as the bytes of its UTF-8 form. *)
Definition too_many : string :=
  "Quá nhiều yêu cầu. Vui lòng thử lại sau 1 phút.".

(** [check()], called when [Date.now()] is [now]. *)
Definition check (now : Z) (this : State) : Outcome :=
  let this := window_reset now this in
  if 5 <=? attempts this then mkOutcome false (Some too_many) this
  else mkOutcome true None (mkState (attempts this + 1) now).

(** A sequence of calls at the given times: what each returned and
    the final counter. *)
Fixpoint run (times : list Z) (this : State) : list bool * State :=
  match times with
  | [] => ([], this)
  | now :: later =>
      let o := check now this in
      let (rs, final) := run later (after o) in
      (returned o :: rs, final)
  end.

(** The time of the last call that returned [true], [before] when
    there is none. *)
Fixpoint last_allowed (times : list Z) (results : list bool) (before : Z)
  : Z :=
  match times, results with
  | now :: later, r :: rs => last_allowed later rs (if r then now else before)
  | _, _ => before
  end.

(** Follows the spec's words, not the source: the counter together
    with [windowStart], "the time of the first recorded attempt of the
    window".  A window starts when the reset fires or when the first
    attempt of a fresh counter is recorded. *)
Record Tracked := mkTracked {
  counter : State;
  windowStart : Z
}.

Definition tracked_initial : Tracked := mkTracked initial 0.

Definition tracked_check (now : Z) (t : Tracked) : Tracked :=
  let o := check now (counter t) in
  if reset_fires now (counter t) || (attempts (counter t) =? 0)
  then mkTracked (after o) now
  else mkTracked (after o) (windowStart t).

Definition tracked_run (times : list Z) (t : Tracked) : Tracked :=
  fold_left (fun t now => tracked_check now t) times t.

End rateLimit.

(** ** More of the language: [replace] with a character class,
       [match] counting, [padStart], [parseInt] and [parseFloat] *)

(** [s.replace(/[^...]/g, '')] keeps the code units of the class. *)
Fixpoint keep_chars (keep : ascii -> bool) (s : string) : string :=
  match s with
  | EmptyString => EmptyString
  | String c rest =>
      if keep c then String c (keep_chars keep rest) else keep_chars keep rest
  end.

(** [(s.match(/c/g) || []).length] for one code unit [c]. *)
Fixpoint count_char (c : ascii) (s : string) : nat :=
  match s with
  | EmptyString => O
  | String d rest =>
      if Ascii.eqb d c then S (count_char c rest) else count_char c rest
  end.

Fixpoint repeat_char (c : ascii) (n : nat) : string :=
  match n with
  | O => EmptyString
  | S n' => String c (repeat_char c n')
  end.

(** [s.padStart(targetLength, c)] for a one-character filler. *)
Definition padStart (targetLength : nat) (c : ascii) (s : string) : string :=
  (repeat_char c (targetLength - String.length s) ++ s)%string.

(** [s.trim()] removes the white space [Number] skips. *)
Definition trim (s : string) : string :=
  JSNumber.trim_right (JSNumber.trim_left s).

(** [parseInt(s, 10)]: leading white space, an optional sign, then the
    longest run of decimal digits; [NaN] when there is none. *)
Definition parseInt10 (s : string) : JSNumber.t :=
  let (neg, s1) := JSNumber.sign (JSNumber.trim_left s) in
  let '(v, count, _) := JSNumber.scan 10 s1 0 0 in
  if count =? 0 then JSNumber.NaN else JSNumber.round_decimal neg v 0.

(** The exponent [parseFloat] reads after the digits: an [e] that is
    not followed by digits is left unread. *)
Definition float_exponent (s : string) : Z :=
  match s with
  | String c rest =>
      if JSNumber.is_char c "eE" then
        let (eneg, s1) := JSNumber.sign rest in
        let '(ev, ec, _) := JSNumber.scan 10 s1 0 0 in
        if ec =? 0 then 0 else if eneg then - ev else ev
      else 0
  | EmptyString => 0
  end.

(** [parseFloat(s)]: the longest prefix that is a decimal literal. *)
Definition parseFloat (s : string) : JSNumber.t :=
  let (neg, s1) := JSNumber.sign (JSNumber.trim_left s) in
  if String.prefix "Infinity" s1 then
    if neg then JSNumber.NegInfinity else JSNumber.PosInfinity
  else
    let '(iv, ic, s2) := JSNumber.scan 10 s1 0 0 in
    let '(fv, fc, s3) :=
      match s2 with
      | String c rest => if JSNumber.is_char c "." then JSNumber.scan 10 rest iv 0
                         else (iv, 0, s2)
      | EmptyString => (iv, 0, s2)
      end in
    if ic + fc =? 0 then JSNumber.NaN
    else JSNumber.round_decimal neg fv (float_exponent s3 - fc).

(** [x <= n] and [x >= n] for an integer [n]; false when [x] is [NaN]. *)
Definition num_le_int (x : JSNumber.t) (n : Z) : bool :=
  match x with
  | JSNumber.NaN => false
  | JSNumber.PosInfinity => false
  | JSNumber.NegInfinity => true
  | JSNumber.Finite q => Qle_bool q (n # 1)
  end.

Definition num_ge_int (x : JSNumber.t) (n : Z) : bool :=
  match x with
  | JSNumber.NaN => false
  | JSNumber.PosInfinity => true
  | JSNumber.NegInfinity => false
  | JSNumber.Finite q => Qle_bool (n # 1) q
  end.

(** [x < n] for an integer [n]; false when [x] is [NaN]. *)
Definition num_lt_int (x : JSNumber.t) (n : Z) : bool :=
  match x with
  | JSNumber.NaN => false
  | JSNumber.PosInfinity => false
  | JSNumber.NegInfinity => true
  | JSNumber.Finite q => negb (Qle_bool (n # 1) q)
  end.

(** [x / d] for a positive integer constant [d]: the quotient rounded
    to the nearest double. *)
Definition divide_by (x : JSNumber.t) (d : positive) : JSNumber.t :=
  match x with
  | JSNumber.Finite q =>
      if Qnum q =? 0 then x
      else if 0 <? Qnum q
           then JSNumber.round_pos false (Qnum q) (Z.pos (Qden q * d))
           else JSNumber.round_pos true (- Qnum q) (Z.pos (Qden q * d))
  | _ => x
  end.

(** [n.toLocaleString('vi-VN')] on an integer: the decimal digits in
    groups of three from the right, separated by full stops
    ([tests/setup.js] expects '1.000.000' and '123.456'). *)
Fixpoint group_digits (s : string) : string :=
  match s with
  | EmptyString => EmptyString
  | String c rest =>
      if negb (String.length rest =? 0)%nat
         && (String.length rest mod 3 =? 0)%nat
      then String c (String "." (group_digits rest))
      else String c (group_digits rest)
  end.

Definition vi_VN_integer (n : Z) : string :=
  if n <? 0 then String "-" (group_digits (JSNumber.toString (- n)))
  else group_digits (JSNumber.toString n).

(** What is asked of [toLocaleString('vi-VN')], which belongs to the
    platform: on the integers a double holds exactly it prints
    [vi_VN_integer]. *)
Definition vi_VN_on_integers (toLocaleString : JSNumber.t -> string) : Prop :=
  forall n : Z, 0 <= n < 2 ^ 53 ->
    toLocaleString (JSNumber.of_Z n) = vi_VN_integer n.

(** A formatter that meets it, for the worked examples; what it prints
    for a number that is not an integer plays no part. *)
Definition sample_vi_VN (x : JSNumber.t) : string :=
  match x with
  | JSNumber.Finite q =>
      if (Z.pos (Qden q) =? 1) then vi_VN_integer (Qnum q) else EmptyString
  | _ => EmptyString
  end.

(** ** [src/assets/js/utils.js] *)

Module utils.

(** The values the helpers are called with.  An object is left out:
    [String(value)] would run its own [toString]. *)
Inductive Scalar :=
| SNull
| SUndefined
| SBool (b : bool)
| SNum (x : JSNumber.t)
| SStr (s : string).

Definition UINT32_RANGE : Z := 2 ^ 32.

(** The generator [secureRandomInt] finds: Node's [crypto.randomInt]
    (which returns an integer of the range asked for), the browser's
    [crypto.getRandomValues] (the successive contents it writes, read
    through a [Uint32Array]), or only [Math.random] (a double in
    [0, 1)). *)
Inductive Generator :=
| NodeCrypto (randomInt : Z -> Z -> Z)
| BrowserCrypto (getRandomValues : nat -> Z)
| MathRandom (random : Q).

(** Lines 29-32: draws until a value below [limit] comes; [None] when
    the loop is still running after [fuel] draws. *)
Fixpoint draw_below (limit : Z) (getRandomValues : nat -> Z)
         (fuel i : nat) : option Z :=
  match fuel with
  | O => None
  | S fuel' =>
      let rand := getRandomValues i mod 2 ^ 32 in
      if limit <=? rand then draw_below limit getRandomValues fuel' (S i)
      else Some rand
  end.

(** [secureRandomInt(maxExclusive)] for an integer argument. *)
Definition secureRandomInt (g : Generator) (fuel : nat) (maxExclusive : Z)
  : option Z :=
  if (maxExclusive =? 0) || (maxExclusive <=? 0) then Some 0
  else
    match g with
    | NodeCrypto randomInt => Some (randomInt 0 maxExclusive)
    | BrowserCrypto getRandomValues =>
        let limit := UINT32_RANGE / maxExclusive * maxExclusive in
        match draw_below limit getRandomValues fuel 0 with
        | Some rand => Some (rand mod maxExclusive)
        | None => None
        end
    | MathRandom random =>
        (* Math.floor of the rounded product *)
        if Qnum random =? 0 then Some 0
        else
          match JSNumber.round_pos false (Qnum random * maxExclusive)
                  (Z.pos (Qden random)) with
          | JSNumber.Finite q => Some (Qnum q / Z.pos (Qden q))
          | _ => None                 (* not reached: the product is finite *)
          end
    end.

(** [toNumeric(value)] *)
Definition is_numeric_char (c : ascii) : bool :=
  JSNumber.is_decimal_digit c || JSNumber.is_char c ".-".

Definition is_integer_char (c : ascii) : bool :=
  JSNumber.is_decimal_digit c || JSNumber.is_char c "-".

Definition String_of (value : Scalar) : string :=
  match value with
  | SNull => "null"
  | SUndefined => "undefined"
  | SBool true => "true"
  | SBool false => "false"
  | SNum _ => EmptyString             (* not reached: numbers return early *)
  | SStr s => s
  end.

Definition toNumeric (value : Scalar) : JSNumber.t :=
  match value with
  | SNull | SUndefined => JSNumber.NaN
  | SNum x => if JSNumber.is_finite x then x else JSNumber.NaN
  | _ =>
      let raw := keep_chars (fun c => negb (Ascii.eqb c ","))
                   (trim (String_of value)) in
      let dotCount := count_char "." raw in
      let numeric :=
        if (dotCount =? 1)%nat
        then parseFloat (keep_chars is_numeric_char raw)
        else parseInt10 (keep_chars is_integer_char raw) in
      if JSNumber.isNaN numeric then JSNumber.NaN else numeric
  end.

(** [formatNumber(value)]; the platform's [toLocaleString('vi-VN')] is
    an argument. *)
Definition formatNumber (toLocaleString : JSNumber.t -> string)
           (value : Scalar) : string :=
  let numeric := toNumeric value in
  if JSNumber.isNaN numeric then EmptyString else toLocaleString numeric.

(** [!value] for a scalar. *)
Definition falsy_scalar (value : Scalar) : bool :=
  match value with
  | SNull | SUndefined => true
  | SBool b => negb b
  | SNum JSNumber.NaN => true
  | SNum (JSNumber.Finite q) => Qnum q =? 0
  | SNum _ => false
  | SStr s => (String.length s =? 0)%nat
  end.

Definition formatNumberInput (toLocaleString : JSNumber.t -> string)
           (value : Scalar) : string :=
  if falsy_scalar value then EmptyString
  else formatNumber toLocaleString value.

Definition unformatNumber (value : Scalar) : JSNumber.t :=
  let numeric := toNumeric value in
  if JSNumber.isNaN numeric then JSNumber.of_Z 0 else numeric.

(** The fields of [new Date()] the helpers read, in local time. *)
Record LocalDate := mkLocalDate {
  getFullYear : Z;
  getMonth : Z;                       (* 0 for January *)
  getDate : Z
}.

Definition pad2 (n : Z) : string := padStart 2 "0" (JSNumber.toString n).

Definition generateContractId (now : LocalDate) (g : Generator) (fuel : nat)
  : option string :=
  let datePart := (JSNumber.toString (getFullYear now)
                   ++ pad2 (getMonth now + 1) ++ pad2 (getDate now))%string in
  match secureRandomInt g fuel 1000000 with
  | Some randomPart =>
      Some ("SHB-" ++ datePart ++ "-"
            ++ padStart 6 "0" (JSNumber.toString randomPart))%string
  | None => None
  end.

Definition generateRandomCode (g : Generator) (fuel : nat) : option string :=
  match secureRandomInt g fuel 1000000 with
  | Some code => Some (padStart 6 "0" (JSNumber.toString code))
  | None => None
  end.

Definition getCurrentDate (now : LocalDate) : string :=
  (pad2 (getDate now) ++ "/" ++ pad2 (getMonth now + 1) ++ "/"
   ++ JSNumber.toString (getFullYear now))%string.

Record DateComponents := mkDateComponents {
  day : string;
  month : string;
  year : string
}.

(** A destructured element with the default [''] . *)
Definition or_empty (x : option string) : string :=
  match x with
  | Some s => s
  | None => EmptyString
  end.

Definition getDateComponents (dateString : Value) : DateComponents :=
  if negb (truthy dateString) || negb (typeof_string dateString)
  then mkDateComponents "" "" ""
  else
    match dateString with
    | Str dateString =>
        let parts := split "/" dateString in
        let day := or_empty (nth_error parts 0) in
        let month := or_empty (nth_error parts 1) in
        let year := or_empty (nth_error parts 2) in
        if (String.length day =? 0)%nat || (String.length month =? 0)%nat
           || (String.length year =? 0)%nat
        then mkDateComponents "" "" ""
        else mkDateComponents day month year
    | _ => mkDateComponents "" "" ""  (* excluded by the test above *)
    end.

(** [calculateInterestRate(amount)]: [''] is [None]. *)
Definition INTEREST_RATE_THRESHOLDS : list (Z * Q) :=
  [(200000000, 10 # 1); (100000000, 11 # 1); (50000000, 23 # 2)].

Definition calculateInterestRate (amount : Scalar) : option Q :=
  let numeric := toNumeric amount in
  if JSNumber.isNaN numeric || num_le_int numeric 0 then None
  else
    match find (fun t => num_ge_int numeric (fst t)) INTEREST_RATE_THRESHOLDS
    with
    | Some t => Some (snd t)
    | None => Some (12 # 1)
    end.

End utils.

(** ** [src/assets/js/config.js]: [generateSessionKey] *)

Module config.

(** [n.toString(16)] for a non-negative integer. *)
Fixpoint toString16_fuel (fuel : nat) (n : Z) : string :=
  match fuel with
  | O => EmptyString
  | S fuel' =>
      if n <? 16 then String (Hex.digit n) EmptyString
      else (toString16_fuel fuel' (n / 16)
            ++ String (Hex.digit (n mod 16)) EmptyString)%string
  end.

Definition toString16 (n : Z) : string :=
  toString16_fuel (S (Z.to_nat (Z.log2 n))) n.

(** [Array.from(array, byte => byte.toString(16).padStart(2, '0'))
    .join('')] *)
Fixpoint join_bytes (array : Buffer) : string :=
  match array with
  | [] => EmptyString
  | b :: rest =>
      (padStart 2 "0" (toString16 (byte_to_Z b)) ++ join_bytes rest)%string
  end.

(** Where the key comes from: [window.crypto.getRandomValues], else
    Node's [crypto.randomBytes], else the clock and [Math.random] (of
    which the hexadecimal digits after the point are given). *)
Inductive Platform :=
| Browser (entropy : nat -> byte)
| Node (entropy : nat -> byte)
| Neither (now : Z) (random : string).

Record Generated := mkGenerated {
  key : string;
  warned : list string
}.

Definition generateSessionKey (p : Platform) : Generated :=
  match p with
  | Browser entropy => mkGenerated (join_bytes (randomBytes entropy 32)) []
  | Node entropy => mkGenerated (Hex.encode (randomBytes entropy 32)) []
  | Neither now random =>
      let timestamp := toString16 now in
      mkGenerated
        (String.substring 0 64 (timestamp ++ random ++ random ++ random))
        ["Using fallback key generation - not suitable for production"%string]
  end.

(** [isSessionValid()], called when [Date.now()] is [now], with the
    fields [sessionStart] and [config.security.sessionTimeout] it
    reads; the times are integers a double holds exactly. *)
Definition isSessionValid (now sessionStart sessionTimeout : Z) : bool :=
  let elapsed :=
    divide_by (divide_by (JSNumber.of_Z (now - sessionStart)) 1000) 60 in
  num_lt_int elapsed sessionTimeout.

(** The test of [validate]: [/^[0-9a-f]{64}$/i]. *)
Definition key_format_ok (encryptionKey : string) : bool :=
  (String.length encryptionKey =? 64)%nat && Hex.all_hex encryptionKey.

End config.

(** ** [src/assets/js/email-config.js]: the other helpers *)

Module shared.

Definition provinceCodes : list string :=
  ["001"; "002"; "004"; "006"; "008"; "010"; "011"; "012"; "014"; "015";
   "017"; "019"; "020"; "022"; "024"; "025"; "026"; "027"; "030"; "031";
   "033"; "034"; "035"; "036"; "037"; "038"; "040"; "042"; "044"; "045";
   "046"; "048"; "049"; "051"; "052"; "054"; "056"; "058"; "060"; "062";
   "064"; "066"; "067"; "068"; "070"; "072"; "074"; "075"; "077"; "079";
   "080"; "082"; "083"; "084"; "086"; "087"; "089"; "091"; "092"; "093";
   "094"; "095"; "096"]%string.

(** [validateIdNumber(idNumber)] for a string: [/^\d{12}$/] and the
    province prefix. *)
Definition validateIdNumber (idNumber : string) : bool :=
  ((String.length idNumber =? 12)%nat
   && JSNumber.all_decimal_digits idNumber)
  && existsb (String.eqb (String.substring 0 3 idNumber)) provinceCodes.

(** [formatNumber(input)]: a DOM element has its [value] rewritten and
    nothing is returned; anything else goes to [window.formatNumber]
    when that is a function. *)
Inductive Input :=
| Element (value : string)
| Plain (value : utils.Scalar).

Record Formatted := mkFormatted {
  element_value : option string;      (* the new [input.value] *)
  result : option string              (* what is returned *)
}.

Definition formatNumber (toLocaleString : JSNumber.t -> string)
           (window_formatNumber : option (utils.Scalar -> string))
           (input : Input) : Formatted :=
  match input with
  | Element value =>
      let value := keep_chars JSNumber.is_decimal_digit value in
      let numericValue := parseInt10 value in
      if negb (JSNumber.isNaN numericValue)
      then mkFormatted (Some (toLocaleString numericValue)) None
      else mkFormatted (Some EmptyString) None
  | Plain value =>
      match window_formatNumber with
      | Some f => mkFormatted None (Some (f value))
      | None => mkFormatted None None
      end
  end.

(** The mock backend: the applications in memory and what was last
    handed to [localStorage] (the JSON text that went through
    [CryptoJS.AES.encrypt], with the key used). *)
Section Backend.
Variable Data : Type.

Record Application := mkApplication {
  data : Data;
  timestamp : option Z                (* None: no timestamp *)
}.

Record Stored := mkStored {
  plaintext : list Application;
  encryptionKey : string
}.

Record Backend := mkBackend {
  applications : list Application;
  loanApplications : option Stored    (* the localStorage item *)
}.

(** [config.get('security.encryptionKey')] and
    [config.get('security.sessionTimeout')], in minutes. *)
Record Security := mkSecurity {
  security_encryptionKey : string;
  security_sessionTimeout : Z
}.


(** [app.timestamp && (now - app.timestamp) < sessionTimeout]: a
    timestamp of 0 is falsy. *)
Definition unexpired (sessionTimeout now : Z) (app : Application) : bool :=
  match timestamp app with
  | Some t => negb (t =? 0) && (now - t <? sessionTimeout)
  | None => false
  end.

Definition clearExpiredSessions (cfg : Security) (now : Z) (this : Backend)
  : Backend :=
  let sessionTimeout := security_sessionTimeout cfg * 60 * 1000 in
  let applications := filter (unexpired sessionTimeout now)
                        (applications this) in
  mkBackend applications
    (Some (mkStored applications (security_encryptionKey cfg))).

End Backend.

End shared.

(** A decimal numeral that starts with a digit other than zero. *)
Definition leading_nonzero (d : Decimal.uint) : Prop :=
  match d with
  | Decimal.Nil | Decimal.D0 _ => False
  | _ => True
  end.

(** Every code unit of [s] is in the class [P]. *)
Fixpoint every_char (P : ascii -> bool) (s : string) : bool :=
  match s with
  | EmptyString => true
  | String c rest => P c && every_char P rest
  end.

(** The code units [trim] leaves in place. *)
Definition not_space (c : ascii) : bool := negb (JSNumber.is_white_space c).

(** The number of [v] in [0, n) of which [P] holds. *)
Fixpoint count_below (P : Z -> bool) (n : nat) : nat :=
  match n with
  | O => O
  | S n' => (if P (Z.of_nat n') then 1 else 0) + count_below P n'
  end.

(* ================================================================== *)
(** * Part II: lemmas and theorems *)
(* ================================================================== *)

(** ** The model of [crypto] against published test vectors *)

Example sha256_abc :
  Hex.encode (SHA256.digest (utf8_encode "abc")) =
  "ba7816bf8f01cfea414140de5dae2223b00361a396177a9cb410ff61f20015ad"%string.
Proof. vm_compute. reflexivity. Qed.

Example sha256_two_blocks :
  Hex.encode (SHA256.digest (utf8_encode
    "abcdbcdecdefdefgefghfghighijhijkijkljklmklmnlmnomnopnopq")) =
  "248d6a61d20638b8e5c026930c3e6039a33ce45964ff2167f6ecedd419db06c1"%string.
Proof. vm_compute. reflexivity. Qed.

Example hmac_rfc4231_case2 :
  hmac_sha256_hex "Jefe" "what do ya want for nothing?" =
  "5bdcc146bf60754e6a042426089575c75a003f089d2739839dec58b964ec3843"%string.
Proof. vm_compute. reflexivity. Qed.

(** ** [Number] and [split] on sample inputs *)

Example Number_samples :
  map JSNumber.Number
    ["1700001800000"; " 12 "; ""; "0x1F"; "-0x10"; "1e3"; "1.5"; ".5e1";
     "12px"; "1e"; "."; "Infinity"; "-Infinity"; "infinity"; "1e400";
     "9007199254740993"]%string =
  [JSNumber.of_Z 1700001800000; JSNumber.of_Z 12; JSNumber.of_Z 0;
   JSNumber.of_Z 31; JSNumber.NaN; JSNumber.of_Z 1000;
   JSNumber.Finite (3 # 2); JSNumber.of_Z 5;
   JSNumber.NaN; JSNumber.NaN; JSNumber.NaN; JSNumber.PosInfinity;
   JSNumber.NegInfinity; JSNumber.NaN; JSNumber.PosInfinity;
   JSNumber.of_Z 9007199254740992].
Proof. vm_compute. reflexivity. Qed.

Example split_samples :
  map (split ":") ["a:b::c:"; ""; "abc"; ":"]%string =
  [["a"; "b"; ""; "c"; ""]; [""]; ["abc"]; [""; ""]]%string.
Proof. reflexivity. Qed.

(** ** Bytes and code units *)

Ltac each_ascii c := destruct c as [[] [] [] [] [] [] [] []].

Lemma byte_of_to (b : byte) : byte_of_Z (byte_to_Z b) = b.
Proof. destruct b; reflexivity. Qed.

Lemma byte_to_of (z : Z) : 0 <= z < 256 -> byte_to_Z (byte_of_Z z) = z.
Proof.
  intros Hz. unfold byte_to_Z, byte_of_Z.
  rewrite Z.mod_small by lia.
  destruct (Byte.of_N (Z.to_N z)) as [b|] eqn:E.
  - apply Byte.to_of_N in E. rewrite E. lia.
  - apply Byte.of_N_None_iff in E. lia.
Qed.

Lemma byte_to_Z_range (b : byte) : 0 <= byte_to_Z b < 256.
Proof. destruct b; vm_compute; split; congruence. Qed.

(** ** Hexadecimal *)

Module HexFacts.
Import Hex.

(** Case analysis on a number known to lie in 0..15. *)
Ltac nibble_cases n H :=
  let k := fresh "k" in
  let Hk := fresh "Hk" in
  rewrite <- (Z2Nat.id n) by apply H;
  assert (Hk : (Z.to_nat n < 16)%nat) by lia;
  revert Hk; generalize (Z.to_nat n); intros k Hk;
  do 16 (destruct k as [|k]; [reflexivity|]); lia.

Lemma unhex_lower (c : ascii) : unhex (lower_unit c) = unhex c.
Proof. each_ascii c; reflexivity. Qed.

Lemma unhex_digit (n : Z) : 0 <= n < 16 -> unhex (digit n) = Some n.
Proof.
  intros H. nibble_cases n H.
Qed.

Lemma ascii_of_code_unit (c : ascii) : ascii_of_Z (code_unit c) = c.
Proof.
  unfold ascii_of_Z, code_unit. rewrite N2Z.id. apply ascii_N_embedding.
Qed.

Lemma code_unit_range (c : ascii) : 0 <= code_unit c < 256.
Proof.
  unfold code_unit. pose proof (N_ascii_bounded c). lia.
Qed.

Lemma unhex_Some (c : ascii) (v : Z) :
  unhex c = Some v -> 0 <= v < 16 /\ lower_unit c = digit v.
Proof.
  unfold unhex, lower_unit, digit.
  pose proof (ascii_of_code_unit c) as Hc. revert Hc.
  generalize (code_unit c) as n. intros n Hc.
  destruct (Z.leb_spec 48 n), (Z.leb_spec n 57), (Z.leb_spec 97 n),
    (Z.leb_spec n 102), (Z.leb_spec 65 n), (Z.leb_spec n 70),
    (Z.leb_spec n 90); cbn [andb]; intros E; try discriminate E; try lia;
    injection E as <-;
    (split; [lia|]);
    destruct (Z.ltb_spec (n - 48) 10), (Z.ltb_spec (n - 87) 10),
      (Z.ltb_spec (n - 55) 10); try lia;
    rewrite <- ?Hc; f_equal; lia.
Qed.

Lemma length_encode (bs : Buffer) :
  String.length (encode bs) = (2 * List.length bs)%nat.
Proof.
  induction bs as [|b bs IH]; [reflexivity|].
  cbn [encode encode_byte String.length List.length]. rewrite IH. lia.
Qed.

Lemma nibbles (b : byte) :
  0 <= byte_to_Z b / 16 < 16 /\ 0 <= byte_to_Z b mod 16 < 16.
Proof.
  pose proof (byte_to_Z_range b) as Rb. split.
  - split; [apply Z.div_pos; lia | apply Z.div_lt_upper_bound; lia].
  - apply Z.mod_pos_bound. lia.
Qed.

Lemma decode_encode (bs : Buffer) : decode (encode bs) = bs.
Proof.
  induction bs as [|b bs IH]; [reflexivity|].
  destruct (nibbles b) as [Hhi Hlo].
  cbn [encode encode_byte decode].
  rewrite (unhex_digit _ Hhi), (unhex_digit _ Hlo), IH.
  rewrite <- Z.div_mod by lia. rewrite byte_of_to. reflexivity.
Qed.

Lemma lower_hex_digit (n : Z) : 0 <= n < 16 -> is_lower_hex_unit (digit n) = true.
Proof.
  intros H. nibble_cases n H.
Qed.

Lemma all_lower_hex_encode (bs : Buffer) : all_lower_hex (encode bs) = true.
Proof.
  induction bs as [|b bs IH]; [reflexivity|].
  destruct (nibbles b) as [Hhi Hlo].
  cbn [encode encode_byte all_lower_hex].
  rewrite (lower_hex_digit _ Hhi), (lower_hex_digit _ Hlo), IH. reflexivity.
Qed.

Lemma lower_hex_not_colon (c : ascii) :
  is_lower_hex_unit c = true -> Ascii.eqb c ":" = false.
Proof.
  intros H. destruct (Ascii.eqb_spec c ":") as [->|]; [discriminate H | reflexivity].
Qed.

Lemma all_lower_hex_no_colon (s : string) :
  all_lower_hex s = true -> occurs ":" s = false.
Proof.
  induction s as [|c s IH]; simpl; [reflexivity|].
  intros H. apply andb_true_iff in H as [Hc Hs].
  rewrite (lower_hex_not_colon c Hc), (IH Hs). reflexivity.
Qed.

(** A string of twice as many code units as [bs] has bytes decodes to
    [bs] exactly when it is the hexadecimal form of [bs] up to the case
    of its letters. *)
Lemma lower_of_decode (bs : Buffer) : forall s : string,
  String.length s = (2 * List.length bs)%nat ->
  decode s = bs -> lower s = encode bs.
Proof.
  induction bs as [|b bs IH]; intros s Hlen Hdec.
  - destruct s; [reflexivity | discriminate Hlen].
  - destruct s as [|a [|c rest]]; try (cbn [String.length List.length] in Hlen; lia).
    cbn [decode] in Hdec.
    destruct (unhex a) as [hi|] eqn:Ea; [|discriminate Hdec].
    destruct (unhex c) as [lo|] eqn:Ec; [|discriminate Hdec].
    remember (16 * hi + lo) as v eqn:Hv.
    injection Hdec as Hb Hrest.
    apply unhex_Some in Ea as [Rhi La], Ec as [Rlo Lc].
    cbn [String.length List.length] in Hlen.
    cbn [lower encode]. unfold encode_byte.
    rewrite <- Hb, byte_to_of by lia.
    replace (v / 16) with hi
      by (apply Z.div_unique with lo; lia).
    replace (v mod 16) with lo
      by (apply Z.mod_unique with hi; lia).
    rewrite La, Lc, (IH rest); [reflexivity | lia | exact Hrest].
Qed.

Lemma decode_of_lower (bs : Buffer) : forall s : string,
  lower s = encode bs -> decode s = bs.
Proof.
  induction bs as [|b bs IH]; intros s H.
  - destruct s; [reflexivity | discriminate H].
  - destruct s as [|a [|c rest]]; try discriminate H.
    cbn [lower encode] in H. unfold encode_byte in H.
    injection H as Ha Hc Hrest.
    destruct (nibbles b) as [Hhi Hlo].
    assert (Ua : unhex a = Some (byte_to_Z b / 16))
      by (rewrite <- unhex_lower, Ha; apply unhex_digit, Hhi).
    assert (Uc : unhex c = Some (byte_to_Z b mod 16))
      by (rewrite <- unhex_lower, Hc; apply unhex_digit, Hlo).
    cbn [decode]. rewrite Ua, Uc, (IH rest Hrest).
    rewrite <- Z.div_mod by lia. rewrite byte_of_to. reflexivity.
Qed.

Lemma length_lower (s : string) : String.length (lower s) = String.length s.
Proof. induction s as [|c s IH]; simpl; [reflexivity | now rewrite IH]. Qed.

(** A string of [2 n] code units decodes to [n] bytes exactly when all
    of them are hexadecimal digits: the decoder stops at the first pair
    that holds another character. *)
Lemma decode_length_all_hex (n : nat) : forall s : string,
  String.length s = (2 * n)%nat ->
  (List.length (decode s) = n <-> all_hex s = true).
Proof.
  induction n as [|n IH]; intros s L.
  - destruct s; [split; reflexivity | discriminate L].
  - destruct s as [|a [|c rest]]; try (cbn [String.length] in L; lia).
    cbn [String.length] in L. cbn [decode all_hex].
    destruct (unhex a); [|split; discriminate].
    destruct (unhex c); [|split; discriminate].
    cbn [List.length]. rewrite <- (IH rest) by lia. lia.
Qed.

End HexFacts.

(** ** SHA-256 and HMAC: the digest has 32 bytes *)

Lemma digest_length (msg : Buffer) : List.length (SHA256.digest msg) = 32%nat.
Proof. reflexivity. Qed.

Lemma hmac_length (key msg : Buffer) : List.length (SHA256.hmac key msg) = 32%nat.
Proof. reflexivity. Qed.

Lemma hmac_hex_length (key payload : string) :
  String.length (hmac_sha256_hex key payload) = 64%nat.
Proof. unfold hmac_sha256_hex. rewrite HexFacts.length_encode, hmac_length. reflexivity. Qed.

Lemma hmac_hex_lower (key payload : string) :
  Hex.all_lower_hex (hmac_sha256_hex key payload) = true.
Proof. apply HexFacts.all_lower_hex_encode. Qed.

(** ** [split] *)

Lemma split_nonempty (sep : ascii) (s : string) : split sep s <> [].
Proof.
  induction s as [|c s IH]; simpl; [discriminate|].
  destruct (Ascii.eqb c sep); [discriminate|].
  destruct (split sep s); [contradiction | discriminate].
Qed.

Lemma split_none (sep : ascii) (s : string) :
  occurs sep s = false -> split sep s = [s].
Proof.
  induction s as [|c s IH]; simpl; [reflexivity|].
  intros H. apply orb_false_iff in H as [Hc Hs].
  rewrite Hc, (IH Hs). reflexivity.
Qed.

Lemma split_field (sep : ascii) (a rest : string) :
  occurs sep a = false ->
  split sep (a ++ String sep rest) = a :: split sep rest.
Proof.
  induction a as [|c a IH]; simpl.
  - intros _. rewrite Ascii.eqb_refl. reflexivity.
  - intros H. apply orb_false_iff in H as [Hc Ha].
    rewrite Hc, (IH Ha). reflexivity.
Qed.

(** ** Numbers: [Number] reads back the decimal form of an integer *)

Module NumberFacts.
Import JSNumber.

Ltac not_this_char c H :=
  unfold is_char; cbn [list_ascii_of_string existsb];
  repeat match goal with
         | |- context [Ascii.eqb c ?d] =>
             destruct (Ascii.eqb_spec c d) as [->|]; [discriminate H|]
         end;
  reflexivity.

Section Digit.
Variable c : ascii.
Hypothesis H : is_decimal_digit c = true.

Lemma digit_not_space : is_white_space c = false.
Proof.
  revert H. unfold is_decimal_digit, is_white_space.
  generalize (code_unit c). intros n Hn.
  apply andb_true_iff in Hn as [A B].
  apply Z.leb_le in A, B.
  repeat rewrite orb_false_iff. repeat split.
  - apply andb_false_iff. right. apply Z.leb_gt. lia.
  - apply Z.eqb_neq. lia.
  - apply Z.eqb_neq. lia.
Qed.

Lemma digit_value_10 : digit_value 10 c = Some (code_unit c - 48).
Proof.
  revert H. unfold is_decimal_digit, digit_value, Hex.unhex.
  generalize (code_unit c). intros n Hn. rewrite Hn.
  apply andb_true_iff in Hn as [A B]. apply Z.leb_le in A, B.
  destruct (Z.ltb_spec (n - 48) 10); [reflexivity | lia].
Qed.

Lemma digit_not_minus : is_char c "-" = false.
Proof. not_this_char c H. Qed.
Lemma digit_not_plus : is_char c "+" = false.
Proof. not_this_char c H. Qed.
Lemma digit_not_x : is_char c "xX" = false.
Proof. not_this_char c H. Qed.
Lemma digit_not_o : is_char c "oO" = false.
Proof. not_this_char c H. Qed.
Lemma digit_not_b : is_char c "bB" = false.
Proof. not_this_char c H. Qed.
Lemma digit_not_I : Ascii.eqb c "I" = false.
Proof. destruct (Ascii.eqb_spec c "I") as [->|]; [discriminate H | reflexivity]. Qed.
Lemma digit_not_colon : Ascii.eqb c ":" = false.
Proof. destruct (Ascii.eqb_spec c ":") as [->|]; [discriminate H | reflexivity]. Qed.
End Digit.

Lemma digits_no_colon (s : string) :
  all_decimal_digits s = true -> occurs ":" s = false.
Proof.
  induction s as [|c s IH]; cbn [all_decimal_digits occurs]; [reflexivity|].
  intros H. apply andb_true_iff in H as [Hc Hs].
  rewrite (digit_not_colon c Hc), (IH Hs). reflexivity.
Qed.

Lemma trim_left_digits (s : string) :
  all_decimal_digits s = true -> trim_left s = s.
Proof.
  destruct s as [|c s]; [reflexivity|]. cbn [all_decimal_digits trim_left].
  intros H. apply andb_true_iff in H as [Hc _].
  rewrite (digit_not_space c Hc). reflexivity.
Qed.

Lemma trim_right_digits (s : string) :
  all_decimal_digits s = true -> trim_right s = s.
Proof.
  induction s as [|c s IH]; [reflexivity|]. cbn [all_decimal_digits trim_right].
  intros H. apply andb_true_iff in H as [Hc Hs].
  rewrite (IH Hs), (digit_not_space c Hc). destruct s; reflexivity.
Qed.

(** The digit strings the standard library prints. *)
Lemma uint_all_digits (d : Decimal.uint) :
  all_decimal_digits (NilEmpty.string_of_uint d) = true.
Proof. induction d; cbn; auto. Qed.

Ltac digit_step :=
  rewrite digit_value_10 by reflexivity;
  match goal with
  | |- context [code_unit ?ch - 48] =>
      let v := eval vm_compute in (code_unit ch - 48) in
      change (code_unit ch - 48) with v
  end.

Lemma scan_uint_pos (d : Decimal.uint) : forall (acc : positive) (count : Z),
  scan 10 (NilEmpty.string_of_uint d) (Z.pos acc) count =
  (Z.pos (Pos.of_uint_acc d acc), count + Z.of_nat (Decimal.nb_digits d),
   EmptyString).
Proof.
  induction d; intros acc count;
    cbn [NilEmpty.string_of_uint scan Decimal.nb_digits Pos.of_uint_acc];
    try (rewrite Z.add_0_r; reflexivity);
    digit_step;
    match goal with
    | |- scan 10 _ ?a _ = (Z.pos (Pos.of_uint_acc _ ?q), _, _) =>
        replace a with (Z.pos q) by lia
    end;
    rewrite IHd; f_equal; f_equal; lia.
Qed.

Lemma scan_uint (d : Decimal.uint) : forall count : Z,
  scan 10 (NilEmpty.string_of_uint d) 0 count =
  (Z.of_N (Pos.of_uint d), count + Z.of_nat (Decimal.nb_digits d),
   EmptyString).
Proof.
  induction d; intros count;
    cbn [NilEmpty.string_of_uint scan Decimal.nb_digits Pos.of_uint];
    try (rewrite Z.add_0_r; reflexivity);
    digit_step; cbn [Z.mul Z.add];
    [ rewrite IHd | rewrite scan_uint_pos .. ];
    cbn [Z.of_N]; f_equal; f_equal; lia.
Qed.

(** *** Rounding is exact on the integers below 2^53 *)

Lemma round_half_even_1 (n : Z) : round_half_even n 1 = n.
Proof.
  unfold round_half_even. rewrite Z.div_1_r, Z.mod_1_r. reflexivity.
Qed.

Lemma Qred_integer (n : Z) : Qred (n # 1) = n # 1.
Proof.
  unfold Qred. cbn [Qnum Qden].
  pose proof (Z.ggcd_gcd n 1) as G.
  pose proof (Z.ggcd_correct_divisors n 1) as D.
  destruct (Z.ggcd n 1) as [g [a b]]. cbn [fst snd] in *.
  rewrite Z.gcd_1_r in G. subst g. destruct D as [Da Db].
  rewrite Z.mul_1_l in Da, Db. subst a b. reflexivity.
Qed.

Lemma of_pow2_exact (n j : Z) : 0 <= j -> of_pow2 (n * 2 ^ j) (- j) = n # 1.
Proof.
  intros Hj. unfold of_pow2.
  destruct (Z.leb_spec 0 (- j)) as [H|H].
  - assert (j = 0) by lia. subst j. cbn. f_equal. lia.
  - rewrite Z.opp_involutive, <- Qred_integer.
    apply Qred_complete. unfold Qeq. cbn [Qnum Qden].
    rewrite Z2Pos.id by (apply Z.pow_pos_nonneg; lia). lia.
Qed.

Lemma round_pos_integer (n : Z) :
  0 < n < 2 ^ 53 -> round_pos false n 1 = Finite (n # 1).
Proof.
  intros [Hpos Hlt].
  pose proof (Z.log2_nonneg n) as K0.
  pose proof (Z.log2_spec n Hpos) as [Klo _].
  assert (K52 : Z.log2 n < 53) by (apply Z.log2_lt_pow2; assumption).
  unfold round_pos, floor_log2, scale2.
  change (Z.log2 1) with 0. rewrite Z.sub_0_r.
  destruct (Z.leb_spec 0 (Z.log2 n)) as [_|]; [|lia].
  destruct (Z.leb_spec (1 * 2 ^ Z.log2 n) n) as [_|]; [|lia].
  rewrite Z.max_l by lia.
  set (e := Z.log2 n - 52).
  destruct (Z.leb_spec 0 e) as [He|He].
  - assert (E0 : e = 0) by lia. rewrite E0.
    change (1 * 2 ^ 0) with 1. rewrite round_half_even_1.
    cbn [Z.ltb Z.eqb Z.compare orb andb].
    rewrite <- (of_pow2_exact n 0) by lia. f_equal. f_equal. lia.
  - rewrite round_half_even_1.
    destruct (Z.ltb_spec 971 e); [lia|].
    destruct (Z.eqb_spec e 971); [lia|]. cbn [orb andb].
    rewrite <- (of_pow2_exact n (- e)) by lia.
    rewrite Z.opp_involutive. reflexivity.
Qed.

Lemma int_gt_of_Z (now n : Z) : int_gt now (of_Z n) = (n <? now).
Proof.
  unfold int_gt, of_Z, Qle_bool. cbn [Qnum Qden].
  rewrite !Z.mul_1_r. apply eq_sym, Z.ltb_antisym.
Qed.

(** *** [Number] on the string form of a non-negative integer *)

Lemma toString_nonneg (n : Z) :
  0 <= n ->
  exists d : Decimal.uint,
    toString n = NilEmpty.string_of_uint d /\ d <> Decimal.Nil /\
    Z.of_N (Pos.of_uint d) = n.
Proof.
  intros Hn. destruct n as [|p|p]; [| |lia].
  - exists (Decimal.D0 Decimal.Nil). repeat split; discriminate.
  - exists (Pos.to_uint p). unfold toString.
    cbn [Z.to_int NilZero.string_of_int].
    pose proof (Unsigned.to_uint_nonnil p) as NN.
    repeat split.
    + unfold NilZero.string_of_uint.
      destruct (Pos.to_uint p); [contradiction | reflexivity ..].
    + exact NN.
    + rewrite DecimalPos.Unsigned.of_to. reflexivity.
Qed.

Lemma toString_digits (n : Z) :
  0 <= n ->
  all_decimal_digits (toString n) = true /\ toString n <> EmptyString.
Proof.
  intros Hn. destruct (toString_nonneg n Hn) as (d & -> & NN & _). split.
  - apply uint_all_digits.
  - destruct d; [contradiction | discriminate ..].
Qed.

Lemma decimal_digits (d : Decimal.uint) :
  d <> Decimal.Nil ->
  decimal (NilEmpty.string_of_uint d) =
  round_decimal false (Z.of_N (Pos.of_uint d)) 0.
Proof.
  intros NN. unfold decimal.
  assert (S0 : sign (NilEmpty.string_of_uint d) =
               (false, NilEmpty.string_of_uint d)).
  { pose proof (uint_all_digits d) as A.
    destruct (NilEmpty.string_of_uint d) as [|c s]; [reflexivity|].
    cbn [all_decimal_digits] in A. apply andb_true_iff in A as [Hc _].
    unfold sign. rewrite (digit_not_minus c Hc), (digit_not_plus c Hc).
    reflexivity. }
  rewrite S0.
  assert (I0 : String.eqb (NilEmpty.string_of_uint d) "Infinity" = false).
  { pose proof (uint_all_digits d) as A.
    destruct (NilEmpty.string_of_uint d) as [|c s]; [reflexivity|].
    cbn [all_decimal_digits] in A. apply andb_true_iff in A as [Hc _].
    cbn [String.eqb]. rewrite (digit_not_I c Hc). reflexivity. }
  rewrite I0, scan_uint.
  assert (0 < Z.of_nat (Decimal.nb_digits d)).
  { destruct d; [contradiction | cbn [Decimal.nb_digits]; lia ..]. }
  destruct (Z.eqb_spec (0 + Z.of_nat (Decimal.nb_digits d) + 0) 0); [lia|].
  reflexivity.
Qed.

Lemma Number_digits (s : string) :
  all_decimal_digits s = true -> s <> EmptyString -> Number s = decimal s.
Proof.
  intros A NE. unfold Number.
  rewrite (trim_left_digits s A), (trim_right_digits s A).
  destruct s as [|c0 [|c1 rest]]; [contradiction | reflexivity |].
  cbn [all_decimal_digits] in A.
  apply andb_true_iff in A as [_ A]. apply andb_true_iff in A as [H1 _].
  rewrite (digit_not_x c1 H1), (digit_not_o c1 H1), (digit_not_b c1 H1).
  rewrite !andb_false_r. reflexivity.
Qed.

(** [Number(String(n)) = n] for every integer [n] that a double holds
    exactly and [Date.now()] can reach. *)
Lemma Number_toString (n : Z) :
  0 <= n < 2 ^ 53 -> Number (toString n) = of_Z n.
Proof.
  intros [Hn Hlt].
  destruct (toString_digits n Hn) as [A NE].
  rewrite (Number_digits _ A NE).
  destruct (toString_nonneg n Hn) as (d & -> & NN & V).
  rewrite (decimal_digits d NN), V.
  unfold round_decimal.
  destruct (Z.eqb_spec n 0) as [->|N0]; [reflexivity|].
  cbn [Z.leb Z.compare]. change (10 ^ 0) with 1. rewrite Z.mul_1_r.
  apply round_pos_integer. lia.
Qed.

End NumberFacts.

(** ** The verifier *)

Lemma append_assoc (a b c : string) : ((a ++ b) ++ c = a ++ (b ++ c))%string.
Proof. induction a as [|x a IH]; cbn; [reflexivity | now rewrite IH]. Qed.

Lemma nonempty_eqb (s : string) : s <> EmptyString -> String.eqb s "" = false.
Proof. intros H. apply String.eqb_neq, H. Qed.

Lemma length_nonempty (s : string) (n : nat) :
  String.length s = S n -> s <> EmptyString.
Proof. intros H ->. discriminate H. Qed.

Section SignaturesMatch.
Variable expected : Buffer.

Lemma lower_encode : Hex.lower (Hex.encode expected) = Hex.encode expected.
Proof.
  apply HexFacts.lower_of_decode;
    [apply HexFacts.length_encode | apply HexFacts.decode_encode].
Qed.

Lemma buffer_eqb_eq (a b : Buffer) : buffer_eqb a b = true <-> a = b.
Proof.
  unfold buffer_eqb. destruct (list_eq_dec Byte.byte_eq_dec a b); split;
    congruence.
Qed.

(** [signaturesMatch] is true exactly when the presented signature is
    the expected one up to the case of its letters. *)
Lemma signatures_match_true (signature : string) :
  signatures_match signature (Hex.encode expected) = Normal true <->
  Hex.lower signature = Hex.encode expected.
Proof.
  unfold signatures_match, timingSafeEqual.
  rewrite HexFacts.decode_encode, HexFacts.length_encode. split.
  - destruct (Nat.eqb_spec (String.length signature)
                (2 * List.length expected)) as [L|]; [|discriminate].
    destruct (List.length (Hex.decode signature) =? List.length expected)%nat;
      [|discriminate].
    intros E. injection E as E. apply buffer_eqb_eq in E.
    apply HexFacts.lower_of_decode; assumption.
  - intros E.
    assert (L : String.length signature = (2 * List.length expected)%nat)
      by (rewrite <- HexFacts.length_lower, E; apply HexFacts.length_encode).
    apply HexFacts.decode_of_lower in E.
    rewrite L, E, !Nat.eqb_refl. f_equal. apply buffer_eqb_eq. reflexivity.
Qed.

Lemma signatures_match_cases (signature : string) :
  signatures_match signature (Hex.encode expected) = Normal true \/
  signatures_match signature (Hex.encode expected) = Normal false \/
  signatures_match signature (Hex.encode expected) =
    Throw (RangeError "ERR_CRYPTO_TIMING_SAFE_EQUAL_LENGTH").
Proof.
  unfold signatures_match, timingSafeEqual.
  destruct (String.length signature =? _)%nat; [|auto].
  destruct (List.length (Hex.decode signature) =? _)%nat; [|auto].
  destruct (buffer_eqb _ _); auto.
Qed.

(** [timingSafeEqual] throws exactly when the presented signature has
    the length of the expected one and holds a character that is not a
    hexadecimal digit. *)
Lemma signatures_match_throws (signature : string) (e : Exception) :
  signatures_match signature (Hex.encode expected) = Throw e <->
  e = RangeError "ERR_CRYPTO_TIMING_SAFE_EQUAL_LENGTH" /\
  String.length signature = (2 * List.length expected)%nat /\
  Hex.all_hex signature = false.
Proof.
  unfold signatures_match, timingSafeEqual.
  rewrite HexFacts.decode_encode, HexFacts.length_encode.
  destruct (Nat.eqb_spec (String.length signature)
              (2 * List.length expected)) as [L|L].
  - pose proof (HexFacts.decode_length_all_hex _ _ L) as D.
    destruct (Nat.eqb_spec (List.length (Hex.decode signature))
                (List.length expected)) as [E|E].
    + apply D in E. rewrite E. split; [discriminate|].
      intros (_ & _ & H). discriminate H.
    + destruct (Hex.all_hex signature).
      * exfalso. apply E, D. reflexivity.
      * split; [intros H; injection H as <-; auto | intros (-> & _); reflexivity].
  - split; [discriminate | intros (_ & H & _); contradiction].
Qed.

End SignaturesMatch.

Section Verifier.
Variable secret : string.
Variable now : Z.

(** A candidate that is a string goes to lines 52-68; the empty string
    is turned away by either test. *)
Lemma verify_candidate_string (req : Request) (token : string) :
  candidate req = Str token ->
  verifyCsrfToken secret now req = verify_string secret now token.
Proof.
  intros C. unfold verifyCsrfToken. rewrite C.
  destruct token; reflexivity.
Qed.

(** Lines 57-68 once three non-empty fields were found. *)
Lemma verify_string_fields (token nonce expiryStr signature : string)
      (more : list string) :
  split ":" token = nonce :: expiryStr :: signature :: more ->
  nonce <> EmptyString -> expiryStr <> EmptyString ->
  signature <> EmptyString ->
  verify_string secret now token =
  (signaturesMatch <-
     signatures_match signature
       (hmac_sha256_hex secret (nonce ++ ":" ++ expiryStr)) ;;
   if negb signaturesMatch || JSNumber.isNaN (JSNumber.Number expiryStr)
      || JSNumber.int_gt now (JSNumber.Number expiryStr)
   then forbidden else Normal Next).
Proof.
  intros P N E S. unfold verify_string. rewrite P.
  cbn [nth_error falsy].
  rewrite (nonempty_eqb _ N), (nonempty_eqb _ E), (nonempty_eqb _ S).
  reflexivity.
Qed.

Lemma split_three (nonce expiryStr signature : string) :
  occurs ":" nonce = false -> occurs ":" expiryStr = false ->
  occurs ":" signature = false ->
  split ":" (nonce ++ ":" ++ expiryStr ++ ":" ++ signature) =
  [nonce; expiryStr; signature].
Proof.
  intros N E S.
  change (":" ++ expiryStr ++ ":" ++ signature)%string
    with (String ":" (expiryStr ++ String ":" signature)).
  rewrite (split_field _ _ _ N), (split_field _ _ _ E), (split_none _ _ S).
  reflexivity.
Qed.

(** When the verifier lets a three-field token through. *)
Lemma verify_string_accepts (token nonce expiryStr signature : string)
      (more : list string) :
  split ":" token = nonce :: expiryStr :: signature :: more ->
  nonce <> EmptyString -> expiryStr <> EmptyString ->
  signature <> EmptyString ->
  verify_string secret now token = Normal Next <->
  Hex.lower signature = hmac_sha256_hex secret (nonce ++ ":" ++ expiryStr) /\
  JSNumber.isNaN (JSNumber.Number expiryStr) = false /\
  JSNumber.int_gt now (JSNumber.Number expiryStr) = false.
Proof.
  intros P N E S. rewrite (verify_string_fields _ _ _ _ _ P N E S).
  unfold hmac_sha256_hex.
  rewrite <- signatures_match_true.
  destruct (signatures_match_cases
              (SHA256.hmac (utf8_encode secret)
                 (utf8_encode (nonce ++ ":" ++ expiryStr))) signature)
    as [M | [M | M]]; rewrite M; cbn [bind negb orb].
  - destruct (JSNumber.isNaN _), (JSNumber.int_gt _ _); cbn [orb];
      unfold forbidden; split; (intros H; try discriminate H);
      try (destruct H as (_ & H1 & H2); discriminate); auto.
  - unfold forbidden. split; [discriminate|]. intros (H & _). discriminate H.
  - split; [discriminate|]. intros (H & _). discriminate H.
Qed.

(** The three ways [verifyCsrfToken] can end. *)
Lemma verify_string_outcomes (token : string) :
  verify_string secret now token = Normal Next \/
  verify_string secret now token = forbidden \/
  verify_string secret now token =
    Throw (RangeError "ERR_CRYPTO_TIMING_SAFE_EQUAL_LENGTH").
Proof.
  unfold verify_string.
  destruct (falsy _ || falsy _ || falsy _); [auto|].
  destruct (nth_error _ 0) as [nonce|]; [|auto].
  destruct (nth_error _ 1) as [expiryStr|]; [|auto].
  destruct (nth_error _ 2) as [signature|]; [|auto].
  unfold hmac_sha256_hex.
  destruct (signatures_match_cases
              (SHA256.hmac (utf8_encode secret)
                 (utf8_encode (nonce ++ ":" ++ expiryStr))) signature)
    as [M | [M | M]]; rewrite M; cbn [bind]; auto.
  destruct (negb true || _ || _); auto.
Qed.

Lemma verify_outcomes (req : Request) :
  verifyCsrfToken secret now req = Normal Next \/
  verifyCsrfToken secret now req = forbidden \/
  verifyCsrfToken secret now req =
    Throw (RangeError "ERR_CRYPTO_TIMING_SAFE_EQUAL_LENGTH").
Proof.
  destruct (candidate req) as [| |b|x|token|] eqn:C;
    try (right; left; unfold verifyCsrfToken; rewrite C;
         cbn [typeof_string negb orb]; rewrite ?orb_true_r; reflexivity).
  rewrite (verify_candidate_string req token C).
  apply verify_string_outcomes.
Qed.

(** A three-field token makes the verifier throw exactly when its
    signature field has 64 code units, one of which is not a hexadecimal
    digit. *)
Lemma verify_string_throws (token nonce expiryStr signature : string)
      (more : list string) (e : Exception) :
  split ":" token = nonce :: expiryStr :: signature :: more ->
  nonce <> EmptyString -> expiryStr <> EmptyString ->
  signature <> EmptyString ->
  verify_string secret now token = Throw e <->
  e = RangeError "ERR_CRYPTO_TIMING_SAFE_EQUAL_LENGTH" /\
  String.length signature = 64%nat /\ Hex.all_hex signature = false.
Proof.
  intros P N E S. rewrite (verify_string_fields _ _ _ _ _ P N E S).
  unfold hmac_sha256_hex.
  pose proof (signatures_match_throws
                (SHA256.hmac (utf8_encode secret)
                   (utf8_encode (nonce ++ ":" ++ expiryStr))) signature e)
    as T.
  rewrite hmac_length in T. change (2 * 32)%nat with 64%nat in T.
  rewrite <- T.
  destruct (signatures_match signature _) as [[|]|e']; cbn [bind negb orb].
  - destruct (_ || _); unfold forbidden; split; discriminate.
  - unfold forbidden; split; discriminate.
  - split; intros H; injection H as ->; reflexivity.
Qed.

(** Lines 52-68 read the first three fields only. *)
Lemma verify_string_first_three (token token' : string) :
  firstn 3 (split ":" token) = firstn 3 (split ":" token') ->
  verify_string secret now token = verify_string secret now token'.
Proof.
  intros F. unfold verify_string.
  assert (N : forall i, (i < 3)%nat ->
                nth_error (split ":" token) i =
                nth_error (split ":" token') i).
  { intros i Hi.
    pose proof (nth_error_firstn 3 (split ":" token) i) as A.
    pose proof (nth_error_firstn 3 (split ":" token') i) as B.
    destruct (Nat.ltb_spec i 3); [|lia]. rewrite <- A, <- B, F. reflexivity. }
  rewrite (N 0%nat), (N 1%nat), (N 2%nat) by lia. reflexivity.
Qed.

(** A token without three non-empty leading fields gets the 403. *)
Lemma verify_string_missing_field (token : string) :
  falsy (nth_error (split ":" token) 0)
  || falsy (nth_error (split ":" token) 1)
  || falsy (nth_error (split ":" token) 2) = true ->
  verify_string secret now token = forbidden.
Proof.
  unfold verify_string. intros ->. reflexivity.
Qed.

End Verifier.

(** ** Issued tokens *)

Section Issued.
Variable secret : string.
Variable entropy : nat -> byte.
Variable issued : Z.
Hypothesis issued_range : 0 <= issued <= MAX_TIME.

Lemma issued_shape :
  issueCsrfToken secret issued entropy =
  (issued_nonce entropy ++ ":" ++ issued_expiry issued ++ ":"
     ++ issued_signature secret issued entropy)%string.
Proof.
  unfold issueCsrfToken, issued_signature, issued_nonce, issued_expiry.
  rewrite append_assoc. reflexivity.
Qed.

Lemma randomBytes_length (n : nat) : List.length (randomBytes entropy n) = n.
Proof. unfold randomBytes. rewrite length_map, length_seq. reflexivity. Qed.

Lemma issued_nonce_length : String.length (issued_nonce entropy) = 32%nat.
Proof.
  unfold issued_nonce. rewrite HexFacts.length_encode, randomBytes_length.
  reflexivity.
Qed.

Lemma expiry_range : 0 <= issued + CSRF_TOKEN_EXPIRY_MS < 2 ^ 53.
Proof. unfold MAX_TIME, CSRF_TOKEN_EXPIRY_MS in *. lia. Qed.

Lemma issued_expiry_digits :
  JSNumber.all_decimal_digits (issued_expiry issued) = true /\
  issued_expiry issued <> EmptyString.
Proof. apply NumberFacts.toString_digits. apply expiry_range. Qed.

Lemma issued_fields :
  split ":" (issueCsrfToken secret issued entropy) =
  [issued_nonce entropy; issued_expiry issued;
   issued_signature secret issued entropy].
Proof.
  rewrite issued_shape. apply split_three.
  - apply HexFacts.all_lower_hex_no_colon, HexFacts.all_lower_hex_encode.
  - apply NumberFacts.digits_no_colon, issued_expiry_digits.
  - apply HexFacts.all_lower_hex_no_colon, hmac_hex_lower.
Qed.

(** An issued token is let through until its expiry and turned away
    with the 403 afterwards. *)
Lemma verify_issued (now : Z) :
  verify_string secret now (issueCsrfToken secret issued entropy) =
  if now <=? issued + CSRF_TOKEN_EXPIRY_MS then Normal Next else forbidden.
Proof.
  rewrite (verify_string_fields secret now _ _ _ _ _ issued_fields);
    [ | apply (length_nonempty _ 31), issued_nonce_length
      | apply issued_expiry_digits
      | apply (length_nonempty _ 63), hmac_hex_length ].
  assert (M : signatures_match (issued_signature secret issued entropy)
                (hmac_sha256_hex secret
                   (issued_nonce entropy ++ ":" ++ issued_expiry issued)) =
              Normal true).
  { unfold issued_signature, hmac_sha256_hex.
    apply signatures_match_true, lower_encode. }
  rewrite M. cbn [bind negb orb].
  unfold issued_expiry.
  rewrite NumberFacts.Number_toString by apply expiry_range.
  cbn [JSNumber.isNaN JSNumber.of_Z orb].
  fold (JSNumber.of_Z (issued + CSRF_TOKEN_EXPIRY_MS)).
  rewrite NumberFacts.int_gt_of_Z, Z.leb_antisym.
  destruct (issued + CSRF_TOKEN_EXPIRY_MS <? now); reflexivity.
Qed.

End Issued.

Local Open Scope string_scope.
Local Open Scope Z_scope.

(** ** The verifier on strings of any code unit *)

Module WideFacts.

Lemma unit_eqb_eq (a b : UTF16.CodeUnit) : UTF16.unit_eqb a b = true <-> a = b.
Proof.
  destruct a as [ah al], b as [bh bl]. unfold UTF16.unit_eqb.
  cbn [UTF16.high UTF16.low].
  rewrite andb_true_iff, !Ascii.eqb_eq. split.
  - intros [-> ->]. reflexivity.
  - intros E. injection E as -> ->. auto.
Qed.

Lemma unit_eqb_refl (a : UTF16.CodeUnit) : UTF16.unit_eqb a a = true.
Proof. apply unit_eqb_eq. reflexivity. Qed.

Lemma wide_split_none (sep : UTF16.CodeUnit) (s : UTF16.t) :
  UTF16.occurs sep s = false -> UTF16.split sep s = [s].
Proof.
  induction s as [|u s IH]; cbn [UTF16.occurs UTF16.split]; [reflexivity|].
  intros H. apply orb_false_iff in H as [Hu Hs].
  rewrite Hu, (IH Hs). reflexivity.
Qed.

Lemma wide_split_field (sep : UTF16.CodeUnit) (a rest : UTF16.t) :
  UTF16.occurs sep a = false ->
  UTF16.split sep (a ++ sep :: rest)%list = a :: UTF16.split sep rest.
Proof.
  induction a as [|u a IH]; cbn [UTF16.occurs UTF16.split app].
  - intros _. rewrite unit_eqb_refl. reflexivity.
  - intros H. apply orb_false_iff in H as [Hu Ha].
    rewrite Hu, (IH Ha). reflexivity.
Qed.

Lemma wide_split_three (nonce expiryStr signature : UTF16.t) :
  UTF16.occurs UTF16.colon nonce = false ->
  UTF16.occurs UTF16.colon expiryStr = false ->
  UTF16.occurs UTF16.colon signature = false ->
  UTF16.split UTF16.colon
    (nonce ++ UTF16.colon :: expiryStr ++ UTF16.colon :: signature)%list =
  [nonce; expiryStr; signature].
Proof.
  intros N E S.
  rewrite (wide_split_field _ _ _ N), (wide_split_field _ _ _ E), (wide_split_none _ _ S).
  reflexivity.
Qed.

Lemma wide_nonempty_length (s : UTF16.t) :
  s <> [] -> (List.length s =? 0)%nat = false.
Proof. destruct s; [congruence | reflexivity]. Qed.

Lemma low_bytes_length (s : UTF16.t) :
  String.length (UTF16.low_bytes s) = List.length s.
Proof. induction s as [|u s IH]; cbn; congruence. Qed.

(** The comparison sees the low bytes of the signature only. *)
Lemma signatures_match_low (signature : UTF16.t) (expectedSignature : string) :
  UTF16.signatures_match signature expectedSignature =
  signatures_match (UTF16.low_bytes signature) expectedSignature.
Proof.
  unfold UTF16.signatures_match, signatures_match, UTF16.hex_decode.
  rewrite <- low_bytes_length. reflexivity.
Qed.

Section Verifier.
Variable secret : UTF16.t.
Variable now : Z.

Lemma wide_verify_candidate_string (req : UTF16.Request) (token : UTF16.t) :
  UTF16.candidate req = UTF16.Str token ->
  UTF16.verifyCsrfToken secret now req = UTF16.verify_string secret now token.
Proof.
  intros C. unfold UTF16.verifyCsrfToken. rewrite C.
  destruct token; reflexivity.
Qed.

Lemma wide_verify_string_fields (token nonce expiryStr signature : UTF16.t)
      (more : list UTF16.t) :
  UTF16.split UTF16.colon token = nonce :: expiryStr :: signature :: more ->
  nonce <> [] -> expiryStr <> [] -> signature <> [] ->
  UTF16.verify_string secret now token =
  (signaturesMatch <-
     UTF16.signatures_match signature
       (UTF16.hmac_sha256_hex secret (nonce ++ UTF16.colon :: expiryStr)%list) ;;
   if negb signaturesMatch || JSNumber.isNaN (UTF16.Number expiryStr)
      || JSNumber.int_gt now (UTF16.Number expiryStr)
   then forbidden else Normal Next).
Proof.
  intros P N E S. unfold UTF16.verify_string. rewrite P.
  cbn [nth_error UTF16.falsy].
  rewrite (wide_nonempty_length _ N), (wide_nonempty_length _ E), (wide_nonempty_length _ S).
  reflexivity.
Qed.

(** When the verifier lets a three-field token through. *)
Lemma wide_verify_string_accepts (token nonce expiryStr signature : UTF16.t)
      (more : list UTF16.t) :
  UTF16.split UTF16.colon token = nonce :: expiryStr :: signature :: more ->
  nonce <> [] -> expiryStr <> [] -> signature <> [] ->
  UTF16.verify_string secret now token = Normal Next <->
  Hex.lower (UTF16.low_bytes signature) =
    UTF16.hmac_sha256_hex secret (nonce ++ UTF16.colon :: expiryStr)%list /\
  JSNumber.isNaN (UTF16.Number expiryStr) = false /\
  JSNumber.int_gt now (UTF16.Number expiryStr) = false.
Proof.
  intros P N E S. rewrite (wide_verify_string_fields _ _ _ _ _ P N E S).
  rewrite signatures_match_low. unfold UTF16.hmac_sha256_hex.
  rewrite <- signatures_match_true.
  destruct (signatures_match_cases
              (SHA256.hmac (UTF16.utf8 secret)
                 (UTF16.utf8 (nonce ++ UTF16.colon :: expiryStr)%list))
              (UTF16.low_bytes signature))
    as [M | [M | M]]; rewrite M; cbn [bind negb orb].
  - destruct (JSNumber.isNaN _), (JSNumber.int_gt _ _); cbn [orb];
      unfold forbidden; split; (intros H; try discriminate H);
      try (destruct H as (_ & H1 & H2); discriminate); auto.
  - unfold forbidden. split; [discriminate|]. intros (H & _). discriminate H.
  - split; [discriminate|]. intros (H & _). discriminate H.
Qed.

End Verifier.

(** *** On code units below 256 the two models agree *)

Lemma of_string_app (a b : string) :
  UTF16.of_string (a ++ b) = (UTF16.of_string a ++ UTF16.of_string b)%list.
Proof.
  induction a as [|c a IH]; cbn [append UTF16.of_string app];
    [reflexivity|]. rewrite IH. reflexivity.
Qed.

Lemma of_string_length (s : string) :
  List.length (UTF16.of_string s) = String.length s.
Proof. induction s as [|c s IH]; cbn; congruence. Qed.

Lemma low_bytes_of_string (s : string) :
  UTF16.low_bytes (UTF16.of_string s) = s.
Proof. induction s as [|c s IH]; cbn; congruence. Qed.

Lemma code_of_ascii (c : ascii) : UTF16.code (UTF16.of_ascii c) = code_unit c.
Proof. reflexivity. Qed.

Lemma numeric_units_of_string (s : string) :
  UTF16.numeric_units (UTF16.of_string s) = s.
Proof.
  induction s as [|c s IH]; cbn [UTF16.of_string UTF16.numeric_units];
    [reflexivity|].
  rewrite IH. unfold UTF16.numeric_unit. rewrite code_of_ascii.
  pose proof (HexFacts.code_unit_range c).
  destruct (Z.ltb_spec (code_unit c) 256); [reflexivity | lia].
Qed.

Lemma utf8_of_string (s : string) :
  UTF16.utf8 (UTF16.of_string s) = utf8_encode s.
Proof.
  induction s as [|c s IH]; cbn [UTF16.of_string UTF16.utf8 utf8_encode];
    [reflexivity|].
  pose proof (HexFacts.code_unit_range c) as R.
  unfold UTF16.is_high_surrogate, UTF16.is_low_surrogate.
  rewrite code_of_ascii.
  destruct (Z.leb_spec 55296 (code_unit c)); [lia|].
  destruct (Z.leb_spec 56320 (code_unit c)); [lia|]. cbn [andb].
  rewrite IH. f_equal.
  unfold UTF16.utf8_code_point, utf8_unit.
  destruct (code_unit c <? 128); [reflexivity|].
  destruct (Z.ltb_spec (code_unit c) 2048); [reflexivity | lia].
Qed.

Lemma unit_eqb_of_ascii (c d : ascii) :
  UTF16.unit_eqb (UTF16.of_ascii c) (UTF16.of_ascii d) = Ascii.eqb c d.
Proof. reflexivity. Qed.

Lemma split_of_string (sep : ascii) (s : string) :
  UTF16.split (UTF16.of_ascii sep) (UTF16.of_string s) =
  map UTF16.of_string (split sep s).
Proof.
  induction s as [|c s IH]; cbn [UTF16.of_string UTF16.split split map];
    [reflexivity|].
  rewrite unit_eqb_of_ascii, IH.
  destruct (Ascii.eqb c sep); [reflexivity|].
  destruct (split sep s); reflexivity.
Qed.

Lemma falsy_of_string (x : option string) :
  UTF16.falsy (option_map UTF16.of_string x) = falsy x.
Proof. destruct x as [[|c s]|]; reflexivity. Qed.

Lemma verify_string_of_string (secret : string) (now : Z) (token : string) :
  UTF16.verify_string (UTF16.of_string secret) now (UTF16.of_string token) =
  verify_string secret now token.
Proof.
  unfold UTF16.verify_string, verify_string.
  change UTF16.colon with (UTF16.of_ascii ":").
  rewrite split_of_string, !nth_error_map, !falsy_of_string.
  destruct (falsy _ || falsy _ || falsy _); [reflexivity|].
  destruct (nth_error _ 0) as [nonce|]; [|reflexivity].
  destruct (nth_error _ 1) as [expiryStr|]; [|reflexivity].
  destruct (nth_error _ 2) as [signature|]; [|reflexivity].
  cbn [option_map].
  rewrite signatures_match_low, low_bytes_of_string.
  unfold UTF16.hmac_sha256_hex, hmac_sha256_hex, UTF16.Number.
  change (UTF16.of_string nonce ++ UTF16.of_ascii ":"
            :: UTF16.of_string expiryStr)%list
    with (UTF16.of_string nonce ++ UTF16.of_string (":" ++ expiryStr))%list.
  rewrite <- of_string_app, !utf8_of_string, numeric_units_of_string.
  reflexivity.
Qed.

Lemma issueCsrfToken_of_string (secret : string) (now : Z)
      (entropy : nat -> byte) :
  UTF16.issueCsrfToken (UTF16.of_string secret) now entropy =
  UTF16.of_string (issueCsrfToken secret now entropy).
Proof.
  unfold UTF16.issueCsrfToken, issueCsrfToken, UTF16.hmac_sha256_hex,
    hmac_sha256_hex.
  rewrite !utf8_of_string.
  change (UTF16.colon :: UTF16.of_string ?s)
    with (UTF16.of_string (":" ++ s)).
  rewrite <- of_string_app. reflexivity.
Qed.

Lemma truthy_widen (v : Value) : UTF16.truthy (widen_value v) = truthy v.
Proof. destruct v as [| | | |[|c s]|]; reflexivity. Qed.

Lemma or_else_widen (a b : Value) :
  UTF16.or_else (widen_value a) (widen_value b) = widen_value (or_else a b).
Proof.
  unfold UTF16.or_else, or_else. rewrite truthy_widen.
  destruct (truthy a); reflexivity.
Qed.

Lemma candidate_widen (req : Request) :
  UTF16.candidate (widen_request req) = widen_value (candidate req).
Proof.
  unfold UTF16.candidate, candidate. rewrite <- !or_else_widen.
  destruct req as [[h|] [[t1 t2]|]]; reflexivity.
Qed.

(** The verifier of the strings of code units below 256 is the
    verifier, on the requests that hold no other string. *)
Lemma verifyCsrfToken_widen (secret : string) (now : Z) (req : Request) :
  UTF16.verifyCsrfToken (UTF16.of_string secret) now (widen_request req) =
  verifyCsrfToken secret now req.
Proof.
  unfold UTF16.verifyCsrfToken, verifyCsrfToken.
  rewrite candidate_widen, truthy_widen.
  destruct (candidate req) as [| | | |token|]; try reflexivity.
  cbn [widen_value UTF16.typeof_string typeof_string truthy].
  destruct (negb (negb (token =? "")%string) || negb true); [reflexivity|].
  apply verify_string_of_string.
Qed.

(** *** Issued tokens, under any secret *)

Lemma occurs_of_string (c : ascii) (s : string) :
  UTF16.occurs (UTF16.of_ascii c) (UTF16.of_string s) = occurs c s.
Proof.
  induction s as [|d s IH]; cbn [UTF16.of_string UTF16.occurs occurs];
    [reflexivity|]. rewrite unit_eqb_of_ascii, IH. reflexivity.
Qed.

Lemma of_string_nonempty (s : string) :
  s <> EmptyString -> UTF16.of_string s <> [].
Proof. destruct s; [congruence | discriminate]. Qed.

Section WideIssued.
Variable secret : UTF16.t.
Variable entropy : nat -> byte.
Variable issued : Z.
Hypothesis issued_range : 0 <= issued <= MAX_TIME.

Lemma wide_issued_shape :
  UTF16.issueCsrfToken secret issued entropy =
  (UTF16.of_string (issued_nonce entropy) ++ UTF16.colon
     :: UTF16.of_string (issued_expiry issued) ++ UTF16.colon
     :: UTF16.of_string
          (UTF16.hmac_sha256_hex secret
             (UTF16.of_string (issued_nonce entropy) ++ UTF16.colon
                :: UTF16.of_string (issued_expiry issued))))%list.
Proof.
  unfold UTF16.issueCsrfToken, issued_nonce, issued_expiry.
  rewrite of_string_app. cbn [UTF16.of_string append].
  fold UTF16.colon. rewrite <- app_assoc. reflexivity.
Qed.

(** An issued token is let through until its expiry and turned away
    with the 403 afterwards. *)
Lemma wide_verify_issued (now : Z) :
  UTF16.verify_string secret now (UTF16.issueCsrfToken secret issued entropy)
  = if now <=? issued + CSRF_TOKEN_EXPIRY_MS then Normal Next else forbidden.
Proof.
  pose proof (issued_expiry_digits issued issued_range) as [Dg Ne].
  rewrite (wide_verify_string_fields secret now _
             (UTF16.of_string (issued_nonce entropy))
             (UTF16.of_string (issued_expiry issued))
             (UTF16.of_string
                (UTF16.hmac_sha256_hex secret
                   (UTF16.of_string (issued_nonce entropy) ++ UTF16.colon
                      :: UTF16.of_string (issued_expiry issued))%list))
             []).
  - rewrite signatures_match_low, low_bytes_of_string.
    unfold UTF16.hmac_sha256_hex.
    rewrite (proj2 (signatures_match_true _ _) (lower_encode _)).
    cbn [bind negb orb]. unfold UTF16.Number.
    rewrite numeric_units_of_string. unfold issued_expiry.
    rewrite NumberFacts.Number_toString by (apply expiry_range, issued_range).
    cbn [JSNumber.isNaN JSNumber.of_Z orb].
    fold (JSNumber.of_Z (issued + CSRF_TOKEN_EXPIRY_MS)).
    rewrite NumberFacts.int_gt_of_Z, Z.leb_antisym.
    destruct (issued + CSRF_TOKEN_EXPIRY_MS <? now); reflexivity.
  - rewrite wide_issued_shape. apply wide_split_three.
    + change UTF16.colon with (UTF16.of_ascii ":"). rewrite occurs_of_string.
      apply HexFacts.all_lower_hex_no_colon, HexFacts.all_lower_hex_encode.
    + change UTF16.colon with (UTF16.of_ascii ":"). rewrite occurs_of_string.
      apply NumberFacts.digits_no_colon, Dg.
    + change UTF16.colon with (UTF16.of_ascii ":"). rewrite occurs_of_string.
      apply HexFacts.all_lower_hex_no_colon, HexFacts.all_lower_hex_encode.
  - apply of_string_nonempty, (length_nonempty _ 31), issued_nonce_length.
  - apply of_string_nonempty, Ne.
  - apply of_string_nonempty, (length_nonempty _ 63).
    unfold UTF16.hmac_sha256_hex.
    rewrite HexFacts.length_encode, hmac_length. reflexivity.
Qed.

End WideIssued.

End WideFacts.

(** The encodings of a string with code units above 255: U+00E9 and
    U+20AC, the pair U+D83D U+DE00 (one code point), a surrogate alone;
    the hexadecimal digits Node reads in U+0165 U+0131; and the white
    space [Number] trims. *)
Example utf16_samples :
  UTF16.utf8 [UTF16.mkUnit "000" "233"; UTF16.mkUnit "032" "172"]
    = [xc3; xa9; xe2; x82; xac]
  /\ UTF16.utf8 [UTF16.mkUnit "216" "061"; UTF16.mkUnit "222" "000"]
     = [xf0; x9f; x98; x80]
  /\ UTF16.utf8 [UTF16.mkUnit "216" "061"; UTF16.mkUnit "000" "a"]
     = [xef; xbf; xbd; x61]
  /\ UTF16.utf8 [UTF16.mkUnit "222" "000"] = [xef; xbf; xbd]
  /\ UTF16.hex_decode [UTF16.mkUnit "001" "e"; UTF16.mkUnit "001" "1"]
     = [xe1]
  /\ UTF16.Number (UTF16.mkUnit "032" "003" :: UTF16.of_string "12"
                   ++ [UTF16.mkUnit "254" "255"])%list
     = JSNumber.of_Z 12
  /\ UTF16.Number [UTF16.mkUnit "255" "017"; UTF16.mkUnit "255" "018"]
     = JSNumber.NaN.
Proof. repeat split; vm_compute; reflexivity. Qed.

(** ** C1: when a token is accepted *)

(** C1, as the code has it, for a candidate that is any string: a
    header value or a string of the request body, whatever its code
    units, under any process secret.  A candidate
    [nonce:expiry:signature] with non-empty fields is let through
    exactly when the signature, each code unit read on its low byte as
    [Buffer.from(s, 'hex')] reads it, is the hexadecimal HMAC-SHA256 of
    the UTF-8 form of [nonce:expiry] under the process secret up to
    the case of its letters (the comparison is made on the decoded
    bytes), the expiry field is not [NaN], and the clock is not past
    the expiry.  A token made by [issueCsrfToken] is let through at
    every time up to its expiry and answered with the 403 once the
    clock is past it. *)
Theorem token_accepted_iff :
  (forall (secret : UTF16.t) (now : Z) (req : UTF16.Request)
          (nonce expiryStr signature : UTF16.t),
      nonce <> [] -> expiryStr <> [] -> signature <> [] ->
      UTF16.occurs UTF16.colon nonce = false ->
      UTF16.occurs UTF16.colon expiryStr = false ->
      UTF16.occurs UTF16.colon signature = false ->
      UTF16.candidate req =
        UTF16.Str (nonce ++ UTF16.colon :: expiryStr
                         ++ UTF16.colon :: signature)%list ->
      (UTF16.verifyCsrfToken secret now req = Normal Next <->
       Hex.lower (UTF16.low_bytes signature) =
         UTF16.hmac_sha256_hex secret
           (nonce ++ UTF16.colon :: expiryStr)%list /\
       JSNumber.isNaN (UTF16.Number expiryStr) = false /\
       JSNumber.int_gt now (UTF16.Number expiryStr) = false))
  /\
  (forall (secret : UTF16.t) (entropy : nat -> byte) (issued now : Z)
          (req : UTF16.Request),
      0 <= issued <= MAX_TIME ->
      UTF16.candidate req =
        UTF16.Str (UTF16.issueCsrfToken secret issued entropy) ->
      UTF16.verifyCsrfToken secret now req =
      if now <=? issued + CSRF_TOKEN_EXPIRY_MS then Normal Next
      else forbidden).
Proof.
  split.
  - intros secret now req nonce expiryStr signature N E S Nc Ec Sc C.
    rewrite (WideFacts.wide_verify_candidate_string secret now req _ C).
    apply WideFacts.wide_verify_string_accepts with (more := []);
      try assumption.
    apply WideFacts.wide_split_three; assumption.
  - intros secret entropy issued now req R C.
    rewrite (WideFacts.wide_verify_candidate_string secret now req _ C).
    apply WideFacts.wide_verify_issued, R.
Qed.

Lemma token_accepted_iff_witness :
  (UTF16.verifyCsrfToken (UTF16.of_string "test-secret") 1700000000000
     (UTF16.mkRequest None
        (Some (UTF16.mkBody
                 (UTF16.Str
                    (UTF16.of_string "ab:1700001800000:"
                     ++ UTF16.mkUnit "001" "e"
                        :: UTF16.of_string "11c68c65bf63c1cb2ac68187aa1662eed3876a4464022e1c5b7e12fe0084871")%list)
                 UTF16.Undefined)))
   = Normal Next <->
   Hex.lower
     (UTF16.low_bytes
        (UTF16.mkUnit "001" "e"
         :: UTF16.of_string "11c68c65bf63c1cb2ac68187aa1662eed3876a4464022e1c5b7e12fe0084871"))
   = UTF16.hmac_sha256_hex (UTF16.of_string "test-secret")
       (UTF16.of_string "ab" ++ UTF16.colon
          :: UTF16.of_string "1700001800000")%list /\
   JSNumber.isNaN (UTF16.Number (UTF16.of_string "1700001800000")) = false /\
   JSNumber.int_gt 1700000000000
     (UTF16.Number (UTF16.of_string "1700001800000")) = false)
  /\
  UTF16.verifyCsrfToken (UTF16.of_string "test-secret") 1700001800001
    (UTF16.mkRequest None
       (Some (UTF16.mkBody UTF16.Undefined
                (UTF16.Str
                   (UTF16.issueCsrfToken (UTF16.of_string "test-secret")
                      1700000000000 counting_entropy)))))
  = (if 1700001800001 <=? 1700000000000 + CSRF_TOKEN_EXPIRY_MS
     then Normal Next else forbidden).
Proof.
  split.
  - apply (proj1 token_accepted_iff (UTF16.of_string "test-secret")
             1700000000000 _
             (UTF16.of_string "ab") (UTF16.of_string "1700001800000")
             (UTF16.mkUnit "001" "e"
              :: UTF16.of_string "11c68c65bf63c1cb2ac68187aa1662eed3876a4464022e1c5b7e12fe0084871"));
      try discriminate; reflexivity.
  - apply (proj2 token_accepted_iff (UTF16.of_string "test-secret")
             counting_entropy 1700000000000 1700001800001).
    + unfold MAX_TIME. lia.
    + reflexivity.
Defined.

(** C1 as stated fails: the signature below is not the hexadecimal HMAC
    (it is its upper-case form), yet the token is let through. *)
Lemma uppercase_signature_accepted :
  "E11C68C65BF63C1CB2AC68187AA1662EED3876A4464022E1C5B7E12FE0084871"%string <>
    hmac_sha256_hex "test-secret" "ab:1700001800000"
  /\
  verifyCsrfToken "test-secret" 1700000000000
    (mkRequest (Some "ab:1700001800000:E11C68C65BF63C1CB2AC68187AA1662EED3876A4464022E1C5B7E12FE0084871") None)
  = Normal Next.
Proof.
  split.
  - vm_compute. discriminate.
  - vm_compute. reflexivity.
Qed.

(** The request body can carry a signature that holds no hexadecimal
    digit where the digest has [e]: U+0165 is read on its low byte, and
    the token is let through. *)
Example wide_signature_accepted :
  UTF16.verifyCsrfToken (UTF16.of_string "test-secret") 1700000000000
    (UTF16.mkRequest None
       (Some (UTF16.mkBody
                (UTF16.Str
                   (UTF16.of_string "ab:1700001800000:"
                    ++ UTF16.mkUnit "001" "e"
                       :: UTF16.of_string "11c68c65bf63c1cb2ac68187aa1662eed3876a4464022e1c5b7e12fe0084871")%list)
                UTF16.Undefined)))
  = Normal Next.
Proof. vm_compute. reflexivity. Qed.

(** ** C2: how a failed verification is reported *)

(** C2 at the failing input: a signature field of 64 code units that are
    not hexadecimal digits passes the length test of line 60, decodes to
    an empty buffer, and [timingSafeEqual] throws instead of the 403
    being sent. *)
Theorem non_hex_signature_throws :
  verifyCsrfToken "test-secret" 1700000000000
    (mkRequest (Some "ab:1700001800000:zzzzzzzzzzzzzzzzzzzzzzzzzzzzzzzzzzzzzzzzzzzzzzzzzzzzzzzzzzzzzzzz") None)
  = Throw (RangeError "ERR_CRYPTO_TIMING_SAFE_EQUAL_LENGTH").
Proof. vm_compute. reflexivity. Qed.

(** ** C4: candidates without three fields *)

(** C4, as the code has it.  The verifier answers 403 to a candidate
    that is not a string (an absent one is [undefined]) and to a string
    whose first three [:]-delimited fields are not all present and
    non-empty; what follows the third field is not looked at, so two
    candidates with the same first three fields get the same answer. *)
Theorem missing_fields_rejected :
  forall (secret : string) (now : Z) (req : Request),
    (typeof_string (candidate req) = false ->
     verifyCsrfToken secret now req = forbidden)
    /\
    (forall token : string,
        candidate req = Str token ->
        falsy (nth_error (split ":" token) 0)
        || falsy (nth_error (split ":" token) 1)
        || falsy (nth_error (split ":" token) 2) = true ->
        verifyCsrfToken secret now req = forbidden)
    /\
    (forall (token token' : string) (req' : Request),
        candidate req = Str token -> candidate req' = Str token' ->
        firstn 3 (split ":" token) = firstn 3 (split ":" token') ->
        verifyCsrfToken secret now req = verifyCsrfToken secret now req').
Proof.
  intros secret now req. repeat split.
  - intros T. unfold verifyCsrfToken. rewrite T.
    cbn [negb]. rewrite orb_true_r. reflexivity.
  - intros token C F. rewrite (verify_candidate_string secret now req _ C).
    apply verify_string_missing_field, F.
  - intros token token' req' C C' F.
    rewrite (verify_candidate_string secret now req _ C),
            (verify_candidate_string secret now req' _ C').
    apply verify_string_first_three, F.
Qed.

Lemma missing_fields_rejected_witness :
  verifyCsrfToken "test-secret" 1700000000000 (mkRequest None None) = forbidden
  /\
  verifyCsrfToken "test-secret" 1700000000000
    (mkRequest (Some "ab::e11c") None) = forbidden
  /\
  verifyCsrfToken "test-secret" 1700000000000
    (mkRequest (Some "ab:17:e11c:extra") None) =
  verifyCsrfToken "test-secret" 1700000000000
    (mkRequest None (Some (mkBody (Str "ab:17:e11c") Undefined))).
Proof.
  pose proof (missing_fields_rejected "test-secret" 1700000000000) as T.
  split; [|split].
  - apply (proj1 (T _)). reflexivity.
  - apply (proj1 (proj2 (T _)) "ab::e11c"); reflexivity.
  - apply (proj2 (proj2 (T _)) "ab:17:e11c:extra" "ab:17:e11c");
      reflexivity.
Defined.

(** C4 as stated fails: this candidate has three colons, four fields,
    and is let through. *)
Lemma four_field_token_accepted :
  split ":" "ab:1700001800000:e11c68c65bf63c1cb2ac68187aa1662eed3876a4464022e1c5b7e12fe0084871:extra"
  = ["ab"; "1700001800000";
     "e11c68c65bf63c1cb2ac68187aa1662eed3876a4464022e1c5b7e12fe0084871";
     "extra"]
  /\
  verifyCsrfToken "test-secret" 1700000000000
    (mkRequest (Some "ab:1700001800000:e11c68c65bf63c1cb2ac68187aa1662eed3876a4464022e1c5b7e12fe0084871:extra") None)
  = Normal Next.
Proof. split; vm_compute; reflexivity. Qed.

(** ** C5: where the candidate comes from *)

(** C5, as the code has it.  The candidate is the first truthy value
    among the header [x-csrf-token], the body field [_token] and the
    body field [csrfToken]: a non-empty header is the candidate and the
    body is then never looked at; a header that is absent or empty gives
    way to [_token], and a falsy [_token] to [csrfToken]. *)
Theorem candidate_first_truthy :
  forall req : Request,
    (forall h : string,
        x_csrf_token req = Some h -> h <> EmptyString ->
        candidate req = Str h /\
        forall (secret : string) (now : Z) (b : option Body),
          verifyCsrfToken secret now req =
          verifyCsrfToken secret now (mkRequest (Some h) b))
    /\
    (x_csrf_token req = None \/ x_csrf_token req = Some EmptyString ->
     truthy (body_field _token req) = true ->
     candidate req = body_field _token req)
    /\
    (x_csrf_token req = None \/ x_csrf_token req = Some EmptyString ->
     truthy (body_field _token req) = false ->
     candidate req = body_field csrfToken req).
Proof.
  intros [header b]. cbn [x_csrf_token]. split; [|split].
  - intros h -> NE.
    assert (C : candidate (mkRequest (Some h) b) = Str h).
    { unfold candidate, or_else. cbn [x_csrf_token env_value truthy].
      rewrite (nonempty_eqb h NE). cbn [negb truthy].
      rewrite (nonempty_eqb h NE). reflexivity. }
    split; [exact C|].
    intros secret now b'. unfold verifyCsrfToken, candidate, or_else.
    cbn [x_csrf_token env_value truthy]. rewrite (nonempty_eqb h NE).
    cbn [negb truthy]. rewrite (nonempty_eqb h NE). reflexivity.
  - intros H T. unfold candidate, or_else.
    destruct H as [-> | ->]; cbn [x_csrf_token env_value truthy String.eqb negb];
      rewrite T; reflexivity.
  - intros H T. unfold candidate, or_else.
    destruct H as [-> | ->]; cbn [x_csrf_token env_value truthy String.eqb negb];
      rewrite T; reflexivity.
Qed.

Lemma candidate_first_truthy_witness :
  (candidate (mkRequest (Some "from-header")
                (Some (mkBody (Str "from-body") (Str "alternate"))))
   = Str "from-header" /\
   verifyCsrfToken "test-secret" 1700000000000
     (mkRequest (Some "from-header")
        (Some (mkBody (Str "from-body") (Str "alternate")))) =
   verifyCsrfToken "test-secret" 1700000000000
     (mkRequest (Some "from-header") None))
  /\
  candidate (mkRequest (Some "") (Some (mkBody (Str "from-body") (Str "alternate"))))
  = Str "from-body"
  /\
  candidate (mkRequest None (Some (mkBody (Str "") (Str "alternate"))))
  = Str "alternate".
Proof.
  split; [split | split].
  - apply (proj1 (candidate_first_truthy _) "from-header");
      [reflexivity | discriminate].
  - apply (proj1 (candidate_first_truthy
                    (mkRequest (Some "from-header")
                       (Some (mkBody (Str "from-body") (Str "alternate")))))
             "from-header"); [reflexivity | discriminate].
  - apply (proj1 (proj2 (candidate_first_truthy
             (mkRequest (Some "")
                (Some (mkBody (Str "from-body") (Str "alternate"))))))).
    + right. reflexivity.
    + reflexivity.
  - apply (proj2 (proj2 (candidate_first_truthy
             (mkRequest None (Some (mkBody (Str "") (Str "alternate"))))))).
    + left. reflexivity.
    + reflexivity.
Defined.

(** C5 as stated fails: the header is present (it is the empty string),
    yet the candidate is the body field [_token], and the request is let
    through on the strength of it. *)
Lemma empty_header_falls_through :
  x_csrf_token
    (mkRequest (Some "")
       (Some (mkBody (Str "ab:1700001800000:e11c68c65bf63c1cb2ac68187aa1662eed3876a4464022e1c5b7e12fe0084871") Undefined)))
  = Some ""
  /\
  candidate
    (mkRequest (Some "")
       (Some (mkBody (Str "ab:1700001800000:e11c68c65bf63c1cb2ac68187aa1662eed3876a4464022e1c5b7e12fe0084871") Undefined)))
  = Str "ab:1700001800000:e11c68c65bf63c1cb2ac68187aa1662eed3876a4464022e1c5b7e12fe0084871"
  /\
  verifyCsrfToken "test-secret" 1700000000000
    (mkRequest (Some "")
       (Some (mkBody (Str "ab:1700001800000:e11c68c65bf63c1cb2ac68187aa1662eed3876a4464022e1c5b7e12fe0084871") Undefined)))
  = Normal Next.
Proof. repeat split; vm_compute; reflexivity. Qed.

(** ** C6: the expiry field *)

Lemma Number_empty : JSNumber.Number "" = JSNumber.Finite (0 # 1).
Proof. reflexivity. Qed.

(** C6, as the code has it.  A candidate whose expiry field parses to
    [NaN] is never let through, and is answered with the 403 whenever
    the signature field is not one of the 64-unit non-hexadecimal ones
    on which the comparison throws.  An expiry field that parses to
    [Infinity] is a number for line 64: with a signature that matches,
    the token is let through whatever the time. *)
Theorem nan_expiry_rejected :
  forall (secret : string) (now : Z) (req : Request)
         (token nonce expiryStr signature : string) (more : list string),
    candidate req = Str token ->
    split ":" token = nonce :: expiryStr :: signature :: more ->
    (JSNumber.isNaN (JSNumber.Number expiryStr) = true ->
     verifyCsrfToken secret now req <> Normal Next /\
     (String.length signature <> 64%nat \/ Hex.all_hex signature = true ->
      verifyCsrfToken secret now req = forbidden))
    /\
    (JSNumber.Number expiryStr = JSNumber.PosInfinity ->
     nonce <> EmptyString ->
     Hex.lower signature =
       hmac_sha256_hex secret (nonce ++ ":" ++ expiryStr) ->
     verifyCsrfToken secret now req = Normal Next).
Proof.
  intros secret now req token nonce expiryStr signature more C P.
  rewrite (verify_candidate_string secret now req _ C).
  split.
  - intros NaN.
    destruct (String.eqb_spec nonce "") as [N|N];
      [|destruct (String.eqb_spec expiryStr "") as [E|E];
        [|destruct (String.eqb_spec signature "") as [S|S]]].
    1-3: rewrite (verify_string_missing_field secret now token)
           by (rewrite P; subst; cbn [nth_error falsy String.eqb orb];
               rewrite ?orb_true_r; reflexivity);
         split; [discriminate | reflexivity].
    assert (NA : verify_string secret now token <> Normal Next).
    { intros A.
      apply (verify_string_accepts secret now _ _ _ _ _ P N E S) in A.
      destruct A as (_ & A & _). congruence. }
    split; [exact NA|]. intros H.
    destruct (verify_string_outcomes secret now token) as [O | [O | O]];
      [contradiction | exact O |].
    apply (verify_string_throws secret now _ _ _ _ _ _ P N E S) in O.
    destruct O as (_ & L & X). destruct H; congruence.
  - intros Inf N L.
    assert (E : expiryStr <> "").
    { intros ->. rewrite Number_empty in Inf. discriminate Inf. }
    assert (S : signature <> "").
    { intros ->. cbn [Hex.lower] in L.
      pose proof (hmac_hex_length secret (nonce ++ ":" ++ expiryStr)) as HL.
      rewrite <- L in HL. discriminate HL. }
    apply (verify_string_accepts secret now _ _ _ _ _ P N E S).
    rewrite Inf. auto.
Qed.

Lemma nan_expiry_rejected_witness :
  (verifyCsrfToken "test-secret" 1700000000000
     (mkRequest (Some "ab:soon:e11c") None) <> Normal Next /\
   verifyCsrfToken "test-secret" 1700000000000
     (mkRequest (Some "ab:soon:e11c") None) = forbidden)
  /\
  verifyCsrfToken "test-secret" 4102444800000
    (mkRequest (Some "ab:Infinity:26b3b0ac88b798bd87159d89e1c28b3cfaea7b70a535885a664d921b61cde4e7") None)
  = Normal Next.
Proof.
  split.
  - pose proof (proj1 (nan_expiry_rejected "test-secret" 1700000000000
                         (mkRequest (Some "ab:soon:e11c") None)
                         "ab:soon:e11c" "ab" "soon" "e11c" []
                         eq_refl eq_refl) eq_refl) as [A B].
    split; [exact A|]. apply B. left. discriminate.
  - apply (proj2 (nan_expiry_rejected "test-secret" 4102444800000
                    (mkRequest (Some "ab:Infinity:26b3b0ac88b798bd87159d89e1c28b3cfaea7b70a535885a664d921b61cde4e7") None)
                    "ab:Infinity:26b3b0ac88b798bd87159d89e1c28b3cfaea7b70a535885a664d921b61cde4e7"
                    "ab" "Infinity"
                    "26b3b0ac88b798bd87159d89e1c28b3cfaea7b70a535885a664d921b61cde4e7"
                    [] eq_refl eq_refl)).
    + reflexivity.
    + discriminate.
    + vm_compute. reflexivity.
Defined.

(** C6 as stated fails: the expiry field parses to [Infinity], which is
    not a finite number, and the token, correctly signed, is let
    through. *)
Lemma infinite_expiry_accepted :
  JSNumber.Number "Infinity" = JSNumber.PosInfinity
  /\
  JSNumber.is_finite (JSNumber.Number "Infinity") = false
  /\
  verifyCsrfToken "test-secret" 4102444800000
    (mkRequest (Some "ab:Infinity:26b3b0ac88b798bd87159d89e1c28b3cfaea7b70a535885a664d921b61cde4e7") None)
  = Normal Next.
Proof. repeat split; vm_compute; reflexivity. Qed.

(** ** C8: what [issueCsrfToken] returns *)

(** C8.  [issueCsrfToken] returns [nonce:expiry:signature], three
    [:]-delimited fields, where the nonce is the lowercase hexadecimal
    form of the 16 bytes just drawn from [crypto.randomBytes] (32
    digits, 128 bits, from which the bytes can be read back), the expiry
    is the decimal form of the current time plus 30 minutes in
    milliseconds, and the signature is the 64 lowercase hexadecimal
    digits of the HMAC-SHA256 of [nonce:expiry] under the secret. *)
Theorem issued_token_format :
  forall (secret : string) (now : Z) (entropy : nat -> byte),
    0 <= now <= MAX_TIME ->
    let drawn := randomBytes entropy 16 in
    let nonce := Hex.encode drawn in
    let expiry := JSNumber.toString (now + 30 * 60 * 1000) in
    let signature := hmac_sha256_hex secret (nonce ++ ":" ++ expiry) in
    issueCsrfToken secret now entropy =
      nonce ++ ":" ++ expiry ++ ":" ++ signature
    /\ split ":" (issueCsrfToken secret now entropy) =
         [nonce; expiry; signature]
    /\ List.length drawn = 16%nat
    /\ String.length nonce = 32%nat
    /\ Hex.all_lower_hex nonce = true
    /\ Hex.decode nonce = drawn
    /\ JSNumber.all_decimal_digits expiry = true
    /\ JSNumber.Number expiry = JSNumber.of_Z (now + 30 * 60 * 1000)
    /\ String.length signature = 64%nat
    /\ Hex.all_lower_hex signature = true.
Proof.
  intros secret now entropy R drawn nonce expiry signature.
  split; [apply (issued_shape secret entropy now)|].
  split; [apply (issued_fields secret entropy now R)|].
  split; [apply randomBytes_length|].
  split; [apply issued_nonce_length|].
  split; [apply HexFacts.all_lower_hex_encode|].
  split; [apply HexFacts.decode_encode|].
  split; [apply (issued_expiry_digits now R)|].
  split; [apply NumberFacts.Number_toString, (expiry_range now R)|].
  split; [apply hmac_hex_length | apply hmac_hex_lower].
Qed.

Lemma issued_token_format_witness :
  issueCsrfToken "test-secret" 1700000000000 counting_entropy =
    "000102030405060708090a0b0c0d0e0f:1700001800000:7d39fe06f38327ed7922f167213e30050374b023fcfffca9aba23f4bc450f294"
  /\ String.length (Hex.encode (randomBytes counting_entropy 16)) = 32%nat.
Proof.
  assert (R : 0 <= 1700000000000 <= MAX_TIME) by (unfold MAX_TIME; lia).
  pose proof (issued_token_format "test-secret" 1700000000000
                counting_entropy R) as T.
  cbv zeta in T. destruct T as (T1 & _ & _ & T4 & _).
  split.
  - rewrite T1. vm_compute. reflexivity.
  - exact T4.
Defined.

(** ** C9: the secret at start-up *)

(** C9.  When [CSRF_SECRET] is absent from the environment (or empty),
    start-up throws if [NODE_ENV] is [production]; otherwise the secret
    is the hexadecimal form of 32 freshly drawn bytes and the message is
    passed to [console.warn].  Whenever a production process does start,
    its secret is the non-empty one the environment supplied and nothing
    was generated. *)
Theorem missing_secret_startup :
  forall (env : Env) (entropy : nat -> byte),
    (env_CSRF_SECRET env = None \/ env_CSRF_SECRET env = Some EmptyString ->
     (env_NODE_ENV env = Some "production" ->
      startup env entropy = Throw (Error secret_message)) /\
     (env_NODE_ENV env <> Some "production" ->
      startup env entropy =
      Normal (mkProcess false (Hex.encode (randomBytes entropy 32))
                [secret_message])))
    /\
    (forall p : Process,
        startup env entropy = Normal p -> isProduction p = true ->
        env_CSRF_SECRET env = Some (CSRF_SECRET p) /\
        CSRF_SECRET p <> EmptyString /\ warnings p = []).
Proof.
  intros [node_env secret_var] entropy. cbn [env_NODE_ENV env_CSRF_SECRET].
  split.
  - intros A. unfold startup. cbn [env_NODE_ENV env_CSRF_SECRET].
    assert (F : truthy (env_value secret_var) = false)
      by (destruct A as [-> | ->]; reflexivity).
    rewrite F. cbn [negb]. split.
    + intros ->. reflexivity.
    + intros NP.
      assert (P : match node_env with
                  | Some s => String.eqb s "production"
                  | None => false
                  end = false).
      { destruct node_env as [s|]; [|reflexivity].
        apply String.eqb_neq. congruence. }
      rewrite P. destruct A as [-> | ->]; reflexivity.
  - intros p. unfold startup. cbn [env_NODE_ENV env_CSRF_SECRET].
    destruct secret_var as [s|]; cbn [env_value truthy negb].
    + destruct (String.eqb_spec s "") as [->|NE]; cbn [negb].
      * destruct (match node_env with Some _ => _ | None => _ end);
          [discriminate|].
        intros H; injection H as <-. discriminate.
      * intros H; injection H as <-. cbn [isProduction CSRF_SECRET warnings].
        auto.
    + destruct (match node_env with Some _ => _ | None => _ end);
        [discriminate|].
      intros H; injection H as <-. discriminate.
Qed.

Lemma missing_secret_startup_witness :
  startup (mkEnv (Some "production") None) counting_entropy =
    Throw (Error secret_message)
  /\
  startup (mkEnv (Some "development") None) counting_entropy =
    Normal (mkProcess false (Hex.encode (randomBytes counting_entropy 32))
              [secret_message])
  /\
  (Some "from-env" = Some (CSRF_SECRET (mkProcess true "from-env" [])) /\
   CSRF_SECRET (mkProcess true "from-env" []) <> EmptyString /\
   warnings (mkProcess true "from-env" []) = []).
Proof.
  split; [|split].
  - apply (proj1 (proj1 (missing_secret_startup
                           (mkEnv (Some "production") None) counting_entropy)
                    (or_introl eq_refl))).
    reflexivity.
  - apply (proj2 (proj1 (missing_secret_startup
                           (mkEnv (Some "development") None) counting_entropy)
                    (or_introl eq_refl))).
    discriminate.
  - apply (proj2 (missing_secret_startup
                    (mkEnv (Some "production") (Some "from-env"))
                    counting_entropy)
             (mkProcess true "from-env" [])); reflexivity.
Defined.

(** ** The client rate limiter *)

Module RateLimitFacts.
Import rateLimit.

Lemma attempts_after_reset (now : Z) (this : State) :
  reset_fires now this = true -> window_reset now this = mkState 0 now.
Proof. unfold window_reset. intros ->. reflexivity. Qed.

Lemma no_reset (now : Z) (this : State) :
  reset_fires now this = false -> window_reset now this = this.
Proof. unfold window_reset. intros ->. reflexivity. Qed.

Lemma reset_fires_iff (now : Z) (this : State) :
  reset_fires now this = true <-> 60000 < now - lastAttempt this.
Proof. unfold reset_fires. apply Z.ltb_lt. Qed.

(** A call made more than 60 seconds after [lastAttempt] starts a new
    window and is allowed. *)
Lemma check_after_window (now : Z) (this : State) :
  60000 < now - lastAttempt this ->
  check now this = mkOutcome true None (mkState 1 now).
Proof.
  intros H. apply reset_fires_iff in H. unfold check.
  rewrite (attempts_after_reset _ _ H). reflexivity.
Qed.

(** A call within 60 seconds of [lastAttempt] is allowed while fewer
    than five attempts are recorded, and counted. *)
Lemma check_within_window (now : Z) (this : State) :
  now - lastAttempt this <= 60000 -> attempts this < 5 ->
  check now this = mkOutcome true None (mkState (attempts this + 1) now).
Proof.
  intros H A. unfold check.
  rewrite no_reset by (unfold reset_fires; apply Z.ltb_ge; exact H).
  destruct (Z.leb_spec 5 (attempts this)); [lia | reflexivity].
Qed.

(** ... and refused, with the counter as it was, once five are. *)
Lemma check_blocked (now : Z) (this : State) :
  now - lastAttempt this <= 60000 -> 5 <= attempts this ->
  check now this = mkOutcome false (Some too_many) this.
Proof.
  intros H A. unfold check.
  rewrite no_reset by (unfold reset_fires; apply Z.ltb_ge; exact H).
  destruct (Z.leb_spec 5 (attempts this)); [reflexivity | lia].
Qed.

(** A refused call changed nothing, and the reset had not fired. *)
Lemma refused_unchanged (now : Z) (this : State) :
  returned (check now this) = false ->
  after (check now this) = this /\ reset_fires now this = false.
Proof.
  unfold check, window_reset.
  destruct (reset_fires now this); cbn [attempts Z.leb Z.compare returned].
  - discriminate.
  - destruct (5 <=? attempts this); cbn [returned after]; [auto | discriminate].
Qed.

(** [lastAttempt] after a call: the time of the call when it was
    allowed, the former value when it was refused. *)
Lemma lastAttempt_after (now : Z) (this : State) :
  lastAttempt (after (check now this)) =
  if returned (check now this) then now else lastAttempt this.
Proof.
  unfold check, window_reset.
  destruct (reset_fires now this); cbn [attempts Z.leb Z.compare returned after lastAttempt].
  - reflexivity.
  - destruct (5 <=? attempts this); reflexivity.
Qed.

Lemma run_cons (now : Z) (later : list Z) (this : State) :
  run (now :: later) this =
  (returned (check now this) :: fst (run later (after (check now this))),
   snd (run later (after (check now this)))).
Proof. cbn [run]. destruct (run later _). reflexivity. Qed.

Lemma run_lastAttempt (times : list Z) : forall this : State,
  lastAttempt (snd (run times this)) =
  last_allowed times (fst (run times this)) (lastAttempt this).
Proof.
  induction times as [|now later IH]; intros this; [reflexivity|].
  rewrite run_cons. cbn [fst snd last_allowed].
  rewrite IH, lastAttempt_after. reflexivity.
Qed.

(** Refused calls leave the counter where it was, however many. *)
Lemma run_refused (times : list Z) : forall this : State,
  fst (run times this) = repeat false (List.length times) ->
  snd (run times this) = this.
Proof.
  induction times as [|now later IH]; intros this; [reflexivity|].
  rewrite run_cons. cbn [fst snd List.length repeat].
  intros H. injection H as R Rest.
  destruct (refused_unchanged now this R) as [U _].
  rewrite U in *. apply IH, Rest.
Qed.

End RateLimitFacts.

(** ** C3: five calls, then a refusal, then a new window *)

(** C3.  From the fresh counter, five calls made within one 60-second
    window return [true]; a sixth in the same window returns [false] and
    leaves [attempts] at 5; a call made more than 60 seconds later
    returns [true] and leaves [attempts] at 1. *)
Theorem five_then_blocked :
  forall t1 t2 t3 t4 t5 t6 t7 : Z,
    t1 <= t2 -> t2 <= t3 -> t3 <= t4 -> t4 <= t5 -> t5 <= t6 ->
    t6 - t1 <= 60000 ->
    60000 < t7 - t6 ->
    fst (rateLimit.run [t1; t2; t3; t4; t5; t6; t7] rateLimit.initial) =
      [true; true; true; true; true; false; true]
    /\ rateLimit.attempts
         (snd (rateLimit.run [t1; t2; t3; t4; t5] rateLimit.initial)) = 5
    /\ rateLimit.attempts
         (snd (rateLimit.run [t1; t2; t3; t4; t5; t6] rateLimit.initial)) = 5
    /\ rateLimit.attempts
         (snd (rateLimit.run [t1; t2; t3; t4; t5; t6; t7] rateLimit.initial))
       = 1.
Proof.
  intros t1 t2 t3 t4 t5 t6 t7 H12 H23 H34 H45 H56 W Later.
  assert (First : rateLimit.check t1 rateLimit.initial =
                  rateLimit.mkOutcome true None (rateLimit.mkState 1 t1)).
  { destruct (Z.lt_ge_cases 60000 (t1 - 0)) as [A|A].
    - apply RateLimitFacts.check_after_window. exact A.
    - apply RateLimitFacts.check_within_window; cbn; lia. }
  rewrite !RateLimitFacts.run_cons. cbn [rateLimit.run fst snd].
  rewrite First. cbn [rateLimit.after rateLimit.returned].
  rewrite (RateLimitFacts.check_within_window t2) by (cbn; lia).
  cbn [rateLimit.after rateLimit.returned rateLimit.attempts Z.add Pos.add Pos.succ].
  rewrite (RateLimitFacts.check_within_window t3) by (cbn; lia).
  cbn [rateLimit.after rateLimit.returned rateLimit.attempts Z.add Pos.add Pos.succ].
  rewrite (RateLimitFacts.check_within_window t4) by (cbn; lia).
  cbn [rateLimit.after rateLimit.returned rateLimit.attempts Z.add Pos.add Pos.succ].
  rewrite (RateLimitFacts.check_within_window t5) by (cbn; lia).
  cbn [rateLimit.after rateLimit.returned rateLimit.attempts Z.add Pos.add Pos.succ].
  rewrite (RateLimitFacts.check_blocked t6) by (cbn; lia).
  cbn [rateLimit.after rateLimit.returned rateLimit.attempts].
  rewrite (RateLimitFacts.check_after_window t7) by (cbn; lia).
  cbn [rateLimit.after rateLimit.returned rateLimit.attempts].
  auto.
Qed.

Lemma five_then_blocked_witness :
  fst (rateLimit.run [1000; 2000; 3000; 4000; 5000; 6000; 66001]
         rateLimit.initial) =
    [true; true; true; true; true; false; true]
  /\ rateLimit.attempts
       (snd (rateLimit.run [1000; 2000; 3000; 4000; 5000] rateLimit.initial))
     = 5
  /\ rateLimit.attempts
       (snd (rateLimit.run [1000; 2000; 3000; 4000; 5000; 6000]
               rateLimit.initial)) = 5
  /\ rateLimit.attempts
       (snd (rateLimit.run [1000; 2000; 3000; 4000; 5000; 6000; 66001]
               rateLimit.initial)) = 1.
Proof.
  apply (five_then_blocked 1000 2000 3000 4000 5000 6000 66001); lia.
Defined.

(** ** C7: when the counter is reset *)

(** C7, as the code has it.  After any sequence of calls from the fresh
    counter, [lastAttempt] is the time of the last call that returned
    [true] (0 when there was none), and the next call resets [attempts]
    to 0 exactly when more than 60 seconds have passed since
    [lastAttempt]: it then returns [true] and leaves [attempts] at 1.
    Otherwise nothing is reset: the call is refused and leaves the
    counter as it was when five attempts are recorded, it is allowed
    and counted when fewer are, and [attempts] does not go down. *)
Theorem reset_after_last_attempt :
  forall (times : list Z) (now : Z),
    let this := snd (rateLimit.run times rateLimit.initial) in
    rateLimit.lastAttempt this =
      rateLimit.last_allowed times
        (fst (rateLimit.run times rateLimit.initial)) 0
    /\
    (60000 < now - rateLimit.lastAttempt this ->
     rateLimit.attempts (rateLimit.window_reset now this) = 0 /\
     rateLimit.check now this =
       rateLimit.mkOutcome true None (rateLimit.mkState 1 now))
    /\
    (now - rateLimit.lastAttempt this <= 60000 ->
     rateLimit.window_reset now this = this /\
     rateLimit.check now this =
       (if 5 <=? rateLimit.attempts this
        then rateLimit.mkOutcome false (Some rateLimit.too_many) this
        else rateLimit.mkOutcome true None
               (rateLimit.mkState (rateLimit.attempts this + 1) now)) /\
     rateLimit.attempts this
       <= rateLimit.attempts (rateLimit.after (rateLimit.check now this))).
Proof.
  intros times now this. split; [|split].
  - apply (RateLimitFacts.run_lastAttempt times rateLimit.initial).
  - intros H. split.
    + rewrite RateLimitFacts.attempts_after_reset; [reflexivity|].
      apply RateLimitFacts.reset_fires_iff, H.
    + apply RateLimitFacts.check_after_window, H.
  - intros H.
    assert (R : rateLimit.window_reset now this = this).
    { apply RateLimitFacts.no_reset.
      unfold rateLimit.reset_fires. apply Z.ltb_ge, H. }
    split; [exact R|]. unfold rateLimit.check. rewrite R.
    destruct (5 <=? rateLimit.attempts this);
      cbn [rateLimit.after rateLimit.attempts]; split; (reflexivity || lia).
Qed.

Lemma reset_after_last_attempt_witness :
  (rateLimit.lastAttempt
     (snd (rateLimit.run [100000; 150000] rateLimit.initial)) =
   rateLimit.last_allowed [100000; 150000]
     (fst (rateLimit.run [100000; 150000] rateLimit.initial)) 0
   /\
   rateLimit.attempts
     (rateLimit.window_reset 210001
        (snd (rateLimit.run [100000; 150000] rateLimit.initial))) = 0
   /\
   rateLimit.check 210001
     (snd (rateLimit.run [100000; 150000] rateLimit.initial)) =
   rateLimit.mkOutcome true None (rateLimit.mkState 1 210001))
  /\
  rateLimit.window_reset 170000
    (snd (rateLimit.run [100000; 150000] rateLimit.initial)) =
  snd (rateLimit.run [100000; 150000] rateLimit.initial)
  /\
  rateLimit.check 170000
    (snd (rateLimit.run [100000; 150000] rateLimit.initial)) =
  (if 5 <=? rateLimit.attempts
              (snd (rateLimit.run [100000; 150000] rateLimit.initial))
   then rateLimit.mkOutcome false (Some rateLimit.too_many)
          (snd (rateLimit.run [100000; 150000] rateLimit.initial))
   else rateLimit.mkOutcome true None
          (rateLimit.mkState
             (rateLimit.attempts
                (snd (rateLimit.run [100000; 150000] rateLimit.initial)) + 1)
             170000))
  /\
  rateLimit.attempts (snd (rateLimit.run [100000; 150000] rateLimit.initial))
  <= rateLimit.attempts
       (rateLimit.after
          (rateLimit.check 170000
             (snd (rateLimit.run [100000; 150000] rateLimit.initial)))).
Proof.
  split.
  - pose proof (reset_after_last_attempt [100000; 150000] 210001) as T.
    cbv zeta in T. destruct T as (A & B & _).
    split; [exact A|]. apply B. vm_compute. reflexivity.
  - pose proof (reset_after_last_attempt [100000; 150000] 170000) as T.
    cbv zeta in T. destruct T as (_ & _ & C).
    apply C. vm_compute. discriminate.
Defined.

(** C7 as stated fails.  After calls at 100 s and 150 s the window
    started at 100 s; at 170 s more than 60 seconds have passed since
    that start, yet the reset does not fire and the call is counted as
    the third attempt of the window. *)
Lemma window_start_not_consulted :
  rateLimit.windowStart
    (rateLimit.tracked_run [100000; 150000] rateLimit.tracked_initial)
  = 100000
  /\
  60000 < 170000 - rateLimit.windowStart
                     (rateLimit.tracked_run [100000; 150000]
                        rateLimit.tracked_initial)
  /\
  rateLimit.attempts
    (rateLimit.window_reset 170000
       (rateLimit.counter
          (rateLimit.tracked_run [100000; 150000] rateLimit.tracked_initial)))
  = 2
  /\
  rateLimit.attempts
    (rateLimit.counter
       (rateLimit.tracked_run [100000; 150000; 170000]
          rateLimit.tracked_initial))
  = 3.
Proof. repeat split; vm_compute; reflexivity. Qed.

(** ** C10: a refused call changes nothing *)

(** C10.  A call that returns [false] leaves [attempts] and
    [lastAttempt] as they were (and the reset had not fired).  Hence
    after an allowed call at time [t], whatever refused calls follow,
    the counter still holds [t] as [lastAttempt]: a call made more
    than 60 seconds after [t] is allowed, and a call made up to 60
    seconds after [t] is refused when five attempts are recorded. *)
Theorem refused_call_changes_nothing :
  forall (this : rateLimit.State) (now : Z),
    (rateLimit.returned (rateLimit.check now this) = false ->
     rateLimit.after (rateLimit.check now this) = this /\
     rateLimit.reset_fires now this = false)
    /\
    (forall (refused : list Z) (later : Z),
        rateLimit.returned (rateLimit.check now this) = true ->
        let locked := rateLimit.after (rateLimit.check now this) in
        fst (rateLimit.run refused locked) =
          repeat false (List.length refused) ->
        snd (rateLimit.run refused locked) = locked /\
        rateLimit.lastAttempt locked = now /\
        (60000 < later - now ->
         rateLimit.returned
           (rateLimit.check later (snd (rateLimit.run refused locked)))
         = true) /\
        (later - now <= 60000 -> 5 <= rateLimit.attempts locked ->
         rateLimit.returned
           (rateLimit.check later (snd (rateLimit.run refused locked)))
         = false)).
Proof.
  intros this now. split.
  - apply RateLimitFacts.refused_unchanged.
  - intros refused later Allowed locked Refused.
    pose proof (RateLimitFacts.run_refused refused locked Refused) as U.
    assert (L : rateLimit.lastAttempt locked = now).
    { unfold locked. rewrite RateLimitFacts.lastAttempt_after, Allowed.
      reflexivity. }
    split; [exact U|]. split; [exact L|]. split.
    + intros H. rewrite U, RateLimitFacts.check_after_window by lia.
      reflexivity.
    + intros H A. rewrite U, RateLimitFacts.check_blocked by lia.
      reflexivity.
Qed.

Lemma refused_call_changes_nothing_witness :
  (rateLimit.after (rateLimit.check 6000 (rateLimit.mkState 5 5000)) =
     rateLimit.mkState 5 5000 /\
   rateLimit.reset_fires 6000 (rateLimit.mkState 5 5000) = false)
  /\
  (snd (rateLimit.run [6000; 30000; 65000]
          (rateLimit.after (rateLimit.check 5000 (rateLimit.mkState 4 4000))))
   = rateLimit.after (rateLimit.check 5000 (rateLimit.mkState 4 4000)) /\
   rateLimit.lastAttempt
     (rateLimit.after (rateLimit.check 5000 (rateLimit.mkState 4 4000)))
   = 5000 /\
   rateLimit.returned
     (rateLimit.check 65001
        (snd (rateLimit.run [6000; 30000; 65000]
                (rateLimit.after
                   (rateLimit.check 5000 (rateLimit.mkState 4 4000))))))
   = true /\
   rateLimit.returned
     (rateLimit.check 65000
        (snd (rateLimit.run [6000; 30000; 65000]
                (rateLimit.after
                   (rateLimit.check 5000 (rateLimit.mkState 4 4000))))))
   = false).
Proof.
  split.
  - apply (proj1 (refused_call_changes_nothing
                    (rateLimit.mkState 5 5000) 6000)).
    reflexivity.
  - pose proof (proj2 (refused_call_changes_nothing
                         (rateLimit.mkState 4 4000) 5000)
                  [6000; 30000; 65000] 65001 eq_refl) as T.
    cbv zeta in T. destruct (T eq_refl) as (A & B & C & _).
    pose proof (proj2 (refused_call_changes_nothing
                         (rateLimit.mkState 4 4000) 5000)
                  [6000; 30000; 65000] 65000 eq_refl) as T'.
    cbv zeta in T'. destruct (T' eq_refl) as (_ & _ & _ & D).
    split; [exact A|]. split; [exact B|]. split.
    + apply C. lia.
    + apply D; [lia | vm_compute; discriminate].
Defined.

(* ================================================================== *)
(** * Part III: the other helpers of the cited files *)
(* ================================================================== *)

From Stdlib Require Import Lqa.

(** ** Strings *)

Lemma string_length_app (a b : string) :
  String.length (a ++ b) = (String.length a + String.length b)%nat.
Proof. induction a as [|c a IH]; cbn; [reflexivity | now rewrite IH]. Qed.

Lemma occurs_app (c : ascii) (a b : string) :
  occurs c (a ++ b) = occurs c a || occurs c b.
Proof.
  induction a as [|d a IH]; cbn [append occurs]; [reflexivity|].
  rewrite IH. apply orb_assoc.
Qed.

Lemma repeat_char_length (c : ascii) (n : nat) :
  String.length (repeat_char c n) = n.
Proof. induction n as [|n IH]; cbn; [reflexivity | now rewrite IH]. Qed.

Lemma padStart_length (n : nat) (c : ascii) (s : string) :
  String.length (padStart n c s) = Nat.max n (String.length s).
Proof.
  unfold padStart. rewrite string_length_app, repeat_char_length. lia.
Qed.

Lemma occurs_repeat_char (c d : ascii) (n : nat) :
  Ascii.eqb d c = false -> occurs c (repeat_char d n) = false.
Proof.
  intros H. induction n as [|n IH]; cbn [repeat_char occurs]; [reflexivity|].
  rewrite H, IH. reflexivity.
Qed.

Lemma all_digits_app (a b : string) :
  JSNumber.all_decimal_digits (a ++ b) =
  JSNumber.all_decimal_digits a && JSNumber.all_decimal_digits b.
Proof.
  induction a as [|c a IH]; cbn [append JSNumber.all_decimal_digits];
    [reflexivity|].
  rewrite IH. apply andb_assoc.
Qed.

Lemma all_digits_repeat_zero (n : nat) :
  JSNumber.all_decimal_digits (repeat_char "0" n) = true.
Proof. induction n as [|n IH]; [reflexivity | exact IH]. Qed.

(** The decimal form of an integer holds digits and at most a leading
    minus sign: no [/], no [-] when the integer is not negative. *)
Lemma uint_no_char (c : ascii) (d : Decimal.uint) :
  JSNumber.is_decimal_digit c = false ->
  occurs c (NilEmpty.string_of_uint d) = false.
Proof.
  intros H.
  assert (E : forall x, JSNumber.is_decimal_digit x = true ->
                        Ascii.eqb x c = false).
  { intros x Hx. destruct (Ascii.eqb_spec x c) as [->|]; congruence. }
  induction d; cbn [NilEmpty.string_of_uint occurs]; try reflexivity;
    rewrite IHd, E by reflexivity; reflexivity.
Qed.

Lemma toString_no_char (c : ascii) (n : Z) :
  JSNumber.is_decimal_digit c = false -> Ascii.eqb "-" c = false ->
  occurs c (JSNumber.toString n) = false.
Proof.
  intros H M. unfold JSNumber.toString.
  assert (U : forall d, occurs c (NilZero.string_of_uint d) = false).
  { intros d. unfold NilZero.string_of_uint.
    pose proof (uint_no_char c d H) as E.
    destruct d; try exact E.
    cbn [occurs].
    destruct (Ascii.eqb_spec "0" c) as [<-|]; [discriminate H | reflexivity]. }
  destruct (Z.to_int n) as [d|d]; cbn [NilZero.string_of_int occurs].
  - apply U.
  - rewrite M, U. reflexivity.
Qed.

Lemma toString_nonempty (n : Z) : JSNumber.toString n <> EmptyString.
Proof.
  unfold JSNumber.toString.
  assert (U : forall d, NilZero.string_of_uint d <> EmptyString).
  { intros d. unfold NilZero.string_of_uint. destruct d; discriminate. }
  destruct (Z.to_int n) as [d|d]; cbn [NilZero.string_of_int];
    [apply U | discriminate].
Qed.

Lemma padStart_nonempty (n : nat) (c : ascii) (s : string) :
  s <> EmptyString -> padStart n c s <> EmptyString.
Proof.
  intros H E. apply (f_equal String.length) in E.
  rewrite padStart_length in E. destruct s; [contradiction | cbn in E; lia].
Qed.

Lemma padStart_no_char (n : nat) (c d : ascii) (s : string) :
  Ascii.eqb d c = false -> occurs c s = false ->
  occurs c (padStart n d s) = false.
Proof.
  intros H S. unfold padStart.
  rewrite occurs_app, (occurs_repeat_char c d _ H), S. reflexivity.
Qed.

(** ** [getDateComponents] and [getCurrentDate] *)

Lemma nonempty_length (s : string) :
  (String.length s =? 0)%nat = false <-> s <> EmptyString.
Proof.
  destruct s; cbn; split; intros H; try congruence; discriminate.
Qed.

(** X1.  [getDateComponents] answers all or nothing: either the three
    fields are empty, or the argument is a string whose first three
    [/]-delimited fields are non-empty and are the three fields
    returned; what follows a third [/] is ignored. *)
Theorem getDateComponents_all_or_nothing :
  forall v : Value,
    utils.getDateComponents v = utils.mkDateComponents "" "" ""
    \/
    exists (s d m y : string) (more : list string),
      v = Str s /\ split "/" s = d :: m :: y :: more /\
      d <> "" /\ m <> "" /\ y <> "" /\
      utils.getDateComponents v = utils.mkDateComponents d m y.
Proof.
  intros v. unfold utils.getDateComponents.
  destruct (negb (truthy v) || negb (typeof_string v)); [left; reflexivity|].
  destruct v as [| | | |s|]; try (left; reflexivity).
  destruct (split "/" s) as [|d [|m [|y more]]] eqn:P;
    cbn [nth_error utils.or_empty String.length Nat.eqb orb];
    try (left; rewrite ?orb_true_r; reflexivity).
  destruct (String.length d =? 0)%nat eqn:D; [left; reflexivity|].
  destruct (String.length m =? 0)%nat eqn:M; [left; reflexivity|].
  destruct (String.length y =? 0)%nat eqn:Y; [left; reflexivity|].
  right. exists s, d, m, y, more. cbn [orb].
  apply nonempty_length in D, M, Y. auto 10.
Qed.

(** X2.  Round trip: the date [getCurrentDate] prints is split by
    [getDateComponents] into the day and the month on two digits and
    the year, whatever the date. *)
Theorem getDateComponents_getCurrentDate :
  forall now : utils.LocalDate,
    utils.getDateComponents (Str (utils.getCurrentDate now)) =
    utils.mkDateComponents
      (utils.pad2 (utils.getDate now))
      (utils.pad2 (utils.getMonth now + 1))
      (JSNumber.toString (utils.getFullYear now)).
Proof.
  intros now.
  set (d := utils.pad2 (utils.getDate now)).
  set (m := utils.pad2 (utils.getMonth now + 1)).
  set (y := JSNumber.toString (utils.getFullYear now)).
  assert (Hd : d <> "" /\ occurs "/" d = false).
  { split; [apply padStart_nonempty, toString_nonempty|].
    apply padStart_no_char; [reflexivity|].
    apply toString_no_char; reflexivity. }
  assert (Hm : m <> "" /\ occurs "/" m = false).
  { split; [apply padStart_nonempty, toString_nonempty|].
    apply padStart_no_char; [reflexivity|].
    apply toString_no_char; reflexivity. }
  assert (Hy : y <> "" /\ occurs "/" y = false).
  { split; [apply toString_nonempty | apply toString_no_char; reflexivity]. }
  assert (P : split "/" (utils.getCurrentDate now) = [d; m; y]).
  { unfold utils.getCurrentDate. fold d. fold m. fold y.
    change ("/" ++ m ++ "/" ++ y) with (String "/" (m ++ String "/" y)).
    rewrite (split_field _ _ _ (proj2 Hd)), (split_field _ _ _ (proj2 Hm)),
            (split_none _ _ (proj2 Hy)). reflexivity. }
  unfold utils.getDateComponents.
  assert (NE : utils.getCurrentDate now <> "").
  { intros E. rewrite E in P. discriminate P. }
  cbn [truthy typeof_string negb orb]. rewrite (nonempty_eqb _ NE).
  cbn [negb]. rewrite P. cbn [nth_error utils.or_empty].
  rewrite (proj2 (nonempty_length d) (proj1 Hd)),
          (proj2 (nonempty_length m) (proj1 Hm)),
          (proj2 (nonempty_length y) (proj1 Hy)).
  reflexivity.
Qed.

(** ** [validateIdNumber] *)

Lemma substring_prefix (a b : string) :
  String.substring 0 (String.length a) (a ++ b) = a.
Proof. induction a as [|c a IH]; cbn; [destruct b; reflexivity | now rewrite IH]. Qed.

Lemma substring_split (n : nat) : forall s : string,
  (n <= String.length s)%nat ->
  exists a b : string, s = a ++ b /\ String.length a = n.
Proof.
  induction n as [|n IH]; intros s L.
  - exists "", s. split; reflexivity.
  - destruct s as [|c s]; [cbn in L; lia|].
    destruct (IH s) as (a & b & -> & La); [cbn in L; lia|].
    exists (String c a), b. split; [reflexivity | cbn; now rewrite La].
Qed.

Lemma provinceCodes_shape :
  forall p : string, In p shared.provinceCodes ->
    String.length p = 3%nat /\ JSNumber.all_decimal_digits p = true.
Proof.
  assert (F : forallb (fun p => (String.length p =? 3)%nat
                                && JSNumber.all_decimal_digits p)
                shared.provinceCodes = true) by reflexivity.
  intros p Hp. rewrite forallb_forall in F. specialize (F p Hp).
  apply andb_true_iff in F as [L D]. apply Nat.eqb_eq in L. auto.
Qed.

(** X3.  [validateIdNumber] accepts exactly the strings made of one of
    the 63 listed province codes followed by nine decimal digits: the
    last nine digits are free, and nothing else (a shorter or longer
    string, a space or a letter anywhere) is accepted. *)
Theorem validateIdNumber_iff :
  forall idNumber : string,
    shared.validateIdNumber idNumber = true <->
    exists code rest : string,
      idNumber = code ++ rest /\ In code shared.provinceCodes /\
      String.length rest = 9%nat /\ JSNumber.all_decimal_digits rest = true.
Proof.
  intros s. unfold shared.validateIdNumber. split.
  - intros H. apply andb_true_iff in H as [H E].
    apply andb_true_iff in H as [L D]. apply Nat.eqb_eq in L.
    destruct (substring_split 3 s) as (a & b & -> & La); [lia|].
    rewrite <- La, substring_prefix in E.
    apply existsb_exists in E as (p & Hp & Ep). apply String.eqb_eq in Ep.
    subst p. rewrite all_digits_app in D. apply andb_true_iff in D as [_ Db].
    rewrite string_length_app in L.
    exists a, b. repeat split; [exact Hp | lia | exact Db].
  - intros (code & rest & -> & Hp & L & D).
    destruct (provinceCodes_shape code Hp) as [Lc Dc].
    rewrite string_length_app, Lc, L, all_digits_app, Dc, D.
    cbn [Nat.add Nat.eqb andb].
    rewrite <- Lc, substring_prefix.
    apply existsb_exists. exists code. split; [exact Hp | apply String.eqb_refl].
Qed.

(** ** The mock backend *)

Section BackendFacts.
Variable Data : Type.
Variable cfg : shared.Security.

Lemma unexpired_earlier (T now now' : Z) (app : shared.Application Data) :
  now <= now' ->
  shared.unexpired Data T now' app = true ->
  shared.unexpired Data T now app = true.
Proof.
  unfold shared.unexpired. intros H.
  destruct (shared.timestamp Data app) as [t|]; [|discriminate].
  intros E. apply andb_true_iff in E as [Z0 L]. apply Z.ltb_lt in L.
  rewrite Z0. apply Z.ltb_lt. lia.
Qed.

Lemma filter_filter_implied {A : Type} (P Q : A -> bool) (l : list A) :
  (forall x, Q x = true -> P x = true) ->
  filter Q (filter P l) = filter Q l.
Proof.
  intros H. induction l as [|x l IH]; [reflexivity|]. cbn [filter].
  destruct (P x) eqn:Px; cbn [filter].
  - rewrite IH. reflexivity.
  - destruct (Q x) eqn:Qx; [|exact IH].
    apply H in Qx. congruence.
Qed.

End BackendFacts.

(** X4.  Clearing the expired sessions twice, the second time no
    earlier than the first, leaves the backend (the list in memory and
    what is stored) exactly as clearing once at the later time: in
    particular clearing is idempotent, and an application that was
    dropped never comes back. *)
Theorem clearExpiredSessions_twice :
  forall (Data : Type) (cfg : shared.Security) (now now' : Z)
         (this : shared.Backend Data),
    now <= now' ->
    shared.clearExpiredSessions Data cfg now'
      (shared.clearExpiredSessions Data cfg now this) =
    shared.clearExpiredSessions Data cfg now' this.
Proof.
  intros Data cfg now now' this H.
  unfold shared.clearExpiredSessions. cbn [shared.applications].
  rewrite filter_filter_implied; [reflexivity|].
  intros app. apply unexpired_earlier, H.
Qed.

Lemma clearExpiredSessions_twice_witness :
  shared.clearExpiredSessions string (shared.mkSecurity "k" 30) 2000000
    (shared.clearExpiredSessions string (shared.mkSecurity "k" 30) 1900000
       (shared.mkBackend string
          [shared.mkApplication string "a" (Some 50000);
           shared.mkApplication string "b" (Some 150000);
           shared.mkApplication string "c" (Some 1000000)] None)) =
  shared.clearExpiredSessions string (shared.mkSecurity "k" 30) 2000000
    (shared.mkBackend string
       [shared.mkApplication string "a" (Some 50000);
        shared.mkApplication string "b" (Some 150000);
        shared.mkApplication string "c" (Some 1000000)] None).
Proof.
  apply (clearExpiredSessions_twice string (shared.mkSecurity "k" 30)
           1900000 2000000). lia.
Defined.


(** ** How many digits the decimal form of an integer has *)

Module DigitCount.

Lemma uint_length (d : Decimal.uint) :
  String.length (NilEmpty.string_of_uint d) = Decimal.nb_digits d.
Proof. induction d; cbn; congruence. Qed.

Lemma pow10_step (n : nat) : 10 ^ Z.of_nat (S n) = 10 * 10 ^ Z.of_nat n.
Proof. rewrite Nat2Z.inj_succ, Z.pow_succ_r by lia. reflexivity. Qed.

Lemma pow10_pos (n : nat) : 0 < 10 ^ Z.of_nat n.
Proof. apply Z.pow_pos_nonneg; lia. Qed.

Lemma of_uint_acc_bounds (d : Decimal.uint) : forall acc : positive,
  Z.pos acc * 10 ^ Z.of_nat (Decimal.nb_digits d)
    <= Z.pos (Pos.of_uint_acc d acc)
    < (Z.pos acc + 1) * 10 ^ Z.of_nat (Decimal.nb_digits d).
Proof.
  induction d; intros acc;
    cbn [Pos.of_uint_acc Decimal.nb_digits];
    [change (10 ^ Z.of_nat 0) with 1; lia | ..];
    rewrite pow10_step;
    pose proof (pow10_pos (Decimal.nb_digits d)) as P;
    match goal with
    | |- context [Pos.of_uint_acc d ?a] => specialize (IHd a)
    end; nia.
Qed.

Lemma of_uint_upper (d : Decimal.uint) :
  Z.of_N (Pos.of_uint d) < 10 ^ Z.of_nat (Decimal.nb_digits d).
Proof.
  induction d; cbn [Pos.of_uint Decimal.nb_digits];
    [change (10 ^ Z.of_nat 0) with 1; cbn; lia | ..];
    rewrite pow10_step;
    pose proof (pow10_pos (Decimal.nb_digits d)) as P;
    [ lia | .. ];
    match goal with
    | |- context [Pos.of_uint_acc d ?a] =>
        pose proof (of_uint_acc_bounds d a) as B
    end; cbn [Z.of_N]; lia.
Qed.

Lemma of_uint_lower (d : Decimal.uint) :
  leading_nonzero d ->
  10 ^ Z.of_nat (Decimal.nb_digits d) <= 10 * Z.of_N (Pos.of_uint d).
Proof.
  destruct d; cbn [leading_nonzero]; try contradiction; intros _;
    cbn [Pos.of_uint Decimal.nb_digits Z.of_N];
    rewrite pow10_step;
    pose proof (pow10_pos (Decimal.nb_digits d)) as P;
    match goal with
    | |- context [Pos.of_uint_acc d ?a] =>
        pose proof (of_uint_acc_bounds d a) as B
    end; lia.
Qed.

Lemma to_uint_leading (p : positive) : leading_nonzero (Pos.to_uint p).
Proof.
  pose proof (DecimalN.Unsigned.to_of (Pos.to_uint p)) as U.
  unfold N.of_uint in U. rewrite DecimalPos.Unsigned.of_to in U.
  cbn [N.to_uint] in U.
  pose proof (Unsigned.to_uint_nonnil p) as NN.
  destruct (Pos.to_uint p) as [|l| | | | | | | | |] eqn:E;
    cbn [leading_nonzero]; try exact I; [contradiction|].
  exfalso. unfold Decimal.unorm in U. cbn [Decimal.nzhead] in U.
  pose proof (DecimalFacts.nb_digits_nzhead l) as Len.
  destruct (Decimal.nzhead l) eqn:Z; try discriminate U.
  - injection U as ->. apply (Unsigned.to_uint_nonzero p). exact E.
  - injection U as ->. cbn [Decimal.nb_digits] in Len. lia.
Qed.

(** The decimal form of [n >= 0] has at most [k >= 1] digits exactly
    when [n < 10 ^ k]. *)
Lemma toString_length (n : Z) (k : nat) :
  0 <= n -> (1 <= k)%nat ->
  ((String.length (JSNumber.toString n) <= k)%nat <-> n < 10 ^ Z.of_nat k).
Proof.
  intros Hn Hk. destruct n as [|p|p]; [| |lia].
  - cbn. split; intros _; [apply pow10_pos | lia].
  - unfold JSNumber.toString. cbn [Z.to_int NilZero.string_of_int].
    pose proof (Unsigned.to_uint_nonnil p) as NN.
    pose proof (to_uint_leading p) as Lead.
    pose proof (DecimalPos.Unsigned.of_to p) as Val.
    assert (S : NilZero.string_of_uint (Pos.to_uint p) =
                NilEmpty.string_of_uint (Pos.to_uint p)).
    { unfold NilZero.string_of_uint.
      destruct (Pos.to_uint p); [contradiction | reflexivity ..]. }
    rewrite S, uint_length.
    pose proof (of_uint_upper (Pos.to_uint p)) as Up.
    pose proof (of_uint_lower (Pos.to_uint p) Lead) as Lo.
    rewrite Val in Up, Lo. cbn [Z.of_N] in Up, Lo.
    set (m := Decimal.nb_digits (Pos.to_uint p)) in *.
    split; intros H.
    + apply Z.lt_le_trans with (10 ^ Z.of_nat m); [exact Up|].
      apply Z.pow_le_mono_r; lia.
    + destruct (Nat.le_gt_cases m k) as [|G]; [assumption | exfalso].
      assert (10 * 10 ^ Z.of_nat k <= 10 ^ Z.of_nat m).
      { rewrite <- pow10_step. apply Z.pow_le_mono_r; lia. }
      lia.
Qed.

End DigitCount.

(** ** [secureRandomInt] *)

Module RandomFacts.
Import utils.

Section Draws.
Variable limit : Z.
Variable g : nat -> Z.

Lemma draw_below_some (fuel : nat) : forall (i : nat) (v : Z),
  draw_below limit g fuel i = Some v ->
  0 <= v < limit /\ 0 <= v < 2 ^ 32.
Proof.
  induction fuel as [|fuel IH]; intros i v; cbn [draw_below]; [discriminate|].
  pose proof (Z.mod_pos_bound (g i) (2 ^ 32) ltac:(lia)) as R.
  destruct (Z.leb_spec limit (g i mod 2 ^ 32)).
  - apply IH.
  - intros E. injection E as <-. lia.
Qed.

Lemma draw_below_enough (fuel : nat) : forall i k : nat,
  (k < fuel)%nat -> g (i + k) mod 2 ^ 32 < limit ->
  exists v, draw_below limit g fuel i = Some v.
Proof.
  induction fuel as [|fuel IH]; intros i k Hk Hv; [lia|].
  cbn [draw_below].
  destruct (Z.leb_spec limit (g i mod 2 ^ 32)) as [Hi|Hi]; [|eauto].
  destruct k as [|k]; [rewrite Nat.add_0_r in Hv; lia|].
  apply (IH (S i) k); [lia|].
  replace (S i + k)%nat with (i + S k)%nat by lia. exact Hv.
Qed.

Lemma draw_below_never (fuel : nat) : forall i : nat,
  limit <= 0 -> draw_below limit g fuel i = None.
Proof.
  induction fuel as [|fuel IH]; intros i H; [reflexivity|].
  cbn [draw_below].
  pose proof (Z.mod_pos_bound (g i) (2 ^ 32) ltac:(lia)) as R.
  destruct (Z.leb_spec limit (g i mod 2 ^ 32)); [apply IH, H | lia].
Qed.

End Draws.

Lemma guard_false (m : Z) : 0 < m -> (m =? 0) || (m <=? 0) = false.
Proof.
  intros H. destruct (Z.eqb_spec m 0), (Z.leb_spec m 0); lia || reflexivity.
Qed.

(** Counting the residues below a multiple of the modulus. *)
Lemma count_residue (m r : Z) (P : Z -> bool) (n : nat) :
  0 < m -> 0 <= r < m ->
  (forall v, 0 <= v < Z.of_nat n -> P v = (v mod m =? r)) ->
  Z.of_nat (count_below P n) =
  Z.of_nat n / m + (if r <? Z.of_nat n mod m then 1 else 0).
Proof.
  intros Hm Hr. induction n as [|n IH]; intros HP.
  - cbn [count_below]. change (Z.of_nat 0) with 0.
    rewrite Z.div_0_l, Z.mod_0_l by lia.
    destruct (Z.ltb_spec r 0); lia.
  - cbn [count_below]. rewrite Nat2Z.inj_add, IH by (intros v Hv; apply HP; lia).
    rewrite HP by lia. rewrite Nat2Z.inj_succ. unfold Z.succ.
    set (N := Z.of_nat n).
    pose proof (Z.div_mod N m ltac:(lia)) as DM.
    pose proof (Z.mod_pos_bound N m Hm) as MB.
    destruct (Z.eq_dec (N mod m + 1) m) as [Last|NotLast].
    + assert (D : (N + 1) / m = N / m + 1)
        by (symmetry; apply Z.div_unique with 0; lia).
      assert (M : (N + 1) mod m = 0)
        by (symmetry; apply Z.mod_unique with (N / m + 1); lia).
      rewrite D, M.
      destruct (Z.eqb_spec (N mod m) r), (Z.ltb_spec r (N mod m)),
        (Z.ltb_spec r 0); cbn [Z.of_nat]; lia.
    + assert (D : (N + 1) / m = N / m)
        by (symmetry; apply Z.div_unique with (N mod m + 1); lia).
      assert (M : (N + 1) mod m = N mod m + 1)
        by (symmetry; apply Z.mod_unique with (N / m); lia).
      rewrite D, M.
      destruct (Z.eqb_spec (N mod m) r), (Z.ltb_spec r (N mod m)),
        (Z.ltb_spec r (N mod m + 1)); cbn [Z.of_nat]; lia.
Qed.

Lemma count_none (P : Z -> bool) (a : nat) : forall b : nat,
  (forall v, Z.of_nat a <= v < Z.of_nat (a + b) -> P v = false) ->
  count_below P (a + b) = count_below P a.
Proof.
  induction b as [|b IH]; intros H.
  - rewrite Nat.add_0_r. reflexivity.
  - replace (a + S b)%nat with (S (a + b)) by lia. cbn [count_below].
    rewrite H by lia. rewrite IH by (intros v Hv; apply H; lia). reflexivity.
Qed.

Lemma count_ext (P Q : Z -> bool) (n : nat) :
  (forall v, 0 <= v < Z.of_nat n -> P v = Q v) ->
  count_below P n = count_below Q n.
Proof.
  induction n as [|n IH]; intros H; [reflexivity|].
  cbn [count_below]. rewrite H by lia.
  rewrite IH by (intros v Hv; apply H; lia). reflexivity.
Qed.

End RandomFacts.

(** X6.  In a browser, when [secureRandomInt] returns, the result lies
    in [0, maxExclusive); and it does return as soon as one of the
    values drawn is below the rejection limit (enough draws give a
    result). *)
Theorem secureRandomInt_browser_range :
  forall (getRandomValues : nat -> Z) (fuel : nat) (maxExclusive : Z),
    0 < maxExclusive ->
    (forall r : Z,
        utils.secureRandomInt (utils.BrowserCrypto getRandomValues) fuel
          maxExclusive = Some r ->
        0 <= r < maxExclusive)
    /\
    (forall k : nat,
        (k < fuel)%nat ->
        getRandomValues k mod 2 ^ 32 <
          utils.UINT32_RANGE / maxExclusive * maxExclusive ->
        exists r : Z,
          utils.secureRandomInt (utils.BrowserCrypto getRandomValues) fuel
            maxExclusive = Some r).
Proof.
  intros g fuel m Hm. unfold utils.secureRandomInt.
  rewrite (RandomFacts.guard_false m Hm). split.
  - intros r. destruct (utils.draw_below _ g fuel 0); [|discriminate].
    intros E. injection E as <-. apply Z.mod_pos_bound, Hm.
  - intros k Hk Hv.
    destruct (RandomFacts.draw_below_enough _ g fuel 0 k Hk Hv) as [v ->].
    eauto.
Qed.

Lemma secureRandomInt_browser_range_witness :
  0 <= 345678 < 1000000
  /\
  exists r : Z,
    utils.secureRandomInt
      (utils.BrowserCrypto (fun i => 4294967295 - Z.of_nat i * 483621617))
      3 1000000 = Some r.
Proof.
  pose proof (secureRandomInt_browser_range
                (fun i => 4294967295 - Z.of_nat i * 483621617) 3 1000000
                ltac:(lia)) as [A B].
  split.
  - apply A. vm_compute. reflexivity.
  - apply (B 1%nat); [lia | vm_compute; reflexivity].
Defined.

(** X7.  The rejection sampling is unbiased: for every bound up to 2^32
    and every result [r] below it, exactly [floor(2^32 / maxExclusive)]
    of the 2^32 values a draw can take make [secureRandomInt] return
    [r] at once; the others are drawn again. *)
Theorem secureRandomInt_unbiased :
  forall maxExclusive r : Z,
    0 < maxExclusive <= 2 ^ 32 -> 0 <= r < maxExclusive ->
    count_below
      (fun v =>
         match utils.secureRandomInt (utils.BrowserCrypto (fun _ => v)) 1
                 maxExclusive with
         | Some x => x =? r
         | None => false
         end)
      (Z.to_nat (2 ^ 32))
    = Z.to_nat (2 ^ 32 / maxExclusive).
Proof.
  intros m r Hm Hr.
  set (k := 2 ^ 32 / m).
  assert (Hk : 0 <= k) by (apply Z.div_pos; lia).
  assert (Lim : k * m <= 2 ^ 32) by (unfold k; rewrite Z.mul_comm; apply Z.mul_div_le; lia).
  set (P := fun v : Z => (v <? k * m) && (v mod m =? r)).
  rewrite (RandomFacts.count_ext _ P).
  2:{ intros v Hv. rewrite Z2Nat.id in Hv by lia.
      unfold utils.secureRandomInt, P.
      rewrite (RandomFacts.guard_false m) by lia.
      cbn [utils.draw_below]. unfold utils.UINT32_RANGE. fold k.
      rewrite (Z.mod_small v) by lia.
      destruct (Z.leb_spec (k * m) v), (Z.ltb_spec v (k * m)); try lia;
        reflexivity. }
  replace (Z.to_nat (2 ^ 32))
    with (Z.to_nat (k * m) + Z.to_nat (2 ^ 32 - k * m))%nat by lia.
  rewrite RandomFacts.count_none.
  2:{ intros v Hv. unfold P.
      destruct (Z.ltb_spec v (k * m)); [lia | reflexivity]. }
  apply Nat2Z.inj.
  rewrite (RandomFacts.count_residue m r) by
    first [ lia
          | intros v Hv; unfold P;
            destruct (Z.ltb_spec v (k * m)); [reflexivity | lia] ].
  rewrite !Z2Nat.id by nia.
  rewrite Z.div_mul, Z.mod_mul by lia.
  destruct (Z.ltb_spec r 0); lia.
Qed.

Lemma secureRandomInt_unbiased_witness :
  count_below
    (fun v =>
       match utils.secureRandomInt (utils.BrowserCrypto (fun _ => v)) 1
               1000000 with
       | Some x => x =? 345678
       | None => false
       end)
    (Z.to_nat (2 ^ 32))
  = Z.to_nat (2 ^ 32 / 1000000).
Proof. apply secureRandomInt_unbiased; lia. Defined.

(** X8.  For a bound above 2^32 the rejection limit is 0: in a browser
    every value drawn is rejected and [secureRandomInt] never returns,
    however many draws are made. *)
Theorem secureRandomInt_browser_never_returns :
  forall (getRandomValues : nat -> Z) (fuel : nat) (maxExclusive : Z),
    2 ^ 32 < maxExclusive ->
    utils.secureRandomInt (utils.BrowserCrypto getRandomValues) fuel
      maxExclusive = None.
Proof.
  intros g fuel m Hm. unfold utils.secureRandomInt, utils.UINT32_RANGE.
  rewrite (RandomFacts.guard_false m) by lia.
  rewrite Z.div_small by lia.
  rewrite RandomFacts.draw_below_never; [reflexivity | lia].
Qed.

Lemma secureRandomInt_browser_never_returns_witness :
  utils.secureRandomInt (utils.BrowserCrypto (fun i => Z.of_nat i)) 1000
    5000000000 = None.
Proof. apply secureRandomInt_browser_never_returns. lia. Defined.

(** ** Digit strings read as numbers *)

Module DigitFacts.
Import JSNumber.

Lemma digits_no_char (c : ascii) (s : string) :
  is_decimal_digit c = false ->
  all_decimal_digits s = true -> occurs c s = false.
Proof.
  intros H. induction s as [|x s IH]; cbn [all_decimal_digits occurs];
    [reflexivity|].
  intros A. apply andb_true_iff in A as [Hx Hs]. rewrite (IH Hs).
  destruct (Ascii.eqb_spec x c) as [->|]; [congruence | reflexivity].
Qed.

(** Every string of decimal digits is printed from a [Decimal.uint]. *)
Lemma digits_uint (s : string) :
  all_decimal_digits s = true ->
  exists d : Decimal.uint, s = NilEmpty.string_of_uint d.
Proof.
  induction s as [|c s IH]; cbn [all_decimal_digits].
  - exists Decimal.Nil. reflexivity.
  - intros A. apply andb_true_iff in A as [Hc Hs].
    destruct (IH Hs) as [d ->].
    assert (C : (c = "0" \/ c = "1" \/ c = "2" \/ c = "3" \/ c = "4"
                 \/ c = "5" \/ c = "6" \/ c = "7" \/ c = "8"
                 \/ c = "9")%char).
    { clear - Hc. revert Hc. unfold is_decimal_digit.
      pose proof (HexFacts.ascii_of_code_unit c) as E. revert E.
      generalize (code_unit c). intros n E H.
      apply andb_true_iff in H as [A B]. apply Z.leb_le in A, B.
      assert (K : exists k : nat, n = 48 + Z.of_nat k /\ (k < 10)%nat)
        by (exists (Z.to_nat (n - 48)); lia).
      destruct K as (k & -> & Hk). rewrite <- E.
      do 10 (destruct k as [|k]; [tauto|]). lia. }
    destruct C as [-> | [-> | [-> | [-> | [-> | [-> | [-> | [-> | [-> | ->]]]]]]]]].
    + exists (Decimal.D0 d). reflexivity.
    + exists (Decimal.D1 d). reflexivity.
    + exists (Decimal.D2 d). reflexivity.
    + exists (Decimal.D3 d). reflexivity.
    + exists (Decimal.D4 d). reflexivity.
    + exists (Decimal.D5 d). reflexivity.
    + exists (Decimal.D6 d). reflexivity.
    + exists (Decimal.D7 d). reflexivity.
    + exists (Decimal.D8 d). reflexivity.
    + exists (Decimal.D9 d). reflexivity.
Qed.

Lemma uint_nonempty (d : Decimal.uint) :
  NilEmpty.string_of_uint d <> EmptyString -> d <> Decimal.Nil.
Proof. intros H ->. apply H. reflexivity. Qed.

Lemma round_integer (n : Z) :
  0 <= n < 2 ^ 53 -> round_decimal false n 0 = of_Z n.
Proof.
  intros [Hn Hlt]. unfold round_decimal.
  destruct (Z.eqb_spec n 0) as [->|N0]; [reflexivity|].
  cbn [Z.leb Z.compare]. change (10 ^ 0) with 1. rewrite Z.mul_1_r.
  apply NumberFacts.round_pos_integer. lia.
Qed.

(** The value of a digit string: what [scan] accumulates. *)
Lemma scan_digits (s : string) :
  all_decimal_digits s = true ->
  exists v : Z,
    0 <= v /\
    scan 10 s 0 0 = (v, Z.of_nat (String.length s), EmptyString).
Proof.
  intros A. destruct (digits_uint s A) as [d ->].
  rewrite NumberFacts.scan_uint, DigitCount.uint_length.
  exists (Z.of_N (Pos.of_uint d)). split; [lia | reflexivity].
Qed.

(** [Number], [parseInt] and [parseFloat] agree on a non-empty string
    of digits. *)
Lemma Number_digit_string (s : string) (v : Z) :
  all_decimal_digits s = true -> s <> EmptyString ->
  scan 10 s 0 0 = (v, Z.of_nat (String.length s), EmptyString) ->
  Number s = round_decimal false v 0.
Proof.
  intros A NE S. rewrite (NumberFacts.Number_digits s A NE).
  destruct (digits_uint s A) as [d ->].
  rewrite (NumberFacts.decimal_digits d (uint_nonempty d NE)).
  rewrite NumberFacts.scan_uint in S. injection S as <- _. reflexivity.
Qed.

Lemma first_digit (s : string) :
  all_decimal_digits s = true ->
  trim_left s = s /\ sign s = (false, s).
Proof.
  intros A. split; [apply NumberFacts.trim_left_digits, A|].
  destruct s as [|c s]; [reflexivity|].
  cbn [all_decimal_digits] in A. apply andb_true_iff in A as [Hc _].
  unfold sign.
  rewrite (NumberFacts.digit_not_minus c Hc), (NumberFacts.digit_not_plus c Hc).
  reflexivity.
Qed.

Lemma parseInt10_digit_string (s : string) (v : Z) :
  all_decimal_digits s = true ->
  scan 10 s 0 0 = (v, Z.of_nat (String.length s), EmptyString) ->
  parseInt10 s =
  if (String.length s =? 0)%nat then NaN else round_decimal false v 0.
Proof.
  intros A Sc. unfold parseInt10.
  destruct (first_digit s A) as [-> ->]. rewrite Sc.
  destruct s; [reflexivity|].
  cbn [String.length Nat.eqb].
  destruct (Z.eqb_spec (Z.of_nat (S (String.length s))) 0); [lia | reflexivity].
Qed.

(** Zeros in front do not change the value read. *)
Lemma scan_leading_zeros (k : nat) (s : string) :
  scan 10 (repeat_char "0" k ++ s) 0 0 =
  let '(v, count, rest) := scan 10 s 0 0 in (v, Z.of_nat k + count, rest).
Proof.
  assert (G : forall count,
             scan 10 (repeat_char "0" k ++ s) 0 count =
             let '(v, c, rest) := scan 10 s 0 count in
             (v, c + Z.of_nat k, rest)).
  { induction k as [|k IH]; intros count.
    - cbn [repeat_char append]. destruct (scan 10 s 0 count) as [[v c] rest].
      rewrite Z.add_0_r. reflexivity.
    - cbn [repeat_char append scan].
      rewrite NumberFacts.digit_value_10 by reflexivity.
      change (0 * 10 + (code_unit "0" - 48)) with 0. rewrite IH.
      assert (Sh : forall a c c',
                 scan 10 s a (c + c') =
                 let '(v, n, rest) := scan 10 s a c in (v, n + c', rest)).
      { clear. induction s as [|x s IHs]; intros a c c';
          cbn [scan]; [reflexivity|].
        destruct (digit_value 10 x); [|reflexivity].
        replace (c + c' + 1) with (c + 1 + c') by lia. apply IHs. }
      rewrite (Sh 0 count 1).
      destruct (scan 10 s 0 count) as [[v c] rest].
      f_equal. f_equal. lia. }
  rewrite G. destruct (scan 10 s 0 0) as [[v c] rest]. f_equal. f_equal. lia.
Qed.

(** A non-negative integer below 2^53, printed and padded with zeros,
    is read back by [Number]. *)
Lemma Number_padded (k : nat) (n : Z) :
  0 <= n < 2 ^ 53 ->
  Number (padStart k "0" (toString n)) = of_Z n.
Proof.
  intros R. destruct (NumberFacts.toString_digits n (proj1 R)) as [A NE].
  assert (PA : all_decimal_digits (padStart k "0" (toString n)) = true).
  { unfold padStart. rewrite all_digits_app, all_digits_repeat_zero, A.
    reflexivity. }
  assert (PN : padStart k "0" (toString n) <> EmptyString)
    by (apply padStart_nonempty, NE).
  destruct (scan_digits _ PA) as (v & _ & S).
  rewrite (Number_digit_string _ v PA PN S).
  unfold padStart in S. rewrite scan_leading_zeros in S.
  destruct (NumberFacts.toString_nonneg n (proj1 R)) as (d & E & _ & V).
  rewrite E, NumberFacts.scan_uint in S. injection S as <- _.
  rewrite V. apply round_integer, R.
Qed.

End DigitFacts.

(** ** [generateRandomCode] and [generateContractId] *)

Lemma browser_code_range (g : nat -> Z) (fuel : nat) (m r : Z) :
  0 < m ->
  utils.secureRandomInt (utils.BrowserCrypto g) fuel m = Some r ->
  0 <= r < m.
Proof.
  intros Hm. unfold utils.secureRandomInt.
  rewrite (RandomFacts.guard_false m Hm).
  destruct (utils.draw_below _ g fuel 0); [|discriminate].
  intros E. injection E as <-. apply Z.mod_pos_bound, Hm.
Qed.

Lemma padded_code (code : Z) :
  0 <= code < 1000000 ->
  String.length (padStart 6 "0" (JSNumber.toString code)) = 6%nat /\
  JSNumber.all_decimal_digits (padStart 6 "0" (JSNumber.toString code))
    = true.
Proof.
  intros R. split.
  - rewrite padStart_length.
    pose proof (proj2 (DigitCount.toString_length code 6 (proj1 R)
                         ltac:(lia))) as L.
    specialize (L ltac:(change (10 ^ Z.of_nat 6) with 1000000; lia)). lia.
  - unfold padStart. rewrite all_digits_app, all_digits_repeat_zero.
    apply NumberFacts.toString_digits, R.
Qed.

(** X9.  In a browser, the code [generateRandomCode] returns always has
    exactly six decimal digits, and [Number] reads back from it the
    integer below 1 000 000 that was drawn. *)
Theorem generateRandomCode_six_digits :
  forall (getRandomValues : nat -> Z) (fuel : nat) (s : string),
    utils.generateRandomCode (utils.BrowserCrypto getRandomValues) fuel
      = Some s ->
    String.length s = 6%nat /\
    JSNumber.all_decimal_digits s = true /\
    exists code : Z,
      utils.secureRandomInt (utils.BrowserCrypto getRandomValues) fuel
        1000000 = Some code /\
      0 <= code < 1000000 /\
      JSNumber.Number s = JSNumber.of_Z code.
Proof.
  intros g fuel s. unfold utils.generateRandomCode.
  destruct (utils.secureRandomInt _ fuel 1000000) as [code|] eqn:E;
    [|discriminate].
  intros H. injection H as <-.
  pose proof (browser_code_range g fuel 1000000 code ltac:(lia) E) as R.
  destruct (padded_code code R) as [L D].
  split; [exact L|]. split; [exact D|].
  exists code. split; [reflexivity|]. split; [exact R|].
  apply DigitFacts.Number_padded. lia.
Qed.

Lemma generateRandomCode_six_digits_witness :
  String.length "045678" = 6%nat /\
  JSNumber.all_decimal_digits "045678" = true /\
  exists code : Z,
    utils.secureRandomInt
      (utils.BrowserCrypto (fun i => 4294967295 - Z.of_nat i * 483921617))
      3 1000000 = Some code /\
    0 <= code < 1000000 /\
    JSNumber.Number "045678" = JSNumber.of_Z code.
Proof.
  apply (generateRandomCode_six_digits
           (fun i => 4294967295 - Z.of_nat i * 483921617) 3).
  vm_compute. reflexivity.
Defined.

(** X10.  For a date with a four-digit year, the identifier
    [generateContractId] returns in a browser has 19 characters and
    splits at its hyphens into [SHB], the eight digits of the date
    (year, month, day) and the six digits of the code. *)
Theorem generateContractId_format :
  forall (now : utils.LocalDate) (getRandomValues : nat -> Z) (fuel : nat)
         (id : string),
    1000 <= utils.getFullYear now <= 9999 ->
    0 <= utils.getMonth now <= 11 ->
    1 <= utils.getDate now <= 31 ->
    utils.generateContractId now (utils.BrowserCrypto getRandomValues) fuel
      = Some id ->
    String.length id = 19%nat /\
    exists datePart code : string,
      split "-" id = ["SHB"; datePart; code] /\
      datePart = JSNumber.toString (utils.getFullYear now)
                 ++ utils.pad2 (utils.getMonth now + 1)
                 ++ utils.pad2 (utils.getDate now) /\
      String.length datePart = 8%nat /\
      JSNumber.all_decimal_digits datePart = true /\
      String.length code = 6%nat /\
      JSNumber.all_decimal_digits code = true.
Proof.
  intros now g fuel id Hy Hm Hd. unfold utils.generateContractId.
  destruct (utils.secureRandomInt _ fuel 1000000) as [r|] eqn:E;
    [|discriminate].
  intros H. injection H as <-.
  pose proof (browser_code_range g fuel 1000000 r ltac:(lia) E) as R.
  destruct (padded_code r R) as [Lc Dc].
  set (code := padStart 6 "0" (JSNumber.toString r)) in *.
  set (y := JSNumber.toString (utils.getFullYear now)).
  set (m := utils.pad2 (utils.getMonth now + 1)).
  set (d := utils.pad2 (utils.getDate now)).
  assert (Ly : String.length y = 4%nat).
  { pose proof (DigitCount.toString_length (utils.getFullYear now) 4
                  ltac:(lia) ltac:(lia)) as A.
    pose proof (DigitCount.toString_length (utils.getFullYear now) 3
                  ltac:(lia) ltac:(lia)) as B.
    change (10 ^ Z.of_nat 4) with 10000 in A.
    change (10 ^ Z.of_nat 3) with 1000 in B.
    fold y in A, B.
    assert (String.length y <= 4)%nat by (apply A; lia).
    assert (~ (String.length y <= 3)%nat) by (intros C; apply B in C; lia).
    lia. }
  assert (L2 : forall n, 0 <= n < 100 ->
                 String.length (utils.pad2 n) = 2%nat /\
                 JSNumber.all_decimal_digits (utils.pad2 n) = true).
  { intros n Hn. unfold utils.pad2. split.
    - rewrite padStart_length.
      pose proof (proj2 (DigitCount.toString_length n 2 (proj1 Hn)
                           ltac:(lia))) as L.
      specialize (L ltac:(change (10 ^ Z.of_nat 2) with 100; lia)). lia.
    - unfold padStart. rewrite all_digits_app, all_digits_repeat_zero.
      apply NumberFacts.toString_digits, Hn. }
  destruct (L2 (utils.getMonth now + 1) ltac:(lia)) as [Lm Dm].
  destruct (L2 (utils.getDate now) ltac:(lia)) as [Ld Dd].
  fold m in Lm, Dm. fold d in Ld, Dd.
  assert (Dy : JSNumber.all_decimal_digits y = true)
    by (apply NumberFacts.toString_digits; lia).
  assert (Dp : JSNumber.all_decimal_digits (y ++ m ++ d) = true)
    by (rewrite !all_digits_app, Dy, Dm, Dd; reflexivity).
  split.
  - cbn [String.length].
    rewrite !string_length_app, Ly, Lm, Ld. cbn [String.length].
    rewrite Lc. reflexivity.
  - exists (y ++ m ++ d), code.
    split; [|split; [reflexivity|split; [|split; [exact Dp|split; assumption]]]].
    + assert (Sp : split "-"
                     ("SHB" ++ String "-" ((y ++ m ++ d) ++ String "-" code))
                   = ["SHB"; y ++ m ++ d; code]).
      { rewrite (split_field "-" "SHB") by reflexivity.
        rewrite split_field
          by (apply DigitFacts.digits_no_char; [reflexivity | exact Dp]).
        rewrite split_none
          by (apply DigitFacts.digits_no_char; [reflexivity | exact Dc]).
        reflexivity. }
      exact Sp.
    + rewrite !string_length_app, Ly, Lm, Ld. reflexivity.
Qed.

Lemma generateContractId_format_witness :
  String.length "SHB-20261102-045678" = 19%nat /\
  exists datePart code : string,
    split "-" "SHB-20261102-045678" = ["SHB"; datePart; code] /\
    datePart = JSNumber.toString 2026 ++ utils.pad2 (10 + 1)
               ++ utils.pad2 2 /\
    String.length datePart = 8%nat /\
    JSNumber.all_decimal_digits datePart = true /\
    String.length code = 6%nat /\
    JSNumber.all_decimal_digits code = true.
Proof.
  apply (generateContractId_format (utils.mkLocalDate 2026 10 2)
           (fun i => 4294967295 - Z.of_nat i * 483921617) 3);
    cbn [utils.getFullYear utils.getMonth utils.getDate]; try lia.
  vm_compute. reflexivity.
Defined.

(** ** [generateSessionKey] *)

Module KeyFacts.
Import config.

Lemma byte_rendering (b : byte) (rest : string) :
  (padStart 2 "0" (toString16 (byte_to_Z b)) ++ rest)%string
  = Hex.encode_byte b rest.
Proof. destruct b; vm_compute; reflexivity. Qed.

Lemma join_bytes_encode (array : Buffer) :
  join_bytes array = Hex.encode array.
Proof.
  induction array as [|b rest IH]; [reflexivity|].
  cbn [join_bytes Hex.encode]. rewrite IH. apply byte_rendering.
Qed.

Lemma lower_hex_is_hex (s : string) :
  Hex.all_lower_hex s = true -> Hex.all_hex s = true.
Proof.
  induction s as [|c s IH]; [reflexivity|].
  cbn [Hex.all_lower_hex Hex.all_hex]. intros H.
  apply andb_true_iff in H as [C R].
  unfold Hex.is_lower_hex_unit in C. unfold Hex.unhex.
  destruct ((48 <=? code_unit c) && (code_unit c <=? 57)); [exact (IH R)|].
  cbn [orb] in C. rewrite C. exact (IH R).
Qed.

Lemma drawn_length (entropy : nat -> byte) (n : nat) :
  List.length (randomBytes entropy n) = n.
Proof. unfold randomBytes. rewrite length_map, length_seq. reflexivity. Qed.

Lemma substring_length (n : nat) : forall s : string,
  String.length (String.substring 0 n s) = Nat.min n (String.length s).
Proof.
  induction n as [|n IH]; intros [|c s]; cbn [String.substring String.length];
    try reflexivity.
  rewrite IH. reflexivity.
Qed.

Lemma toString16_fuel_length (fuel : nat) : forall (n : Z) (k : nat),
  0 <= n < 16 ^ Z.of_nat k -> (1 <= k)%nat ->
  (String.length (toString16_fuel fuel n) <= k)%nat.
Proof.
  induction fuel as [|fuel IH]; intros n k Hn Hk; cbn [toString16_fuel];
    [cbn; lia|].
  destruct (Z.ltb_spec n 16) as [L|L]; [cbn; lia|].
  rewrite string_length_app. cbn [String.length].
  destruct k as [|[|k]]; [lia| change (16 ^ Z.of_nat 1) with 16 in Hn; lia |].
  assert (P : 16 ^ Z.of_nat (S (S k)) = 16 * 16 ^ Z.of_nat (S k)).
  { rewrite (Nat2Z.inj_succ (S k)), Z.pow_succ_r by lia. reflexivity. }
  specialize (IH (n / 16) (S k)).
  assert (0 <= n / 16 < 16 ^ Z.of_nat (S k)).
  { split; [apply Z.div_pos; lia|].
    apply Z.div_lt_upper_bound; lia. }
  specialize (IH ltac:(assumption) ltac:(lia)). lia.
Qed.

End KeyFacts.

(** X11.  With a source of random bytes, the browser branch and the
    Node branch of [generateSessionKey] render the same 32 bytes as
    the same key: 64 lowercase hexadecimal digits, which pass the
    format test of [validate], and nothing is warned. *)
Theorem generateSessionKey_crypto :
  forall entropy : nat -> byte,
    config.generateSessionKey (config.Browser entropy)
      = config.generateSessionKey (config.Node entropy) /\
    config.warned (config.generateSessionKey (config.Browser entropy)) = []
    /\
    Hex.decode (config.key (config.generateSessionKey (config.Browser entropy)))
      = randomBytes entropy 32 /\
    String.length
      (config.key (config.generateSessionKey (config.Browser entropy)))
      = 64%nat /\
    Hex.all_lower_hex
      (config.key (config.generateSessionKey (config.Browser entropy)))
      = true /\
    config.key_format_ok
      (config.key (config.generateSessionKey (config.Browser entropy)))
      = true.
Proof.
  intros entropy. cbn [config.generateSessionKey config.key config.warned].
  rewrite KeyFacts.join_bytes_encode.
  assert (L : String.length (Hex.encode (randomBytes entropy 32)) = 64%nat)
    by (rewrite HexFacts.length_encode, KeyFacts.drawn_length; reflexivity).
  pose proof (HexFacts.all_lower_hex_encode (randomBytes entropy 32)) as A.
  split; [reflexivity|]. split; [reflexivity|].
  split; [apply HexFacts.decode_encode|].
  split; [exact L|]. split; [exact A|].
  unfold config.key_format_ok. rewrite L, (KeyFacts.lower_hex_is_hex _ A).
  reflexivity.
Qed.

(** X12.  Without a source of random bytes the key is the first 64
    characters of the clock in hexadecimal followed by three copies of
    the digits of [Math.random()], a warning is logged, and the key is
    shorter than 64 characters when these are too few: for a clock
    below 16^11 (eleven hexadecimal digits) and at most 17 digits of
    [Math.random()], the key fails the format test of [validate]. *)
Theorem generateSessionKey_fallback_short :
  forall (now : Z) (random : string),
    0 <= now < 16 ^ 11 -> (String.length random <= 17)%nat ->
    String.length
      (config.key (config.generateSessionKey (config.Neither now random)))
      = (String.length (config.toString16 now) + 3 * String.length random)%nat
    /\
    (String.length
       (config.key (config.generateSessionKey (config.Neither now random)))
     < 64)%nat /\
    config.key_format_ok
      (config.key (config.generateSessionKey (config.Neither now random)))
      = false /\
    config.warned (config.generateSessionKey (config.Neither now random))
      <> [].
Proof.
  intros now random Hn Hr.
  cbn [config.generateSessionKey config.key config.warned].
  pose proof (KeyFacts.toString16_fuel_length
                (S (Z.to_nat (Z.log2 now))) now 11 Hn ltac:(lia)) as T.
  fold (config.toString16 now) in T.
  assert (L : String.length
                (String.substring 0 64
                   (config.toString16 now ++ random ++ random ++ random))
              = (String.length (config.toString16 now)
                 + 3 * String.length random)%nat).
  { rewrite KeyFacts.substring_length, !string_length_app. lia. }
  split; [exact L|]. split; [lia|]. split; [|discriminate].
  unfold config.key_format_ok.
  destruct (Nat.eqb_spec
              (String.length
                 (String.substring 0 64
                    (config.toString16 now ++ random ++ random ++ random)))
              64) as [E|E]; [lia | reflexivity].
Qed.

Lemma generateSessionKey_fallback_short_witness :
  String.length
    (config.key
       (config.generateSessionKey
          (config.Neither 1793635200000 "8f3a2b1c9d4e5")))
    = (String.length (config.toString16 1793635200000)
       + 3 * String.length "8f3a2b1c9d4e5")%nat
  /\
  (String.length
     (config.key
        (config.generateSessionKey
           (config.Neither 1793635200000 "8f3a2b1c9d4e5")))
   < 64)%nat /\
  config.key_format_ok
    (config.key
       (config.generateSessionKey
          (config.Neither 1793635200000 "8f3a2b1c9d4e5")))
    = false /\
  config.warned
    (config.generateSessionKey (config.Neither 1793635200000 "8f3a2b1c9d4e5"))
    <> [].
Proof.
  apply generateSessionKey_fallback_short; [lia | cbn; lia].
Defined.

(** ** The rate limiter over any sequence of calls *)

Module WindowFacts.
Import rateLimit.

(** While no reset can fire, the calls allowed are those the counter
    has room for. *)
Lemma allowed_without_reset (times : list Z) : forall this : State,
  (forall t, In t times -> t - lastAttempt this <= 60000) ->
  (forall t t', In t times -> In t' times -> t' - t <= 60000) ->
  Z.of_nat (count_occ Bool.bool_dec (fst (run times this)) true)
    <= Z.max 0 (5 - attempts this).
Proof.
  induction times as [|now later IH]; intros this HL HP; [cbn; lia|].
  rewrite RateLimitFacts.run_cons. cbn [fst].
  assert (NR : window_reset now this = this).
  { unfold window_reset, reset_fires.
    destruct (Z.ltb_spec 60000 (now - lastAttempt this)) as [C|C];
      [|reflexivity].
    specialize (HL now (or_introl eq_refl)). lia. }
  assert (HP' : forall t t', In t later -> In t' later -> t' - t <= 60000)
    by (intros t t' A B; apply HP; right; assumption).
  unfold check. rewrite NR.
  destruct (Z.leb_spec 5 (attempts this)) as [B|B]; cbn [returned after].
  - rewrite count_occ_cons_neq by discriminate.
    apply IH; [|exact HP'].
    intros t Ht. apply HL. right. exact Ht.
  - rewrite count_occ_cons_eq by reflexivity.
    specialize (IH (mkState (attempts this + 1) now)).
    cbn [attempts lastAttempt] in IH.
    specialize (IH ltac:(intros t Ht; apply HP; [left; reflexivity
                                                | right; exact Ht]) HP').
    lia.
Qed.

End WindowFacts.

(** X13.  Whatever the counter holds (it is never negative), among
    calls that all fall within one span of 60 seconds at most five
    return [true]. *)
Theorem at_most_five_per_minute :
  forall (times : list Z) (this : rateLimit.State),
    0 <= rateLimit.attempts this ->
    (forall t t', In t times -> In t' times -> t' - t <= 60000) ->
    (count_occ Bool.bool_dec (fst (rateLimit.run times this)) true <= 5)%nat.
Proof.
  induction times as [|now later IH]; intros this H0 HP; [cbn; lia|].
  rewrite RateLimitFacts.run_cons. cbn [fst].
  assert (HP' : forall t t', In t later -> In t' later -> t' - t <= 60000)
    by (intros t t' A B; apply HP; right; assumption).
  assert (HN : forall t, In t later -> t - now <= 60000)
    by (intros t Ht; apply HP; [left; reflexivity | right; exact Ht]).
  unfold rateLimit.check, rateLimit.window_reset.
  destruct (rateLimit.reset_fires now this).
  - cbn [rateLimit.attempts Z.leb Z.compare rateLimit.returned rateLimit.after
         Z.add].
    rewrite count_occ_cons_eq by reflexivity.
    pose proof (WindowFacts.allowed_without_reset later
                  (rateLimit.mkState 1 now) HN HP') as A.
    cbn [rateLimit.attempts] in A. lia.
  - destruct (Z.leb_spec 5 (rateLimit.attempts this)) as [B|B];
      cbn [rateLimit.returned rateLimit.after].
    + rewrite count_occ_cons_neq by discriminate. apply IH; assumption.
    + rewrite count_occ_cons_eq by reflexivity.
      pose proof (WindowFacts.allowed_without_reset later
                    (rateLimit.mkState (rateLimit.attempts this + 1) now)
                    HN HP') as A.
      cbn [rateLimit.attempts] in A. lia.
Qed.

Lemma at_most_five_per_minute_witness :
  (count_occ Bool.bool_dec
     (fst (rateLimit.run [100000; 100001; 100002; 130000; 140000; 150000;
                          160000]%Z
             rateLimit.initial)) true <= 5)%nat.
Proof.
  apply at_most_five_per_minute; [cbn; lia|].
  intros t t' A B. cbn [In] in A, B.
  repeat (destruct A as [A|A]; [subst t|]); try contradiction;
    repeat (destruct B as [B|B]; [subst t'|]); try contradiction; lia.
Defined.

(** X14.  The counter stays within bounds: after any sequence of calls
    from a counter between 0 and 5 it is between 0 and 5, and at least
    1 as soon as one call has been made. *)
Theorem attempts_bounded :
  forall (times : list Z) (this : rateLimit.State),
    0 <= rateLimit.attempts this <= 5 ->
    0 <= rateLimit.attempts (snd (rateLimit.run times this)) <= 5 /\
    (times <> [] ->
     1 <= rateLimit.attempts (snd (rateLimit.run times this))).
Proof.
  induction times as [|now later IH]; intros this H;
    [cbn; split; [lia|congruence]|].
  rewrite RateLimitFacts.run_cons. cbn [snd].
  assert (A : 1 <= rateLimit.attempts
                     (rateLimit.after (rateLimit.check now this)) <= 5).
  { unfold rateLimit.check, rateLimit.window_reset.
    destruct (rateLimit.reset_fires now this);
      cbn [rateLimit.attempts Z.leb Z.compare rateLimit.after]; [lia|].
    destruct (Z.leb_spec 5 (rateLimit.attempts this));
      cbn [rateLimit.attempts rateLimit.after]; lia. }
  destruct (IH (rateLimit.after (rateLimit.check now this)) ltac:(lia))
    as [B C].
  split; [exact B|]. intros _.
  destruct later as [|t later]; [cbn [rateLimit.run snd]; lia|].
  apply C. discriminate.
Qed.

Lemma attempts_bounded_witness :
  0 <= rateLimit.attempts
         (snd (rateLimit.run [1; 2; 3; 4; 5; 6; 7; 70000] rateLimit.initial))
    <= 5 /\
  1 <= rateLimit.attempts
         (snd (rateLimit.run [1; 2; 3; 4; 5; 6; 7; 70000] rateLimit.initial)).
Proof.
  pose proof (attempts_bounded [1; 2; 3; 4; 5; 6; 7; 70000]
                rateLimit.initial ltac:(cbn; lia)) as [A B].
  split; [exact A | apply B; discriminate].
Defined.

(** ** Numbers formatted for display and read back *)

Module FormatFacts.
Import JSNumber.

Lemma every_char_app (P : ascii -> bool) (a b : string) :
  every_char P (a ++ b) = every_char P a && every_char P b.
Proof.
  induction a as [|c a IH]; cbn [append every_char]; [reflexivity|].
  rewrite IH. apply andb_assoc.
Qed.

Lemma digits_every (P : ascii -> bool) (s : string) :
  (forall c, is_decimal_digit c = true -> P c = true) ->
  all_decimal_digits s = true -> every_char P s = true.
Proof.
  intros HP. induction s as [|c s IH]; cbn [all_decimal_digits every_char];
    [reflexivity|].
  intros H. apply andb_true_iff in H as [C R].
  rewrite (HP c C), (IH R). reflexivity.
Qed.

Lemma keep_every (P : ascii -> bool) (s : string) :
  every_char P s = true -> keep_chars P s = s.
Proof.
  induction s as [|c s IH]; cbn [every_char keep_chars]; [reflexivity|].
  intros H. apply andb_true_iff in H as [C R]. rewrite C, (IH R). reflexivity.
Qed.

Lemma every_group (P : ascii -> bool) (s : string) :
  P "."%char = true -> every_char P s = true ->
  every_char P (group_digits s) = true.
Proof.
  intros HP. induction s as [|c s IH]; cbn [every_char group_digits];
    [reflexivity|].
  intros H. apply andb_true_iff in H as [C R].
  destruct (negb _ && _); cbn [every_char]; rewrite C, ?HP, (IH R);
    reflexivity.
Qed.

Lemma keep_group (P : ascii -> bool) (s : string) :
  P "."%char = false -> keep_chars P (group_digits s) = keep_chars P s.
Proof.
  intros HP. induction s as [|c s IH]; cbn [keep_chars group_digits];
    [reflexivity|].
  destruct (negb _ && _); cbn [keep_chars]; rewrite ?HP, IH; reflexivity.
Qed.

Lemma group_length_nonempty (s : string) :
  s <> EmptyString -> group_digits s <> EmptyString.
Proof.
  destruct s as [|c s]; [congruence|]. intros _. cbn [group_digits].
  destruct (negb _ && _); discriminate.
Qed.

Lemma trim_left_every (s : string) :
  every_char not_space s = true -> trim_left s = s.
Proof.
  destruct s as [|c s]; [reflexivity|]. cbn [every_char trim_left].
  intros H. apply andb_true_iff in H as [C _].
  unfold not_space in C. apply negb_true_iff in C. rewrite C. reflexivity.
Qed.

Lemma trim_right_every (s : string) :
  every_char not_space s = true -> trim_right s = s.
Proof.
  induction s as [|c s IH]; [reflexivity|]. cbn [every_char trim_right].
  intros H. apply andb_true_iff in H as [C R].
  unfold not_space in C. apply negb_true_iff in C.
  rewrite (IH R), C. destruct s; reflexivity.
Qed.

Lemma digit_not_dot (c : ascii) :
  is_decimal_digit c = true -> Ascii.eqb c "." = false.
Proof.
  intros H. destruct (Ascii.eqb_spec c "."%char) as [->|]; [|reflexivity].
  discriminate H.
Qed.

Lemma digits_no_dot (s : string) :
  all_decimal_digits s = true -> count_char "." s = 0%nat.
Proof.
  induction s as [|c s IH]; cbn [all_decimal_digits count_char];
    [reflexivity|].
  intros H. apply andb_true_iff in H as [C R].
  rewrite (digit_not_dot c C). exact (IH R).
Qed.

(** One full stop for every three digits after the first. *)
Lemma count_group (s : string) :
  all_decimal_digits s = true ->
  count_char "." (group_digits s) = ((String.length s - 1) / 3)%nat.
Proof.
  induction s as [|c s IH]; [reflexivity|].
  cbn [all_decimal_digits]. intros H. apply andb_true_iff in H as [C R].
  specialize (IH R). cbn [group_digits String.length].
  replace (S (String.length s) - 1)%nat with (String.length s) by lia.
  set (k := String.length s) in *.
  pose proof (Nat.div_mod_eq k 3) as E1.
  pose proof (Nat.mod_upper_bound k 3 ltac:(lia)) as B1.
  pose proof (Nat.div_mod_eq (k - 1) 3) as E2.
  pose proof (Nat.mod_upper_bound (k - 1) 3 ltac:(lia)) as B2.
  destruct (Nat.eqb_spec k 0) as [K|K];
    destruct (Nat.eqb_spec (k mod 3) 0) as [M|M];
    cbn [negb andb count_char]; rewrite (digit_not_dot c C), ?IH;
    cbn [Ascii.eqb Bool.eqb].
    all: lia.
Qed.

Lemma scan_count (s : string) : forall acc count : Z,
  scan 10 s acc count =
  let '(v, k, rest) := scan 10 s acc 0 in (v, count + k, rest).
Proof.
  induction s as [|c s IH]; intros acc count; cbn [scan].
  - f_equal. f_equal. lia.
  - destruct (digit_value 10 c); [|f_equal; f_equal; lia].
    rewrite (IH _ (count + 1)), (IH _ (0 + 1)).
    destruct (scan 10 s _ 0) as [[v k] rest]. f_equal. f_equal. lia.
Qed.

Lemma scan_app_digits (a b : string) :
  all_decimal_digits a = true ->
  forall acc count : Z,
    scan 10 (a ++ b) acc count =
    scan 10 b (fst (fst (scan 10 a acc 0))) (count + Z.of_nat (String.length a)).
Proof.
  induction a as [|c a IH]; cbn [all_decimal_digits]; intros H acc count.
  - cbn. f_equal. lia.
  - apply andb_true_iff in H as [C R].
    cbn [append scan String.length].
    rewrite (NumberFacts.digit_value_10 c C).
    rewrite (IH R), (scan_count a _ (0 + 1)).
    destruct (scan 10 a _ 0) as [[v k] rest]. cbn [fst]. f_equal. lia.
Qed.

Lemma scan_toString (n : Z) :
  0 <= n ->
  scan 10 (toString n) 0 0
  = (n, Z.of_nat (String.length (toString n)), EmptyString).
Proof.
  intros Hn. destruct (NumberFacts.toString_nonneg n Hn) as (d & E & _ & V).
  rewrite E, NumberFacts.scan_uint, V, DigitCount.uint_length. reflexivity.
Qed.

Lemma parseInt10_toString (n : Z) :
  0 <= n < 2 ^ 53 -> parseInt10 (toString n) = of_Z n.
Proof.
  intros Hn. destruct (NumberFacts.toString_digits n (proj1 Hn)) as [D NE].
  rewrite (DigitFacts.parseInt10_digit_string _ n D (scan_toString n (proj1 Hn))).
  rewrite (proj2 (nonempty_length _) NE).
  apply DigitFacts.round_integer, Hn.
Qed.

Lemma leading_digit (c : ascii) (rest : string) :
  is_decimal_digit c = true ->
  trim_left (String c rest) = String c rest /\
  sign (String c rest) = (false, String c rest) /\
  String.prefix "Infinity" (String c rest) = false.
Proof.
  intros H. cbn [trim_left sign String.prefix].
  rewrite (NumberFacts.digit_not_space c H), (NumberFacts.digit_not_minus c H),
          (NumberFacts.digit_not_plus c H).
  repeat split.
  destruct (Ascii.ascii_dec "I" c) as [<-|]; [discriminate H | reflexivity].
Qed.

(** A literal with three decimals is read as the thousandth of its
    digits. *)
Lemma parseFloat_three_decimals (hi lo : string) (n : Z) :
  hi <> EmptyString -> String.length lo = 3%nat ->
  all_decimal_digits hi = true -> all_decimal_digits lo = true ->
  scan 10 (hi ++ lo) 0 0
    = (n, Z.of_nat (String.length (hi ++ lo)), EmptyString) ->
  parseFloat (hi ++ String "." lo) = round_decimal false n (- 3).
Proof.
  intros NE L Dh Dl Sc.
  rewrite (scan_app_digits hi lo Dh) in Sc.
  rewrite scan_count in Sc.
  unfold parseFloat.
  destruct hi as [|c hi]; [congruence|].
  pose proof Dh as Dh'. cbn [all_decimal_digits] in Dh'.
  apply andb_true_iff in Dh' as [C _].
  change (String c hi ++ String "." lo) with (String c (hi ++ String "." lo)).
  destruct (leading_digit c (hi ++ String "." lo) C) as (T & Sg & P).
  rewrite T, Sg, P.
  change (String c (hi ++ String "." lo)) with (String c hi ++ String "." lo).
  rewrite (scan_app_digits (String c hi) (String "." lo) Dh).
  set (vhi := fst (fst (scan 10 (String c hi) 0 0))) in *.
  cbn [scan]. change (digit_value 10 ".") with (@None Z). cbn iota.
  change (is_char "." ".") with true. cbn iota.
  destruct (scan 10 lo vhi 0) as [[v k] rest].
  pose proof (f_equal (fun p => fst (fst p)) Sc) as E1.
  pose proof (f_equal (fun p => snd (fst p)) Sc) as E2.
  pose proof (f_equal snd Sc) as E3.
  cbn [fst snd] in E1, E2, E3. subst v rest.
  rewrite string_length_app, L in E2.
  assert (k = 3) by lia. subst k.
  destruct (Z.eqb_spec (0 + Z.of_nat (String.length (String c hi)) + 3) 0)
    as [E|E]; [lia|].
  reflexivity.
Qed.

Lemma group_thousands (hi lo : string) :
  (1 <= String.length hi <= 3)%nat -> String.length lo = 3%nat ->
  group_digits (hi ++ lo) = hi ++ String "." lo.
Proof.
  intros Lh Ll.
  destruct lo as [|x [|y [|z [|w lo]]]]; try discriminate Ll.
  destruct hi as [|a [|b [|c [|d hi]]]]; cbn [String.length] in Lh;
    try lia; reflexivity.
Qed.

Lemma toNumeric_digits_grouped (n : Z) :
  0 <= n < 2 ^ 53 ->
  utils.toNumeric (utils.SStr (vi_VN_integer n)) =
  if (1000 <=? n) && (n <? 1000000) then round_decimal false n (- 3)
  else of_Z n.
Proof.
  intros Hn. unfold vi_VN_integer.
  destruct (Z.ltb_spec n 0) as [?|_]; [lia|].
  destruct (NumberFacts.toString_digits n (proj1 Hn)) as [D NE].
  pose proof (scan_toString n (proj1 Hn)) as Sc.
  pose proof (DigitCount.toString_length n 3 (proj1 Hn) ltac:(lia)) as L3.
  pose proof (DigitCount.toString_length n 6 (proj1 Hn) ltac:(lia)) as L6.
  pose proof (parseInt10_toString n Hn) as PI.
  remember (toString n) as s eqn:Es. clear Es.
  assert (Sp : every_char not_space (group_digits s) = true).
  { apply every_group; [reflexivity|].
    apply digits_every; [|exact D].
    intros c C. unfold not_space.
    rewrite (NumberFacts.digit_not_space c C). reflexivity. }
  assert (Cm : every_char (fun c => negb (Ascii.eqb c ",")) (group_digits s)
               = true).
  { apply every_group; [reflexivity|].
    apply digits_every; [|exact D].
    intros c C. destruct (Ascii.eqb_spec c ","%char) as [->|];
      [discriminate C | reflexivity]. }
  unfold utils.toNumeric. cbn [utils.String_of]. unfold trim.
  rewrite (trim_left_every _ Sp), (trim_right_every _ Sp), (keep_every _ _ Cm).
  rewrite (count_group s D).
  change (10 ^ Z.of_nat 3) with 1000 in L3.
  change (10 ^ Z.of_nat 6) with 1000000 in L6.
  assert (L1 : (1 <= String.length s)%nat)
    by (destruct s; [congruence | cbn; lia]).
  pose proof (Nat.div_mod_eq (String.length s - 1) 3) as E1.
  pose proof (Nat.mod_upper_bound (String.length s - 1) 3 ltac:(lia)) as B1.
  destruct (Z.leb_spec 1000 n) as [A|A];
    destruct (Z.ltb_spec n 1000000) as [B|B]; cbn [andb].
  - (* one separator: parseFloat *)
    assert (L46 : (4 <= String.length s <= 6)%nat) by lia.
    replace ((String.length s - 1) / 3 =? 1)%nat with true
      by (symmetry; apply Nat.eqb_eq; lia).
    destruct (substring_split (String.length s - 3) s ltac:(lia))
      as (hi & lo & E & Lh).
    assert (Ll : String.length lo = 3%nat)
      by (rewrite E, string_length_app in L46, Lh; lia).
    assert (Lh' : (1 <= String.length hi <= 3)%nat)
      by (rewrite E, string_length_app in L46; lia).
    rewrite E in D, Sc |- *.
    rewrite all_digits_app in D. apply andb_true_iff in D as [Dh Dl].
    rewrite (group_thousands hi lo Lh' Ll).
    assert (K : every_char utils.is_numeric_char (hi ++ String "." lo) = true).
    { rewrite every_char_app. cbn [every_char].
      rewrite (digits_every _ hi), (digits_every _ lo); try assumption;
        try reflexivity;
        intros c C; unfold utils.is_numeric_char; rewrite C; reflexivity. }
    rewrite (keep_every _ _ K).
    rewrite (parseFloat_three_decimals hi lo n); try assumption.
    + destruct (round_decimal false n (- 3)); reflexivity.
    + destruct hi; [cbn in Lh'; lia | discriminate].
  - (* at least two separators *)
    assert (~ (String.length s <= 6)%nat) by (intros C; apply L6 in C; lia).
    replace ((String.length s - 1) / 3 =? 1)%nat with false
      by (symmetry; apply Nat.eqb_neq; lia).
    rewrite keep_group by reflexivity.
    rewrite (keep_every _ s)
      by (apply digits_every; [|exact D];
          intros c C; unfold utils.is_integer_char; rewrite C; reflexivity).
    rewrite PI. reflexivity.
  - (* no separator *)
    assert ((String.length s <= 3)%nat) by (apply L3; lia).
    replace ((String.length s - 1) / 3 =? 1)%nat with false
      by (symmetry; apply Nat.eqb_neq; lia).
    rewrite keep_group by reflexivity.
    rewrite (keep_every _ s)
      by (apply digits_every; [|exact D];
          intros c C; unfold utils.is_integer_char; rewrite C; reflexivity).
    rewrite PI. reflexivity.
  - lia.
Qed.

Lemma round_half_even_bounds (n d : Z) :
  0 < d -> n / d <= round_half_even n d <= n / d + 1.
Proof.
  intros Hd. unfold round_half_even.
  destruct (2 * (n mod d) <? d); [lia|].
  destruct (d <? 2 * (n mod d)); [lia|].
  destruct (Z.even (n / d)); lia.
Qed.

(** The double nearest to [n / 1000], for [n] of four to six digits,
    is positive and exceeds [n / 1000] by less than 1. *)
Lemma round_thousandth (n : Z) :
  1000 <= n < 1000000 ->
  exists q : Q,
    round_decimal false n (- 3) = Finite q /\
    (0 < q)%Q /\ (q <= (n + 1000) # 1000)%Q.
Proof.
  intros Hn. unfold round_decimal.
  destruct (Z.eqb_spec n 0) as [?|_]; [lia|].
  change (0 <=? - 3) with false. change (10 ^ (- - 3)) with 1000.
  cbn iota. unfold round_pos.
  assert (F : - 1 <= floor_log2 n 1000 <= 10).
  { unfold floor_log2. change (Z.log2 1000) with 9.
    pose proof (Z.log2_le_mono 1000 n ltac:(lia)) as A.
    pose proof (Z.log2_le_mono n 999999 ltac:(lia)) as B.
    change (Z.log2 1000) with 9 in A. change (Z.log2 999999) with 19 in B.
    destruct (scale2 n 1000 (Z.log2 n - 9)) as [a b].
    destruct (b <=? a); lia. }
  remember (Z.max (floor_log2 n 1000 - 52) (- 1074)) as e eqn:Ee.
  assert (He : - 53 <= e <= - 42) by lia. clear Ee F.
  unfold scale2. destruct (Z.leb_spec 0 e) as [?|_]; [lia|].
  destruct (Z.ltb_spec 971 e) as [?|_]; [lia|].
  destruct (Z.eqb_spec e 971) as [?|_]; [lia|]. cbn [orb andb].
  unfold of_pow2. destruct (Z.leb_spec 0 e) as [?|_]; [lia|].
  assert (K : 0 < 2 ^ (- e)) by (apply Z.pow_pos_nonneg; lia).
  remember (2 ^ (- e)) as k eqn:Ek. clear Ek.
  pose proof (round_half_even_bounds (n * k) 1000 ltac:(lia)) as [Lo Up].
  pose proof (Z.mul_div_le (n * k) 1000 ltac:(lia)) as D.
  assert (1 <= n * k / 1000) by (apply Z.div_le_lower_bound; nia).
  remember (round_half_even (n * k) 1000) as m eqn:Em. clear Em.
  exists (Qred (m # Z.to_pos k)). split; [reflexivity|].
  rewrite !Qred_correct. unfold Qlt, Qle. cbn [Qnum Qden].
  rewrite Z2Pos.id by lia. split; nia.
Qed.

Lemma formatNumber_integer (toLocaleString : t -> string) (n : Z) :
  vi_VN_on_integers toLocaleString -> 0 <= n < 2 ^ 53 ->
  utils.formatNumber toLocaleString (utils.SNum (of_Z n)) = vi_VN_integer n.
Proof. intros V Hn. exact (V n Hn). Qed.

End FormatFacts.

(** X15.  Round trip: an integer below 1000, or from 1 000 000 up to
    2^53, that [formatNumber] prints with the vi-VN separators is read
    back by [unformatNumber] as the same integer. *)
Theorem unformat_format_round_trip :
  forall (toLocaleString : JSNumber.t -> string) (n : Z),
    vi_VN_on_integers toLocaleString ->
    0 <= n < 2 ^ 53 -> n < 1000 \/ 1000000 <= n ->
    utils.unformatNumber
      (utils.SStr (utils.formatNumber toLocaleString
                     (utils.SNum (JSNumber.of_Z n))))
    = JSNumber.of_Z n.
Proof.
  intros tls n V Hn Hr.
  rewrite (FormatFacts.formatNumber_integer tls n V Hn).
  unfold utils.unformatNumber.
  rewrite (FormatFacts.toNumeric_digits_grouped n Hn).
  destruct (Z.leb_spec 1000 n); destruct (Z.ltb_spec n 1000000);
    cbn [andb]; try lia; reflexivity.
Qed.

Lemma unformat_format_round_trip_witness :
  utils.unformatNumber
    (utils.SStr (utils.formatNumber sample_vi_VN
                   (utils.SNum (JSNumber.of_Z 5000000))))
  = JSNumber.of_Z 5000000.
Proof.
  apply unformat_format_round_trip; [|lia|lia].
  intros n Hn. reflexivity.
Defined.

(** X16.  The round trip fails on the integers of four to six digits:
    printed with one separator they are read back by [parseFloat] as
    the double nearest to the thousandth of the integer, a positive
    number that is not the integer. *)
Theorem unformat_format_thousands :
  forall (toLocaleString : JSNumber.t -> string) (n : Z),
    vi_VN_on_integers toLocaleString ->
    1000 <= n < 1000000 ->
    utils.unformatNumber
      (utils.SStr (utils.formatNumber toLocaleString
                     (utils.SNum (JSNumber.of_Z n))))
    = JSNumber.round_decimal false n (- 3) /\
    (exists q : Q,
        JSNumber.round_decimal false n (- 3) = JSNumber.Finite q /\
        (0 < q)%Q /\ (q <= (n + 1000) # 1000)%Q) /\
    utils.unformatNumber
      (utils.SStr (utils.formatNumber toLocaleString
                     (utils.SNum (JSNumber.of_Z n))))
    <> JSNumber.of_Z n.
Proof.
  intros tls n V Hn.
  assert (Hn' : 0 <= n < 2 ^ 53)
    by (change (2 ^ 53) with 9007199254740992; lia).
  destruct (FormatFacts.round_thousandth n Hn) as (q & E & Pq & Uq).
  assert (R : utils.unformatNumber
                (utils.SStr (utils.formatNumber tls
                               (utils.SNum (JSNumber.of_Z n))))
              = JSNumber.round_decimal false n (- 3)).
  { rewrite (FormatFacts.formatNumber_integer tls n V Hn').
    unfold utils.unformatNumber.
    rewrite (FormatFacts.toNumeric_digits_grouped n Hn').
    destruct (Z.leb_spec 1000 n); destruct (Z.ltb_spec n 1000000);
      cbn [andb]; try lia.
    rewrite E. reflexivity. }
  split; [exact R|]. split; [exists q; auto|].
  rewrite R, E. unfold JSNumber.of_Z. intros C. injection C as C.
  rewrite C in Uq. unfold Qle in Uq. cbn [Qnum Qden] in Uq. lia.
Qed.

Lemma unformat_format_thousands_witness :
  utils.unformatNumber
    (utils.SStr (utils.formatNumber sample_vi_VN
                   (utils.SNum (JSNumber.of_Z 123456))))
  = JSNumber.round_decimal false 123456 (- 3) /\
  (exists q : Q,
      JSNumber.round_decimal false 123456 (- 3) = JSNumber.Finite q /\
      (0 < q)%Q /\ (q <= (123456 + 1000) # 1000)%Q) /\
  utils.unformatNumber
    (utils.SStr (utils.formatNumber sample_vi_VN
                   (utils.SNum (JSNumber.of_Z 123456))))
  <> JSNumber.of_Z 123456.
Proof.
  apply unformat_format_thousands; [|lia].
  intros n Hn. reflexivity.
Defined.

(** ** The interest rate *)

Module RateFacts.
Import JSNumber.

Lemma Qle_bool_false (a b : Q) : Qle_bool a b = false -> (b < a)%Q.
Proof.
  intros H. apply Qnot_le_lt. intros C. apply Qle_bool_iff in C. congruence.
Qed.

Lemma Qle_bool_int (a b : Z) : Qle_bool (a # 1) (b # 1) = (a <=? b).
Proof. unfold Qle_bool. cbn [Qnum Qden]. rewrite !Z.mul_1_r. reflexivity. Qed.

(** The rate of a finite amount, tier by tier. *)
Lemma rate_of_finite (v : utils.Scalar) (q : Q) :
  utils.toNumeric v = Finite q ->
  utils.calculateInterestRate v =
  if Qle_bool q 0 then None
  else if Qle_bool (200000000 # 1) q then Some (10 # 1)
  else if Qle_bool (100000000 # 1) q then Some (11 # 1)
  else if Qle_bool (50000000 # 1) q then Some (23 # 2)
  else Some (12 # 1).
Proof.
  intros E. unfold utils.calculateInterestRate. rewrite E.
  cbn [isNaN orb num_le_int]. destruct (Qle_bool q 0); [reflexivity|].
  unfold utils.INTEREST_RATE_THRESHOLDS. cbn [find fst snd num_ge_int].
  destruct (Qle_bool (200000000 # 1) q); [reflexivity|].
  destruct (Qle_bool (100000000 # 1) q); [reflexivity|].
  destruct (Qle_bool (50000000 # 1) q); reflexivity.
Qed.

Lemma rate_small (v : utils.Scalar) (q : Q) :
  utils.toNumeric v = Finite q -> (0 < q)%Q -> (q < 50000000 # 1)%Q ->
  utils.calculateInterestRate v = Some (12 # 1).
Proof.
  intros E Lo Up. rewrite (rate_of_finite v q E).
  destruct (Qle_bool q 0) eqn:A;
    [apply Qle_bool_iff in A; exfalso; exact (Qlt_not_le _ _ Lo A)|].
  assert (N : forall a : Q, (50000000 # 1 <= a)%Q -> Qle_bool a q = false).
  { intros a Ha. destruct (Qle_bool a q) eqn:B; [|reflexivity].
    apply Qle_bool_iff in B. exfalso.
    exact (Qlt_not_le _ _ Up (Qle_trans _ _ _ Ha B)). }
  rewrite !N; [reflexivity | | |]; unfold Qle; cbn; lia.
Qed.

End RateFacts.

(** X17.  [calculateInterestRate] gives an amount printed by
    [formatNumber] the rate of the amount itself, for every integer up
    to 2^53: where the printed form is read back as the thousandth of
    the amount, both fall in the tier of 12. *)
Theorem calculateInterestRate_formatted :
  forall (toLocaleString : JSNumber.t -> string) (n : Z),
    vi_VN_on_integers toLocaleString ->
    0 <= n < 2 ^ 53 ->
    utils.calculateInterestRate
      (utils.SStr (utils.formatNumber toLocaleString
                     (utils.SNum (JSNumber.of_Z n))))
    = utils.calculateInterestRate (utils.SNum (JSNumber.of_Z n)).
Proof.
  intros tls n V Hn.
  rewrite (FormatFacts.formatNumber_integer tls n V Hn).
  pose proof (FormatFacts.toNumeric_digits_grouped n Hn) as T.
  destruct (Z.leb_spec 1000 n) as [A|A];
    destruct (Z.ltb_spec n 1000000) as [B|B]; cbn [andb] in T.
  - destruct (FormatFacts.round_thousandth n (conj A B)) as (q & E & Pq & Uq).
    rewrite E in T. rewrite (RateFacts.rate_small _ q T Pq).
    + symmetry. apply (RateFacts.rate_small _ (n # 1)); [reflexivity | |];
        unfold Qlt; cbn [Qnum Qden]; lia.
    + apply (Qle_lt_trans _ _ _ Uq). unfold Qlt. cbn [Qnum Qden]. lia.
  - rewrite (RateFacts.rate_of_finite _ (n # 1) T).
    rewrite (RateFacts.rate_of_finite (utils.SNum (JSNumber.of_Z n)) (n # 1));
      reflexivity.
  - rewrite (RateFacts.rate_of_finite _ (n # 1) T).
    rewrite (RateFacts.rate_of_finite (utils.SNum (JSNumber.of_Z n)) (n # 1));
      reflexivity.
  - lia.
Qed.

Lemma calculateInterestRate_formatted_witness :
  utils.calculateInterestRate
    (utils.SStr (utils.formatNumber sample_vi_VN
                   (utils.SNum (JSNumber.of_Z 150000000))))
  = utils.calculateInterestRate (utils.SNum (JSNumber.of_Z 150000000)).
Proof.
  apply calculateInterestRate_formatted; [|lia].
  intros n Hn. reflexivity.
Defined.

(** X18.  The rate never rises with the amount: every positive finite
    amount has a rate between 10 and 12, and a larger amount never has
    a higher rate. *)
Theorem calculateInterestRate_monotone :
  forall x y : Q,
    (0 < x)%Q -> (x <= y)%Q ->
    exists rx ry : Q,
      utils.calculateInterestRate (utils.SNum (JSNumber.Finite x)) = Some rx /\
      utils.calculateInterestRate (utils.SNum (JSNumber.Finite y)) = Some ry /\
      (10 # 1 <= ry)%Q /\ (ry <= rx)%Q /\ (rx <= 12 # 1)%Q.
Proof.
  intros x y Hx Hxy.
  rewrite (RateFacts.rate_of_finite (utils.SNum (JSNumber.Finite x)) x eq_refl).
  rewrite (RateFacts.rate_of_finite (utils.SNum (JSNumber.Finite y)) y eq_refl).
  assert (Hy : (0 < y)%Q) by exact (Qlt_le_trans _ _ _ Hx Hxy).
  assert (M : forall a : Q, Qle_bool a x = true -> Qle_bool a y = true).
  { intros a A. apply Qle_bool_iff. apply Qle_bool_iff in A.
    exact (Qle_trans _ _ _ A Hxy). }
  destruct (Qle_bool x 0) eqn:X0;
    [apply Qle_bool_iff in X0; exfalso; exact (Qlt_not_le _ _ Hx X0)|].
  destruct (Qle_bool y 0) eqn:Y0;
    [apply Qle_bool_iff in Y0; exfalso; exact (Qlt_not_le _ _ Hy Y0)|].
  destruct (Qle_bool (200000000 # 1) x) eqn:X2;
    [rewrite (M _ X2); do 2 eexists; repeat split; unfold Qle; cbn; lia|].
  destruct (Qle_bool (100000000 # 1) x) eqn:X1;
    [rewrite (M _ X1); destruct (Qle_bool (200000000 # 1) y);
     do 2 eexists; repeat split; unfold Qle; cbn; lia|].
  destruct (Qle_bool (50000000 # 1) x) eqn:X5;
    [rewrite (M _ X5); destruct (Qle_bool (200000000 # 1) y);
     destruct (Qle_bool (100000000 # 1) y);
     do 2 eexists; repeat split; unfold Qle; cbn; lia|].
  destruct (Qle_bool (200000000 # 1) y);
    destruct (Qle_bool (100000000 # 1) y);
    destruct (Qle_bool (50000000 # 1) y);
    do 2 eexists; repeat split; unfold Qle; cbn; lia.
Qed.

Lemma calculateInterestRate_monotone_witness :
  exists rx ry : Q,
    utils.calculateInterestRate
      (utils.SNum (JSNumber.Finite (75000000 # 1))) = Some rx /\
    utils.calculateInterestRate
      (utils.SNum (JSNumber.Finite (250000000 # 1))) = Some ry /\
    (10 # 1 <= ry)%Q /\ (ry <= rx)%Q /\ (rx <= 12 # 1)%Q.
Proof.
  apply calculateInterestRate_monotone; unfold Qlt, Qle; cbn; lia.
Defined.

(** ** Formatting an input element in place *)

Module ElementFacts.
Import JSNumber.

Lemma keep_digits (s : string) :
  all_decimal_digits (keep_chars is_decimal_digit s) = true.
Proof.
  induction s as [|c s IH]; [reflexivity|]. cbn [keep_chars].
  destruct (is_decimal_digit c) eqn:C; [|exact IH].
  cbn [all_decimal_digits]. rewrite C. exact IH.
Qed.

Lemma scan_digits_bound (s : string) :
  all_decimal_digits s = true ->
  exists v : Z,
    0 <= v < 10 ^ Z.of_nat (String.length s) /\
    scan 10 s 0 0 = (v, Z.of_nat (String.length s), EmptyString).
Proof.
  intros D. destruct (DigitFacts.digits_uint s D) as [d ->].
  rewrite NumberFacts.scan_uint, DigitCount.uint_length.
  exists (Z.of_N (Pos.of_uint d)). split; [|reflexivity].
  split; [lia | apply DigitCount.of_uint_upper].
Qed.

(** What [parseInt] makes of the digits kept from a value of at most
    15 digits. *)
Lemma parseInt10_kept (value : string) :
  (String.length (keep_chars is_decimal_digit value) <= 15)%nat ->
  (keep_chars is_decimal_digit value = EmptyString /\
   parseInt10 (keep_chars is_decimal_digit value) = NaN)
  \/
  exists n : Z,
    0 <= n < 2 ^ 53 /\
    parseInt10 (keep_chars is_decimal_digit value) = of_Z n.
Proof.
  intros L. pose proof (keep_digits value) as D.
  remember (keep_chars is_decimal_digit value) as s eqn:Es. clear Es.
  destruct (scan_digits_bound s D) as (v & Hv & Sc).
  rewrite (DigitFacts.parseInt10_digit_string s v D Sc).
  destruct s as [|c s]; [left; split; reflexivity|]. right.
  assert (B : 10 ^ Z.of_nat (String.length (String c s)) <= 10 ^ 15)
    by (apply Z.pow_le_mono_r; lia).
  assert (R : 0 <= v < 2 ^ 53)
    by (change (10 ^ 15) with 1000000000000000 in B;
        change (2 ^ 53) with 9007199254740992; lia).
  exists v. split; [exact R|]. cbn [String.length Nat.eqb].
  apply DigitFacts.round_integer, R.
Qed.

Lemma kept_of_printed (n : Z) :
  0 <= n ->
  keep_chars is_decimal_digit (vi_VN_integer n) = toString n.
Proof.
  intros Hn. unfold vi_VN_integer.
  destruct (Z.ltb_spec n 0) as [?|_]; [lia|].
  rewrite FormatFacts.keep_group by reflexivity.
  apply FormatFacts.keep_every, FormatFacts.digits_every; [auto|].
  apply NumberFacts.toString_digits, Hn.
Qed.

End ElementFacts.

(** X19.  Formatting an input element is idempotent: for a value that
    holds at most 15 digits, [formatNumber] returns nothing, writes a
    new value, and formatting the element again writes the same value;
    the value written is empty exactly when the old one holds no
    digit. *)
Theorem formatNumber_element_idempotent :
  forall (toLocaleString : JSNumber.t -> string)
         (window_formatNumber : option (utils.Scalar -> string))
         (value : string),
    vi_VN_on_integers toLocaleString ->
    (String.length (keep_chars JSNumber.is_decimal_digit value) <= 15)%nat ->
    exists written : string,
      shared.formatNumber toLocaleString window_formatNumber
        (shared.Element value)
        = shared.mkFormatted (Some written) None /\
      shared.formatNumber toLocaleString window_formatNumber
        (shared.Element written)
        = shared.mkFormatted (Some written) None /\
      (written = "" <-> keep_chars JSNumber.is_decimal_digit value = "").
Proof.
  intros tls w value V L. unfold shared.formatNumber.
  destruct (ElementFacts.parseInt10_kept value L) as [[E P]|(n & Hn & P)];
    rewrite P.
  - exists "". cbn. rewrite E. repeat split.
  - cbn [JSNumber.isNaN JSNumber.of_Z negb]. fold (JSNumber.of_Z n).
    rewrite (V n Hn). exists (vi_VN_integer n).
    split; [reflexivity|].
    rewrite (ElementFacts.kept_of_printed n (proj1 Hn)).
    rewrite (FormatFacts.parseInt10_toString n Hn).
    cbn [JSNumber.isNaN JSNumber.of_Z negb]. fold (JSNumber.of_Z n).
    rewrite (V n Hn). split; [reflexivity|].
    destruct (NumberFacts.toString_digits n (proj1 Hn)) as [_ NE].
    pose proof (FormatFacts.group_length_nonempty _ NE) as G.
    assert (W : vi_VN_integer n <> "").
    { unfold vi_VN_integer. destruct (n <? 0); [discriminate | exact G]. }
    split; [intros C; contradiction|].
    intros C. exfalso.
    assert (K : parseInt10
                  (keep_chars JSNumber.is_decimal_digit value)
                = JSNumber.NaN) by (rewrite C; reflexivity).
    rewrite P in K. discriminate K.
Qed.

Lemma formatNumber_element_idempotent_witness :
  exists written : string,
    shared.formatNumber sample_vi_VN None (shared.Element "12a345 678")
      = shared.mkFormatted (Some written) None /\
    shared.formatNumber sample_vi_VN None (shared.Element written)
      = shared.mkFormatted (Some written) None /\
    (written = "" <-> keep_chars JSNumber.is_decimal_digit "12a345 678" = "").
Proof.
  apply formatNumber_element_idempotent; [|cbn; lia].
  intros n Hn. reflexivity.
Defined.

(** X20.  The guard of [formatNumberInput] only matters for the number
    zero: every other value is formatted as by [formatNumber] (the
    falsy ones give the empty string either way), while 0 is printed
    by [formatNumber] and blanked by [formatNumberInput]. *)
Theorem formatNumberInput_only_zero :
  forall (toLocaleString : JSNumber.t -> string) (value : utils.Scalar),
    vi_VN_on_integers toLocaleString ->
    (forall q : Q, value = utils.SNum (JSNumber.Finite q) -> Qnum q <> 0) ->
    utils.formatNumberInput toLocaleString value
      = utils.formatNumber toLocaleString value /\
    utils.formatNumberInput toLocaleString (utils.SNum (JSNumber.of_Z 0)) = ""
    /\
    utils.formatNumber toLocaleString (utils.SNum (JSNumber.of_Z 0)) = "0".
Proof.
  intros tls value V NZ. split; [|split].
  - unfold utils.formatNumberInput.
    destruct value as [| |[|]|[| | |q]|s]; cbn [utils.falsy_scalar negb];
      try reflexivity.
    + destruct (Z.eqb_spec (Qnum q) 0) as [Z0|_]; [|reflexivity].
      exfalso. exact (NZ q eq_refl Z0).
    + destruct s; reflexivity.
  - reflexivity.
  - rewrite (FormatFacts.formatNumber_integer tls 0 V); [reflexivity|].
    change (2 ^ 53) with 9007199254740992. lia.
Qed.

Lemma formatNumberInput_only_zero_witness :
  utils.formatNumberInput sample_vi_VN (utils.SStr "1,5")
    = utils.formatNumber sample_vi_VN (utils.SStr "1,5") /\
  utils.formatNumberInput sample_vi_VN (utils.SNum (JSNumber.of_Z 0)) = "" /\
  utils.formatNumber sample_vi_VN (utils.SNum (JSNumber.of_Z 0)) = "0".
Proof.
  apply formatNumberInput_only_zero.
  - intros n Hn. reflexivity.
  - intros q E. discriminate E.
Defined.

(** ** [Math.random() * maxExclusive] *)

Module ProductFacts.
Import JSNumber.

(** The exponent found is not above the binary logarithm. *)
Lemma floor_log2_lower (num den : Z) :
  0 < num -> 0 < den -> 0 <= floor_log2 num den ->
  den * 2 ^ floor_log2 num den <= num.
Proof.
  intros Hn Hd. unfold floor_log2, scale2.
  pose proof (Z.log2_spec num Hn) as [Ln _].
  pose proof (Z.log2_spec den Hd) as [_ Ld].
  pose proof (Z.log2_nonneg num) as Nn.
  pose proof (Z.log2_nonneg den) as Nd.
  remember (Z.log2 num) as ln eqn:E1. remember (Z.log2 den) as ld eqn:E2.
  clear E1 E2.
  destruct (Z.leb_spec 0 (ln - ld)) as [P|P].
  - destruct (Z.leb_spec (den * 2 ^ (ln - ld)) num) as [A|A]; intros F;
      [exact A|].
    assert (E : 2 ^ ln = 2 ^ Z.succ ld * 2 ^ (ln - ld - 1))
      by (rewrite <- Z.pow_add_r by lia; f_equal; lia).
    assert (0 < 2 ^ (ln - ld - 1)) by (apply Z.pow_pos_nonneg; lia).
    nia.
  - destruct (den <=? num * 2 ^ (- (ln - ld))); intros F; lia.
Qed.

Lemma round_half_even_upper (n d : Z) :
  0 < d -> 0 <= n ->
  0 <= round_half_even n d /\ 2 * (round_half_even n d * d - n) <= d.
Proof.
  intros Hd Hn. unfold round_half_even.
  pose proof (Z.div_mod n d ltac:(lia)) as E.
  pose proof (Z.mod_pos_bound n d Hd) as B.
  assert (0 <= n / d) by (apply Z.div_pos; lia).
  destruct (Z.ltb_spec (2 * (n mod d)) d); [split; nia|].
  destruct (Z.ltb_spec d (2 * (n mod d))); [split; nia|].
  destruct (Z.even (n / d)); split; nia.
Qed.

(** [Math.floor] does not depend on the fraction being reduced. *)
Lemma floor_Qred (a : Z) (p : positive) :
  Qnum (Qred (a # p)) / Z.pos (Qden (Qred (a # p))) = a / Z.pos p.
Proof.
  pose proof (Qred_correct (a # p)) as E. unfold Qeq in E.
  cbn [Qnum Qden] in E.
  remember (Qred (a # p)) as q eqn:Eq. clear Eq.
  rewrite <- (Z.div_mul_cancel_r a (Z.pos p) (Z.pos (Qden q))) by lia.
  rewrite <- (Z.div_mul_cancel_r (Qnum q) (Z.pos (Qden q)) (Z.pos p)) by lia.
  f_equal; lia.
Qed.

(** The rounded product of a double below 1 and a bound of at most 32
    bits stays below the bound. *)
Lemma product_below (rn : Z) (rd : positive) (m : Z) :
  0 < rn -> rn * 2 ^ 53 <= (2 ^ 53 - 1) * Z.pos rd -> 0 < m <= 2 ^ 32 ->
  exists q : Q,
    round_pos false (rn * m) (Z.pos rd) = Finite q /\
    0 <= Qnum q / Z.pos (Qden q) < m.
Proof.
  intros Hr Hlt Hm. unfold round_pos.
  assert (Hnum : 0 < rn * m) by nia.
  assert (Hlt' : rn * m < m * Z.pos rd) by nia.
  pose proof (floor_log2_lower (rn * m) (Z.pos rd) Hnum ltac:(lia)) as F.
  remember (floor_log2 (rn * m) (Z.pos rd)) as fl eqn:Efl. clear Efl.
  assert (Fm : 0 <= fl -> 2 ^ fl < m).
  { intros P. specialize (F P).
    assert (0 < 2 ^ fl) by (apply Z.pow_pos_nonneg; lia). nia. }
  assert (F32 : fl < 32).
  { destruct (Z.lt_ge_cases fl 0) as [?|P]; [lia|].
    apply (Z.pow_lt_mono_r_iff 2); [lia | lia |]. specialize (Fm P). lia. }
  remember (Z.max (fl - 52) (- 1074)) as e eqn:Ee.
  assert (He : e < 0) by lia.
  assert (K : 2 ^ 52 < m * 2 ^ (- e)).
  { destruct (Z.le_gt_cases (- 1074) (fl - 52)) as [A|A].
    - replace e with (fl - 52) by lia.
      replace (- (fl - 52)) with (52 - fl) by lia.
      destruct (Z.lt_ge_cases fl 0) as [N|P].
      + assert (2 ^ 52 < 2 ^ (52 - fl))
          by (apply Z.pow_lt_mono_r; lia). nia.
      + specialize (Fm P).
        assert (E : 2 ^ 52 = 2 ^ fl * 2 ^ (52 - fl))
          by (rewrite <- Z.pow_add_r by lia; f_equal; lia).
        assert (0 < 2 ^ (52 - fl)) by (apply Z.pow_pos_nonneg; lia).
        nia.
    - replace e with (- 1074) by lia.
      assert (2 ^ 52 < 2 ^ (- - 1074)) by (apply Z.pow_lt_mono_r; lia).
      nia. }
  clear Ee F Fm F32.
  unfold scale2. destruct (Z.leb_spec 0 e) as [?|_]; [lia|].
  destruct (Z.ltb_spec 971 e) as [?|_]; [lia|].
  destruct (Z.eqb_spec e 971) as [?|_]; [lia|]. cbn [orb andb].
  unfold of_pow2. destruct (Z.leb_spec 0 e) as [?|_]; [lia|].
  assert (Kp : 0 < 2 ^ (- e)) by (apply Z.pow_pos_nonneg; lia).
  remember (2 ^ (- e)) as k eqn:Ek. clear Ek.
  pose proof (round_half_even_upper (rn * m * k) (Z.pos rd)
                ltac:(lia) ltac:(nia)) as [M0 M1].
  remember (round_half_even (rn * m * k) (Z.pos rd)) as r eqn:Er. clear Er.
  exists (Qred (r # Z.to_pos k)). split; [reflexivity|].
  rewrite floor_Qred, Z2Pos.id by lia.
  split; [apply Z.div_pos; lia|].
  apply Z.div_lt_upper_bound; [lia|].
  remember (Z.pos rd) as d eqn:Ed.
  assert (Dp : 0 < d) by lia. clear Ed.
  change (2 ^ 53) with (2 * 2 ^ 52) in Hlt.
  remember (2 ^ 52) as h eqn:Eh.
  assert (Hh : 0 < h) by (subst h; lia). clear Eh.
  remember (m * k) as a eqn:Ea.
  assert (Ra : rn * m * k = rn * a) by (subst a; ring).
  rewrite Ra in M1. rewrite (Z.mul_comm k m), <- Ea.
  clear Ea Ra.
  destruct (Z.lt_ge_cases r a) as [?|G]; [assumption|]. exfalso.
  assert (S1 : 2 * a * (d - rn) <= d) by nia.
  assert (S2 : d <= 2 * h * (d - rn)) by lia.
  assert (S3 : 0 < d - rn) by nia.
  nia.
Qed.

End ProductFacts.

(** X21.  With only [Math.random], a double in [0, 1), the product
    rounded to a double and floored is still below the bound:
    [secureRandomInt] returns an integer in [0, maxExclusive) for
    every bound up to 2^32, and [generateRandomCode] a code of exactly
    six digits. *)
Theorem secureRandomInt_math_random_range :
  forall (random : Q) (fuel : nat) (maxExclusive : Z),
    (0 <= random)%Q -> (random <= (2 ^ 53 - 1) # (2 ^ 53))%Q ->
    0 < maxExclusive <= 2 ^ 32 ->
    (exists r : Z,
        utils.secureRandomInt (utils.MathRandom random) fuel maxExclusive
          = Some r /\ 0 <= r < maxExclusive) /\
    (exists code : string,
        utils.generateRandomCode (utils.MathRandom random) fuel = Some code /\
        String.length code = 6%nat /\
        JSNumber.all_decimal_digits code = true).
Proof.
  intros random fuel m H0 H1 Hm.
  assert (R : forall b : Z, 0 < b <= 2 ^ 32 ->
            exists r : Z,
              utils.secureRandomInt (utils.MathRandom random) fuel b = Some r
              /\ 0 <= r < b).
  { intros b Hb. unfold utils.secureRandomInt.
    rewrite (RandomFacts.guard_false b (proj1 Hb)).
    destruct (Z.eqb_spec (Qnum random) 0) as [Z0|NZ];
      [exists 0; split; [reflexivity | lia]|].
    destruct random as [rn rd]. unfold Qle in H0, H1.
    cbn [Qnum Qden] in H0, H1, NZ |- *.
    destruct (ProductFacts.product_below rn rd b) as (q & E & B);
      [lia | | exact Hb |].
    - change (Z.pos (2 ^ 53)) with (2 ^ 53) in H1. lia.
    - rewrite E. exists (Qnum q / Z.pos (Qden q)). split; [reflexivity|exact B]. }
  split; [exact (R m Hm)|].
  destruct (R 1000000 ltac:(change (2 ^ 32) with 4294967296; lia))
    as (r & E & B).
  unfold utils.generateRandomCode. rewrite E.
  destruct (padded_code r B) as [L D].
  eexists. split; [reflexivity|]. split; [exact L | exact D].
Qed.

Lemma secureRandomInt_math_random_range_witness :
  (exists r : Z,
      utils.secureRandomInt
        (utils.MathRandom ((2 ^ 53 - 1) # (2 ^ 53))) 0 1000000
        = Some r /\ 0 <= r < 1000000) /\
  (exists code : string,
      utils.generateRandomCode
        (utils.MathRandom ((2 ^ 53 - 1) # (2 ^ 53))) 0 = Some code /\
      String.length code = 6%nat /\
      JSNumber.all_decimal_digits code = true).
Proof.
  apply secureRandomInt_math_random_range;
    [unfold Qle; cbn; lia | unfold Qle; cbn; lia
     | change (2 ^ 32) with 4294967296; lia].
Defined.

(** ** The session clock *)

Module QuotientFacts.
Import JSNumber.

Lemma floor_log2_le (num den : Z) :
  0 < num -> 0 < den ->
  (0 <= floor_log2 num den -> den * 2 ^ floor_log2 num den <= num) /\
  (floor_log2 num den < 0 -> den <= num * 2 ^ (- floor_log2 num den)).
Proof.
  intros Hn Hd. split; [apply ProductFacts.floor_log2_lower; assumption|].
  unfold floor_log2, scale2.
  pose proof (Z.log2_spec num Hn) as [Ln _].
  pose proof (Z.log2_spec den Hd) as [_ Ld].
  pose proof (Z.log2_nonneg num) as Nn.
  pose proof (Z.log2_nonneg den) as Nd.
  remember (Z.log2 num) as ln eqn:E1. remember (Z.log2 den) as ld eqn:E2.
  clear E1 E2.
  destruct (Z.leb_spec 0 (ln - ld)) as [P|P].
  - destruct (Z.leb_spec (den * 2 ^ (ln - ld)) num) as [A|A]; intros F;
      [lia|].
    assert (ln = ld) by lia. subst ld.
    replace (- (ln - ln - 1)) with 1 by lia.
    rewrite Z.pow_succ_r in Ld by lia. lia.
  - destruct (Z.leb_spec den (num * 2 ^ (- (ln - ld)))) as [A|A]; intros F;
      [exact A|].
    replace (- (ln - ld - 1)) with (Z.succ ld - ln) by lia.
    assert (E : 2 ^ Z.succ ld = 2 ^ ln * 2 ^ (Z.succ ld - ln))
      by (rewrite <- Z.pow_add_r by lia; f_equal; lia).
    assert (0 < 2 ^ (Z.succ ld - ln)) by (apply Z.pow_pos_nonneg; lia).
    nia.
Qed.

Lemma round_half_even_near (n d : Z) :
  0 < d -> 0 <= n ->
  0 <= round_half_even n d /\
  2 * (round_half_even n d * d - n) <= d /\
  2 * (n - round_half_even n d * d) <= d.
Proof.
  intros Hd Hn. unfold round_half_even.
  pose proof (Z.div_mod n d ltac:(lia)) as E.
  pose proof (Z.mod_pos_bound n d Hd) as B.
  assert (0 <= n / d) by (apply Z.div_pos; lia).
  destruct (Z.ltb_spec (2 * (n mod d)) d); [repeat split; nia|].
  destruct (Z.ltb_spec d (2 * (n mod d))); [repeat split; nia|].
  destruct (Z.even (n / d)); repeat split; nia.
Qed.

Lemma floor_log2_gt (num den : Z) :
  0 < num -> 0 < den ->
  (0 <= floor_log2 num den + 1 ->
   num < den * 2 ^ (floor_log2 num den + 1)) /\
  (floor_log2 num den + 1 < 0 ->
   num * 2 ^ (- (floor_log2 num den + 1)) < den).
Proof.
  intros Hn Hd. unfold floor_log2, scale2.
  pose proof (Z.log2_spec num Hn) as [_ Ln].
  pose proof (Z.log2_spec den Hd) as [Ld _].
  pose proof (Z.log2_nonneg num) as Nn.
  pose proof (Z.log2_nonneg den) as Nd.
  remember (Z.log2 num) as ln eqn:E1. remember (Z.log2 den) as ld eqn:E2.
  clear E1 E2.
  destruct (Z.leb_spec 0 (ln - ld)) as [P|P].
  - destruct (Z.leb_spec (den * 2 ^ (ln - ld)) num) as [A|A].
    + split; [intros _|lia].
      assert (E : 2 ^ Z.succ ln = 2 ^ ld * 2 ^ (ln - ld + 1))
        by (rewrite <- Z.pow_add_r by lia; f_equal; lia).
      assert (0 < 2 ^ (ln - ld + 1)) by (apply Z.pow_pos_nonneg; lia).
      nia.
    + split; [intros _|lia].
      replace (ln - ld - 1 + 1) with (ln - ld) by lia. exact A.
  - destruct (Z.leb_spec den (num * 2 ^ (- (ln - ld)))) as [A|A].
    + split.
      * intros F. assert (ln - ld = - 1) by lia.
        replace (ln - ld + 1) with 0 by lia.
        replace ld with (Z.succ ln) in Ld by lia. change (2 ^ 0) with 1. lia.
      * intros F.
        replace (- (ln - ld + 1)) with (ld - Z.succ ln) by lia.
        assert (E : 2 ^ ld = 2 ^ Z.succ ln * 2 ^ (ld - Z.succ ln))
          by (rewrite <- Z.pow_add_r by lia; f_equal; lia).
        assert (0 < 2 ^ (ld - Z.succ ln)) by (apply Z.pow_pos_nonneg; lia).
        nia.
    + split; [lia|]. intros F.
      replace (- (ln - ld - 1 + 1)) with (- (ln - ld)) by lia. exact A.
Qed.

(** A quotient in the normal range below 2^52 is rounded with a
    relative error of at most 2^-53. *)
Lemma round_pos_near (num : Z) (den : positive) :
  0 < num -> num < Z.pos den * 2 ^ 52 -> Z.pos den <= num * 2 ^ 1000 ->
  exists q : Q,
    round_pos false num (Z.pos den) = Finite q /\
    ((num # den) * (9007199254740991 # 9007199254740992) <= q)%Q /\
    (q <= (num # den) * (9007199254740993 # 9007199254740992))%Q.
Proof.
  intros Hn Hlt Hge. unfold round_pos.
  destruct (floor_log2_le num (Z.pos den) Hn ltac:(lia)) as [Lp Ln].
  destruct (floor_log2_gt num (Z.pos den) Hn ltac:(lia)) as [_ Gn].
  remember (floor_log2 num (Z.pos den)) as fl eqn:Efl. clear Efl.
  assert (F52 : fl < 52).
  { destruct (Z.lt_ge_cases fl 0) as [?|P]; [lia|]. specialize (Lp P).
    apply (Z.pow_lt_mono_r_iff 2); [lia | lia | nia]. }
  assert (Flo : - 1001 < fl).
  { destruct (Z.lt_ge_cases (fl + 1) 0) as [N|?]; [|lia]. specialize (Gn N).
    assert (2 ^ (- (fl + 1)) < 2 ^ 1000) by nia.
    apply Z.pow_lt_mono_r_iff in H; lia. }
  replace (Z.max (fl - 52) (- 1074)) with (fl - 52) by lia.
  assert (K : Z.pos den * 2 ^ 52 <= num * 2 ^ (- (fl - 52))).
  { replace (- (fl - 52)) with (52 - fl) by lia.
    destruct (Z.lt_ge_cases fl 0) as [N|P].
    - specialize (Ln N).
      replace (52 - fl) with (- fl + 52) by lia.
      rewrite Z.pow_add_r by lia. nia.
    - specialize (Lp P).
      assert (E : 2 ^ 52 = 2 ^ fl * 2 ^ (52 - fl))
        by (rewrite <- Z.pow_add_r by lia; f_equal; lia).
      assert (0 < 2 ^ (52 - fl)) by (apply Z.pow_pos_nonneg; lia).
      nia. }
  clear Lp Ln Gn Flo.
  unfold scale2. destruct (Z.leb_spec 0 (fl - 52)) as [?|_]; [lia|].
  destruct (Z.ltb_spec 971 (fl - 52)) as [?|_]; [lia|].
  destruct (Z.eqb_spec (fl - 52) 971) as [?|_]; [lia|]. cbn [orb andb].
  unfold of_pow2. destruct (Z.leb_spec 0 (fl - 52)) as [?|_]; [lia|].
  assert (Kp : 0 < 2 ^ (- (fl - 52))) by (apply Z.pow_pos_nonneg; lia).
  remember (2 ^ (- (fl - 52))) as k eqn:Ek. clear Ek.
  pose proof (round_half_even_near (num * k) (Z.pos den)
                ltac:(lia) ltac:(nia)) as (M0 & M1 & M2).
  remember (round_half_even (num * k) (Z.pos den)) as m eqn:Em. clear Em.
  exists (Qred (m # Z.to_pos k)). split; [reflexivity|].
  rewrite !Qred_correct. unfold Qle, Qmult. cbn [Qnum Qden].
  rewrite !Pos2Z.inj_mul, Z2Pos.id by lia.
  change (2 ^ 52) with 4503599627370496 in K.
  remember (Z.pos den) as d eqn:Ed. clear Ed.
  remember (m * d) as P eqn:EP. remember (num * k) as R eqn:ER.
  split.
  - replace (num * 9007199254740991 * k) with (R * 9007199254740991)
      by (subst R; ring).
    replace (m * (d * 9007199254740992)) with (P * 9007199254740992)
      by (subst P; ring).
    lia.
  - replace (m * (d * 9007199254740992)) with (P * 9007199254740992)
      by (subst P; ring).
    replace (num * 9007199254740993 * k) with (R * 9007199254740993)
      by (subst R; ring).
    lia.
Qed.

(** An integer quotient below 2^52 is exact. *)
Lemma round_pos_exact (k : Z) (den : positive) :
  0 < k < 2 ^ 52 ->
  round_pos false (k * Z.pos den) (Z.pos den) = Finite (k # 1).
Proof.
  intros Hk. unfold round_pos.
  destruct (floor_log2_le (k * Z.pos den) (Z.pos den) ltac:(nia) ltac:(lia))
    as [Lp _].
  remember (floor_log2 (k * Z.pos den) (Z.pos den)) as fl eqn:Efl. clear Efl.
  assert (F52 : fl < 52).
  { destruct (Z.lt_ge_cases fl 0) as [?|P]; [lia|]. specialize (Lp P).
    apply (Z.pow_lt_mono_r_iff 2); [lia | lia | nia]. }
  clear Lp.
  remember (Z.max (fl - 52) (- 1074)) as e eqn:Ee.
  assert (He : e < 0) by lia. clear Ee.
  unfold scale2. destruct (Z.leb_spec 0 e) as [?|_]; [lia|].
  destruct (Z.ltb_spec 971 e) as [?|_]; [lia|].
  destruct (Z.eqb_spec e 971) as [?|_]; [lia|]. cbn [orb andb].
  unfold of_pow2. destruct (Z.leb_spec 0 e) as [?|_]; [lia|].
  assert (Kp : 0 < 2 ^ (- e)) by (apply Z.pow_pos_nonneg; lia).
  remember (2 ^ (- e)) as c eqn:Ec. clear Ec.
  assert (R : round_half_even (k * Z.pos den * c) (Z.pos den) = k * c).
  { unfold round_half_even.
    replace (k * Z.pos den * c) with (k * c * Z.pos den) by ring.
    rewrite Z.div_mul, Z.mod_mul by lia.
    destruct (Z.ltb_spec (2 * 0) (Z.pos den)); [reflexivity | lia]. }
  rewrite R. f_equal.
  rewrite <- (NumberFacts.Qred_integer k). apply Qred_complete.
  unfold Qeq. cbn [Qnum Qden]. rewrite Z2Pos.id by lia. ring.
Qed.

End QuotientFacts.

(** X22.  Although the elapsed time is computed in minutes with two
    floating-point divisions, [isSessionValid] decides exactly whether
    fewer than [sessionTimeout * 60 * 1000] milliseconds have passed
    since the session started: the test [clearExpiredSessions] makes
    in milliseconds. *)
Theorem isSessionValid_exact :
  forall now sessionStart sessionTimeout : Z,
    0 <= now - sessionStart < 2 ^ 53 ->
    0 <= sessionTimeout <= 2 ^ 31 ->
    config.isSessionValid now sessionStart sessionTimeout
    = (now - sessionStart <? sessionTimeout * 60 * 1000).
Proof.
  intros now start T Hd HT. unfold config.isSessionValid.
  remember (now - start) as d eqn:Ed. clear Ed now start.
  change (2 ^ 53) with 9007199254740992 in Hd.
  change (2 ^ 31) with 2147483648 in HT.
  unfold JSNumber.of_Z.
  destruct (Z.eq_dec d 0) as [->|Nz].
  { cbn [divide_by Qnum Z.eqb num_lt_int].
    unfold Qle_bool. cbn [Qnum Qden]. rewrite !Z.mul_1_r.
    destruct (Z.leb_spec T 0), (Z.ltb_spec 0 (T * 60 * 1000)); cbn [negb];
      lia || reflexivity. }
  destruct (Z.eq_dec d (T * 60 * 1000)) as [E|Ne].
  { (* the boundary: both quotients are exact *)
    assert (Tp : 0 < T) by lia.
    cbn [divide_by Qnum Qden].
    destruct (Z.eqb_spec d 0) as [?|_]; [lia|].
    destruct (Z.ltb_spec 0 d) as [_|?]; [|lia].
    change (Z.pos (1 * 1000)) with (Z.pos 1000).
    replace d with (T * 60 * Z.pos 1000) by lia.
    rewrite (QuotientFacts.round_pos_exact (T * 60) 1000)
      by (change (2 ^ 52) with 4503599627370496; lia).
    cbn [divide_by Qnum Qden].
    destruct (Z.eqb_spec (T * 60) 0) as [?|_]; [lia|].
    destruct (Z.ltb_spec 0 (T * 60)) as [_|?]; [|lia].
    change (Z.pos (1 * 60)) with (Z.pos 60).
    rewrite (QuotientFacts.round_pos_exact T 60)
      by (change (2 ^ 52) with 4503599627370496; lia).
    cbn [num_lt_int]. unfold Qle_bool. cbn [Qnum Qden].
    rewrite Z.leb_refl. cbn [negb].
    symmetry. apply Z.ltb_ge. lia. }
  (* away from the boundary the rounding errors are too small to matter *)
  cbn [divide_by Qnum Qden].
  destruct (Z.eqb_spec d 0) as [?|_]; [lia|].
  destruct (Z.ltb_spec 0 d) as [_|?]; [|lia].
  change (Z.pos (1 * 1000)) with (Z.pos 1000).
  assert (P1000 : 1000 <= 2 ^ 1000)
    by (change 1000 with (2 ^ 9 + 488) at 1;
        pose proof (Z.pow_le_mono_r 2 10 1000 ltac:(lia) ltac:(lia));
        change (2 ^ 10) with 1024 in *; change (2 ^ 9) with 512; lia).
  destruct (QuotientFacts.round_pos_near d 1000) as (q1 & E1 & Lo1 & Up1);
    [lia | change (2 ^ 52) with 4503599627370496; lia | nia |].
  rewrite E1.
  assert (X1 : (d # 1000 == inject_Z d * (1 # 1000))%Q)
    by (unfold Qeq, Qmult, inject_Z; cbn [Qnum Qden]; lia).
  rewrite X1 in Lo1, Up1.
  assert (D1 : (1 <= inject_Z d)%Q)
    by (unfold Qle, inject_Z; cbn [Qnum Qden]; lia).
  assert (D2 : (inject_Z d <= 9007199254740992)%Q)
    by (unfold Qle, inject_Z; cbn [Qnum Qden]; lia).
  assert (Q1p : (0 < q1)%Q) by lra.
  assert (N1 : 0 < Qnum q1)
    by (unfold Qlt in Q1p; cbn [Qnum Qden] in Q1p; lia).
  cbn [divide_by].
  destruct (Z.eqb_spec (Qnum q1) 0) as [?|_]; [lia|].
  destruct (Z.ltb_spec 0 (Qnum q1)) as [_|?]; [|lia].
  assert (Q1u : (q1 < 4503599627370496)%Q) by lra.
  assert (Q1l : (1 # 2000 <= q1)%Q) by lra.
  destruct (QuotientFacts.round_pos_near (Qnum q1) (Qden q1 * 60))
    as (q2 & E2 & Lo2 & Up2); [exact N1 | | |].
  { unfold Qlt in Q1u. cbn [Qnum Qden] in Q1u.
    change (2 ^ 52) with 4503599627370496. lia. }
  { unfold Qle in Q1l. cbn [Qnum Qden] in Q1l.
    assert (120000 <= 2 ^ 1000).
    { pose proof (Z.pow_le_mono_r 2 17 1000 ltac:(lia) ltac:(lia)) as B.
      change (2 ^ 17) with 131072 in B. lia. }
    rewrite Pos2Z.inj_mul. nia. }
  rewrite E2.
  assert (X2 : (Qnum q1 # (Qden q1 * 60) == q1 * (1 # 60))%Q)
    by (unfold Qeq, Qmult; cbn [Qnum Qden]; lia).
  rewrite X2 in Lo2, Up2.
  assert (Tq : (0 <= inject_Z T <= 2147483648)%Q)
    by (unfold Qle, inject_Z; cbn [Qnum Qden]; lia).
  cbn [num_lt_int].
  change (T # 1) with (inject_Z T).
  destruct (Z.ltb_spec d (T * 60 * 1000)) as [Lt|Ge].
  - assert (B : (inject_Z d <= 60000 * inject_Z T - 1)%Q)
      by (unfold Qle, Qminus, Qplus, Qmult, Qopp, inject_Z;
          cbn [Qnum Qden]; lia).
    destruct (Qle_bool (inject_Z T) q2) eqn:C; [|reflexivity].
    apply Qle_bool_iff in C. exfalso. lra.
  - assert (B : (60000 * inject_Z T + 1 <= inject_Z d)%Q)
      by (unfold Qle, Qplus, Qmult, inject_Z; cbn [Qnum Qden]; lia).
    destruct (Qle_bool (inject_Z T) q2) eqn:C; [reflexivity|].
    apply RateFacts.Qle_bool_false in C. exfalso. lra.
Qed.

Lemma isSessionValid_exact_witness :
  config.isSessionValid 1793637000000 1793635200000 30
  = (1793637000000 - 1793635200000 <? 30 * 60 * 1000).
Proof.
  apply isSessionValid_exact.
  - change (2 ^ 53) with 9007199254740992. lia.
  - change (2 ^ 31) with 2147483648. lia.
Defined.
